(** * Uni-post: the storage and consistency layer of the server

    A shallow embedding of the Express server of Uni-post, in the version
    that has the retention job and the direct-path resolver, and the
    properties of its storage layer: the index with its self-repair,
    the direct-path resolver with its index fallback, the vote ledger, the
    comment tree, the retention job and the user and community routes.

    Modelling conventions.
    - Documents are typed records, one per kind of document the server
      writes ([IndexDoc], [User], [Community], [Post], config), plus
      [Partial], an object with string fields only: the [{}] that
      [getFileFromGitHub] substitutes for a blank or unparseable file, and
      what the routes make of it.  A route that reads an array, a map or a
      counter from a typed document of another kind than the one it stores
      at that path, or that updates such a document to write it back, is
      outside the model, which raises [TypeError] at that point.  The
      listings copy the document they find, whatever its kind.
    - No key of a JavaScript object is the name of a member of
      [Object.prototype] or a canonical array index, except in the vote
      ledger of a post, whose keys are the names that the requests give:
      there the name [__proto__] is modelled as JavaScript has it.
    - JavaScript objects whose key order is observable ([Object.entries])
      are association lists in insertion order.
    - Counters and timestamps are [Z]: counters stay far inside the exact
      integer range of a JavaScript number, and an ISO timestamp is
      identified with its number of milliseconds since the epoch.  A
      number that a request sends is an integer of any size.
    - Strings are byte strings; [toLowerCase] is its ASCII restriction.
    - The clock of the server does not move while a request runs.
    - Every handler is a function of the store: a request runs to its end
      before the next one starts, except where a handler is split in two
      phases on purpose to interleave two requests. *)

From stdpp Require Import base option list strings gmap.
From Stdlib Require Import ZArith Ascii String.

Open Scope Z_scope.
Open Scope string_scope.

(** ** JavaScript objects as ordered association lists *)

Module JsObj.
Section Ops.
Context {V : Type}.

  (** [o[k]] *)
Fixpoint get (k : string) (o : list (string * V)) : option V :=
    match o with
    | [] => None
    | (k', v) :: o' => if decide (k' = k) then Some v else get k o'
    end.

  (** [o[k] = v]: an existing key keeps its position, a new key goes last. *)
Fixpoint set (k : string) (v : V) (o : list (string * V)) : list (string * V) :=
    match o with
    | [] => [(k, v)]
    | (k', v') :: o' =>
        if decide (k' = k) then (k, v) :: o' else (k', v') :: set k v o'
    end.

  (** [delete o[k]] *)
Fixpoint del (k : string) (o : list (string * V)) : list (string * V) :=
    match o with
    | [] => []
    | (k', v) :: o' =>
        if decide (k' = k) then del k o' else (k', v) :: del k o'
    end.

End Ops.
End JsObj.

(** ** Data model (spec section 3, as the routes build the documents) *)

(** A comment and its replies: [comment] in POST /api/posts/:postId/comments. *)
#[local] Unset Elimination Schemes.
Inductive Comment : Type :=
  mkComment {
    c_id : string;
    c_content : string;
    c_author : string;
    c_parentId : option string;
    c_createdAt : Z;
    c_upvotes : Z;
    c_downvotes : Z;
    c_score : Z;
    c_replies : list Comment
  }.
#[local] Set Elimination Schemes.

(** [postData] in POST /api/r/:community/posts.  [p_voters] is [None] in
    the views that strip it ([const { voters, ...safePost }]). *)
Record Post : Type :=
  mkPost {
    p_id : string;
    p_slug : string;
    p_title : string;
    p_content : string;
    p_type : string;
    p_author : string;
    p_community : string;
    p_createdAt : Z;
    p_upvotes : Z;
    p_downvotes : Z;
    p_score : Z;
    p_comments : list Comment;
    p_commentCount : Z;
    p_voters : option (gmap string Z)
  }.

(** An entry of [userData.comments]. *)
Record CommentMeta : Type :=
  mkCommentMeta { cm_postId : string; cm_commentId : string; cm_createdAt : Z }.

(** [userData] in POST /api/auth/register.  [u_password] is [None] once the
    field has been removed ([const { password: _, ...safeUser }]); [about]
    and [savedPosts] are absent until a route sets them. *)
Record User : Type :=
  mkUser {
    u_id : string;
    u_username : string;
    u_email : string;
    u_password : option string;
    u_createdAt : Z;
    u_karma : Z;
    u_posts : list string;
    u_comments : list CommentMeta;
    u_communities : list string;
    u_avatarUrl : string;
    u_about : option string;
    u_savedPosts : option (list string)
  }.

(** [communityData] in POST /api/r. *)
Record Community : Type :=
  mkCommunity {
    co_id : string;
    co_name : string;
    co_displayName : string;
    co_description : string;
    co_creator : string;
    co_createdAt : Z;
    co_members : list string;
    co_moderators : option (list string);
    co_memberCount : Z;
    co_posts : list string;
    co_iconUrl : string;
    co_bannerUrl : string
  }.

(** The entries of the three maps of the index. *)
Record UserRef : Type :=
  mkUserRef { ur_id : string; ur_file : string; ur_createdAt : Z; ur_avatarUrl : string }.

Record CommunityRef : Type :=
  mkCommunityRef {
    cr_id : string; cr_file : string; cr_createdAt : Z;
    cr_memberCount : Z; cr_iconUrl : string
  }.

Record PostRef : Type :=
  mkPostRef {
    pr_file : string; pr_community : string; pr_author : string;
    pr_createdAt : Z; pr_slug : string
  }.

(** index.json.  Every key may be missing from a stored index: [getIndex]
    tests each of the three maps and counts the keys. *)
Record IndexDoc : Type :=
  mkIndex {
    i_version : option string;
    i_lastUpdated : option Z;
    i_communities : option (list (string * CommunityRef));
    i_users : option (list (string * UserRef));
    i_posts : option (list (string * PostRef))
  }.

(** An object that holds none of the arrays, maps and counters of the typed
    documents, only string fields that the routes assign one by one: what
    becomes of the [{}] that stands for a blank or unparseable file when a
    route updates it and writes it back. *)
Record Partial : Type :=
  mkPartial {
    pa_avatarUrl : option string;
    pa_about : option string;
    pa_bannerUrl : option string;
    pa_iconUrl : option string;
    pa_description : option string;
    pa_title : option string;
    pa_content : option string;
    pa_author : option string
  }.

(** [{}] *)
Definition emptyObject : Partial := mkPartial None None None None None None None None.

(** A parsed JSON document. *)
Inductive Doc : Type :=
  | DPartial (o : Partial)
  | DIndex (i : IndexDoc)
  | DUser (u : User)
  | DCommunity (c : Community)
  | DPost (p : Post)
  | DConfig (retentionDays : Z).

(** What a stored blob holds: blank text, text that [JSON.parse] rejects, or
    the serialisation of a document. *)
Inductive Raw : Type :=
  | RBlank
  | RCorrupt
  | RJson (d : Doc).

(** A revision token.  The remote gives every blob it writes a token of
    its own; the model draws the tokens from a counter, [nextSha]. *)
Definition Sha := nat.

Record File : Type := mkFile { f_raw : Raw; f_sha : Sha }.

(** The remote repository, with the clock of the server and the paths on
    which the remote answers a read or a delete with a server error. *)
Record Store : Type :=
  mkStore {
    files : gmap string File;
    nextSha : Sha;
    clock : Z;
    getFault : gset string;
    deleteFault : gset string
  }.

Definition setFiles (fs : gmap string File) (s : Store) : Store :=
  {| files := fs; nextSha := nextSha s; clock := clock s;
     getFault := getFault s; deleteFault := deleteFault s |}.

Definition setClock (t : Z) (s : Store) : Store :=
  {| files := files s; nextSha := nextSha s; clock := t;
     getFault := getFault s; deleteFault := deleteFault s |}.

(** ** Exceptions and the monad of the handlers *)

Inductive Error : Type :=
  | HttpError (status : nat)
  | TypeError
  | JsError (message : string).

Inductive Res (A : Type) : Type :=
  | Ok (a : A)
  | Throw (e : Error).
Arguments Ok {A} a.
Arguments Throw {A} e.

Definition M (A : Type) : Type := Store → Res A * Store.

#[global] Instance M_ret : MRet M := λ A a s, (Ok a, s).

#[global] Instance M_bind : MBind M := λ A B k m s,
  match m s with
  | (Ok a, s') => k a s'
  | (Throw e, s') => (Throw e, s')
  end.

Definition throw {A} (e : Error) : M A := λ s, (Throw e, s).

(** [try { m } catch (e) { h e }] *)
Definition try_catch {A} (m : M A) (h : Error → M A) : M A := λ s,
  match m s with
  | (Ok a, s') => (Ok a, s')
  | (Throw e, s') => h e s'
  end.

(** [new Date()] *)
Definition now : M Z := λ s, (Ok (clock s), s).

(** ** The blob store *)

Definition DATA_PATH : string := "data".

(** Modelled from the spec: the remote blob store behind
    [octokit.repos.getContent] (section 4.1, [get]): the file and its
    revision, or a 404 when the path holds nothing. *)
Definition getContent (path : string) : M File := λ s,
  if decide (path ∈ getFault s) then (Throw (HttpError 500), s)
  else match files s !! path with
       | Some f => (Ok f, s)
       | None => (Throw (HttpError 404), s)
       end.

(** The store after a successful write of [data] at [path]: the document
    under the next revision. *)
Definition written (path : string) (data : Doc) (s : Store) : Store :=
  {| files := <[path := mkFile (RJson data) (nextSha s)]> (files s);
     nextSha := S (nextSha s); clock := clock s;
     getFault := getFault s; deleteFault := deleteFault s |}.

(** Modelled from the spec: [octokit.repos.createOrUpdateFileContents]
    (section 4.1, [put]): without a revision a create of a path that holds
    nothing, with a revision a compare-and-swap that fails with Conflict
    (409) when the stored revision differs.  The remote refuses (422) a
    write without revision to a path that holds a file. *)
Definition createOrUpdateFileContents
    (path : string) (data : Doc) (sha : option Sha) : M unit := λ s,
  match files s !! path, sha with
  | None, None => (Ok tt, written path data s)
  | Some f, Some h =>
      if decide (h = f_sha f) then (Ok tt, written path data s)
      else (Throw (HttpError 409), s)
  | Some _, None => (Throw (HttpError 422), s)
  | None, Some _ => (Throw (HttpError 409), s)
  end.

(** Modelled from the spec: [octokit.repos.deleteFile] (section 4.1,
    [delete]). *)
Definition deleteFile (path : string) (sha : Sha) : M unit := λ s,
  if decide (path ∈ deleteFault s) then (Throw (HttpError 500), s)
  else match files s !! path with
       | None => (Throw (HttpError 404), s)
       | Some f =>
           if decide (sha = f_sha f)
           then (Ok tt, setFiles (delete path (files s)) s)
           else (Throw (HttpError 409), s)
       end.

(** The result of [getFileFromGitHub]: [{ content, sha }]. *)
Record FileResult : Type := mkResult { content : Doc; sha : option Sha }.

(** The payload as [getFileFromGitHub] parses it; both transports (inline
    content and the blob API for large files) deliver the same text. *)
Definition parse (r : Raw) : Doc :=
  match r with
  | RBlank => DPartial emptyObject
  | RCorrupt => DPartial emptyObject
  | RJson d => d
  end.

Definition getFileFromGitHub (filePath : string) : M (option FileResult) :=
  try_catch
    (f ← getContent filePath;
     mret (Some (mkResult (parse (f_raw f)) (Some (f_sha f)))))
    (λ error,
       match error with
       | HttpError 404 => mret None
       | _ => throw error
       end).

Definition saveFileToGitHub
    (filePath : string) (data : Doc) (existingSha : option Sha) : M unit :=
  createOrUpdateFileContents filePath data existingSha.

(** ** The index *)

Definition indexPath : string := DATA_PATH ++ "/index.json".

(** [Object.keys(content).length === 0]: a document of the typed kinds
    always has keys; an index has the keys that are present. *)
Definition isEmptyObject (d : Doc) : bool :=
  match d with
  | DPartial o =>
      bool_decide (pa_avatarUrl o = None) && bool_decide (pa_about o = None)
      && bool_decide (pa_bannerUrl o = None) && bool_decide (pa_iconUrl o = None)
      && bool_decide (pa_description o = None) && bool_decide (pa_title o = None)
      && bool_decide (pa_content o = None) && bool_decide (pa_author o = None)
  | DIndex i =>
      bool_decide (i_version i = None) && bool_decide (i_lastUpdated i = None)
      && bool_decide (i_communities i = None) && bool_decide (i_users i = None)
      && bool_decide (i_posts i = None)
  | DUser _ | DCommunity _ | DPost _ | DConfig _ => false
  end.

Definition initialIndex (lastUpdated : Z) : IndexDoc :=
  {| i_version := Some "1.0.0";
     i_lastUpdated := Some lastUpdated;
     i_communities := Some [];
     i_users := Some [];
     i_posts := Some [] |}.

(** [if (!content.users) content.users = {}] and its two siblings. *)
Definition ensureMaps (i : IndexDoc) : IndexDoc :=
  {| i_version := i_version i;
     i_lastUpdated := i_lastUpdated i;
     i_communities := Some (default [] (i_communities i));
     i_users := Some (default [] (i_users i));
     i_posts := Some (default [] (i_posts i)) |}.

(** The maps of an index that [getIndex] returned. *)
Definition users (i : IndexDoc) : list (string * UserRef) := default [] (i_users i).
Definition communities (i : IndexDoc) : list (string * CommunityRef) :=
  default [] (i_communities i).
Definition posts (i : IndexDoc) : list (string * PostRef) := default [] (i_posts i).

Definition setUsers (m : list (string * UserRef)) (i : IndexDoc) : IndexDoc :=
  {| i_version := i_version i; i_lastUpdated := i_lastUpdated i;
     i_communities := i_communities i; i_users := Some m; i_posts := i_posts i |}.
Definition setCommunities (m : list (string * CommunityRef)) (i : IndexDoc) : IndexDoc :=
  {| i_version := i_version i; i_lastUpdated := i_lastUpdated i;
     i_communities := Some m; i_users := i_users i; i_posts := i_posts i |}.
Definition setPosts (m : list (string * PostRef)) (i : IndexDoc) : IndexDoc :=
  {| i_version := i_version i; i_lastUpdated := i_lastUpdated i;
     i_communities := i_communities i; i_users := i_users i; i_posts := Some m |}.
Definition setLastUpdated (t : Z) (i : IndexDoc) : IndexDoc :=
  {| i_version := i_version i; i_lastUpdated := Some t;
     i_communities := i_communities i; i_users := i_users i; i_posts := i_posts i |}.

(** [getIndex]: [{ content, sha }] with the content read as an index. *)
Definition getIndex : M (IndexDoc * option Sha) :=
  result ← getFileFromGitHub indexPath;
  let repair (sha : option Sha) : M (IndexDoc * option Sha) :=
    t ← now;
    saveFileToGitHub indexPath (DIndex (initialIndex t)) sha;;
    mret (initialIndex t, None) in
  match result with
  | None => repair None
  | Some r =>
      if isEmptyObject (content r) then repair (sha r)
      else match content r with
           | DIndex i => mret (ensureMaps i, sha r)
           | _ => throw TypeError
           end
  end.

(** [updateIndex] *)
Definition updateIndex (indexData : IndexDoc) (sha : option Sha) : M unit :=
  t ← now;
  saveFileToGitHub indexPath (DIndex (setLastUpdated t indexData)) sha.

(** ** The direct path, with the index as fallback *)

Definition directPath (type id : string) : string :=
  DATA_PATH ++ "/" ++ type ++ "/" ++ id ++ ".json".

Definition getDirectWithFallback
    (type id : string) (fallbackFn : option (M (option FileResult)))
  : M (option FileResult) :=
  try_catch
    (result ← getFileFromGitHub (directPath type id);
     match result with
     | Some r =>
         if negb (isEmptyObject (content r)) then mret result
         else throw (JsError "Direct fetch returned empty")
     | None => throw (JsError "Direct fetch returned empty")
     end)
    (λ error,
       match fallbackFn with
       | Some fallback => fallback
       | None => throw error
       end).

(** The fallback closures of GET /api/u/:username, GET /api/r/:community
    and GET /api/r/:community/posts/:postId: the file that the index lists
    for the key, or [null]. *)
Definition indexedFile (type id : string) (i : IndexDoc) : option string :=
  if decide (type = "users") then ur_file <$> JsObj.get id (users i)
  else if decide (type = "communities") then cr_file <$> JsObj.get id (communities i)
  else pr_file <$> JsObj.get id (posts i).

Definition indexFallback (type id : string) : M (option FileResult) :=
  '(index, _) ← getIndex;
  match indexedFile type id index with
  | None => mret None
  | Some file => getFileFromGitHub (DATA_PATH ++ "/" ++ file)
  end.

(** ** Profanity filter *)

Definition BAD_WORDS : list string :=
  ["fuck"; "shit"; "bitch"; "asshole"; "cunt"; "nigger"; "faggot"; "whore"; "slut";
   "bastard"; "dick"; "pussy"; "cock"; "suck"; "porn"; "xxx"; "sex"; "tit"; "boob";
   "penis"; "vagina"; "damn"; "hell"; "piss"; "crap"; "dyke"; "kike"; "chink"; "spic";
   "retard"].

Definition lowerAscii (c : ascii) : ascii :=
  let n := nat_of_ascii c in
  if (Nat.leb 65 n && Nat.leb n 90)%bool then ascii_of_nat (n + 32) else c.

Fixpoint toLowerCase (s : string) : string :=
  match s with
  | EmptyString => EmptyString
  | String c s' => String (lowerAscii c) (toLowerCase s')
  end.

(** [s.includes(w)] *)
Fixpoint includes (s w : string) : bool :=
  String.prefix w s
  || match s with
     | EmptyString => false
     | String _ s' => includes s' w
     end.

Definition hasProfanity (text : string) : bool :=
  if decide (text = "") then false
  else existsb (includes (toLowerCase text)) BAD_WORDS.

(** ** Responses *)

(** A post of a listing: [{ ...safePost, authorAvatar, communityIcon }]. *)
Record PostView : Type :=
  mkPostView { pv_post : Doc; pv_authorAvatar : string; pv_communityIcon : string }.

(** A comment of a profile:
    [{ ...foundComment, postId, postTitle, community, authorAvatar }]. *)
Record CommentView : Type :=
  mkCommentView {
    cv_comment : Comment; cv_postId : string; cv_postTitle : string;
    cv_community : string; cv_authorAvatar : string
  }.

Inductive Body : Type :=
  | BError (error : string)                 (* [{ error: '...' }] *)
  | BException (e : Error)                  (* [{ error: error.message }] *)
  | BSuccess                                (* [{ success: true }] *)
  | BDoc (d : Doc)                          (* a document *)
  | BUser (user : Doc)                      (* [{ user: safeUser }] *)
  | BProfile (safeUser : Doc) (posts : list PostView) (comments : list CommentView)
  | BVotes (upvotes downvotes score : Z)    (* [{ upvotes, downvotes, score }] *)
  | BComment (c : Comment).

Record Response : Type := mkResponse { status : nat; body : Body }.

(** [res.status(n).json(b)] as the value of a handler. *)
Definition respond (n : nat) (b : Body) : M Response := mret (mkResponse n b).

(** A route: [try { ... } catch (error) { res.status(500).json(...) }]. *)
Definition route (handler : M Response) (s : Store) : Response * Store :=
  match handler s with
  | (Ok r, s') => (r, s')
  | (Throw e, s') => (mkResponse 500 (BException e), s')
  end.

(** [const { password: _, ...safeUser } = userData] *)
Definition withoutPassword (u : User) : User :=
  {| u_id := u_id u; u_username := u_username u; u_email := u_email u;
     u_password := None; u_createdAt := u_createdAt u; u_karma := u_karma u;
     u_posts := u_posts u; u_comments := u_comments u;
     u_communities := u_communities u; u_avatarUrl := u_avatarUrl u;
     u_about := u_about u; u_savedPosts := u_savedPosts u |}.

(** [const { voters, ...safePost } = postResult.content] *)
Definition withoutVoters (p : Post) : Post :=
  {| p_id := p_id p; p_slug := p_slug p; p_title := p_title p;
     p_content := p_content p; p_type := p_type p; p_author := p_author p;
     p_community := p_community p; p_createdAt := p_createdAt p;
     p_upvotes := p_upvotes p; p_downvotes := p_downvotes p;
     p_score := p_score p; p_comments := p_comments p;
     p_commentCount := p_commentCount p; p_voters := None |}.

(** [index.users[name]?.avatarUrl || ''], where a missing name is the key
    ["undefined"]. *)
Definition avatarOf (index : IndexDoc) (name : option string) : string :=
  match JsObj.get (default "undefined" name) (users index) with
  | Some r => ur_avatarUrl r
  | None => ""
  end.

Definition iconOf (index : IndexDoc) (name : option string) : string :=
  match JsObj.get (default "undefined" name) (communities index) with
  | Some r => cr_iconUrl r
  | None => ""
  end.

(** ** User routes *)

Definition setUserProfile (avatarUrl about : option string) (u : User) : User :=
  {| u_id := u_id u; u_username := u_username u; u_email := u_email u;
     u_password := u_password u; u_createdAt := u_createdAt u; u_karma := u_karma u;
     u_posts := u_posts u; u_comments := u_comments u;
     u_communities := u_communities u;
     u_avatarUrl := default (u_avatarUrl u) avatarUrl;
     u_about := match about with Some a => Some a | None => u_about u end;
     u_savedPosts := u_savedPosts u |}.

Definition setPartialProfile (avatarUrl about : option string) (o : Partial) : Partial :=
  {| pa_avatarUrl := match avatarUrl with Some a => Some a | None => pa_avatarUrl o end;
     pa_about := match about with Some a => Some a | None => pa_about o end;
     pa_bannerUrl := pa_bannerUrl o; pa_iconUrl := pa_iconUrl o;
     pa_description := pa_description o; pa_title := pa_title o;
     pa_content := pa_content o; pa_author := pa_author o |}.

Definition setRefAvatar (avatarUrl : string) (r : UserRef) : UserRef :=
  {| ur_id := ur_id r; ur_file := ur_file r; ur_createdAt := ur_createdAt r;
     ur_avatarUrl := avatarUrl |}.

Section Auth.
(** bcryptjs: [bcrypt.hash(password, salt)] and [bcrypt.compare(password, hash)]. *)
Variable hash : string → string → string.
Variable compare : string → string → bool.

(** POST /api/auth/register.  [salt] is the result of [bcrypt.genSalt(10)]
    and [userId] that of [uuidv4()]. *)
Definition register (username password email salt userId : string)
  : Store → Response * Store :=
  route (
    if bool_decide (username = "") || bool_decide (password = "") then
      respond 400 (BError "Username and password required")
    else if hasProfanity username then
      respond 400 (BError "Username contains inappropriate language")
    else
      '(index, indexSha) ← getIndex;
      if JsObj.get username (users index) is Some _ then
        respond 400 (BError "Username already exists")
      else
        let hashedPassword := hash password salt in
        createdAt ← now;
        let userData :=
          {| u_id := userId; u_username := username; u_email := email;
             u_password := Some hashedPassword; u_createdAt := createdAt;
             u_karma := 0; u_posts := []; u_comments := []; u_communities := [];
             u_avatarUrl := ""; u_about := None; u_savedPosts := None |} in
        let userFilePath := DATA_PATH ++ "/users/" ++ username ++ ".json" in
        saveFileToGitHub userFilePath (DUser userData) None;;
        let index :=
          setUsers (JsObj.set username
                      (mkUserRef userId ("users/" ++ username ++ ".json") createdAt "")
                      (users index)) index in
        updateIndex index indexSha;;
        respond 201 (BUser (DUser (withoutPassword userData)))).

(** POST /api/auth/login *)
Definition login (username password : string) : Store → Response * Store :=
  route (
    if bool_decide (username = "") || bool_decide (password = "") then
      respond 400 (BError "Username and password required")
    else
      '(index, _) ← getIndex;
      match JsObj.get username (users index) with
      | None => respond 401 (BError "Invalid credentials")
      | Some ref =>
          let userFilePath := DATA_PATH ++ "/" ++ ur_file ref in
          userResult ← getFileFromGitHub userFilePath;
          match userResult with
          | None => respond 401 (BError "Invalid credentials")
          | Some r =>
              match content r with
              | DUser userData =>
                  match u_password userData with
                  | Some stored =>
                      if compare password stored
                      then respond 200 (BUser (DUser (withoutPassword userData)))
                      else respond 401 (BError "Invalid credentials")
                  | None => throw (JsError "Illegal arguments: string, undefined")
                  end
              | _ => throw (JsError "Illegal arguments: string, undefined")
              end
          end
      end).
End Auth.

(** [findComment] of GET /api/u/:username: the first comment with the
    identifier, in document order. *)
Fixpoint findCommentIn (commentId : string) (c : Comment) : option Comment :=
  if decide (c_id c = commentId) then Some c
  else (fix findComment (comments : list Comment) : option Comment :=
          match comments with
          | [] => None
          | c' :: rest =>
              match findCommentIn commentId c' with
              | Some found => Some found
              | None => findComment rest
              end
          end) (c_replies c).

Fixpoint findComment (commentId : string) (comments : list Comment) : option Comment :=
  match comments with
  | [] => None
  | c :: rest =>
      match findCommentIn commentId c with
      | Some found => Some found
      | None => findComment commentId rest
      end
  end.

(** The loop that fills [populatedPosts], and [posts] of GET
    /api/r/:community/posts: the document of the listed file, whatever its
    kind, without its [voters], with the avatar and the icon of its
    [author] and [community] fields. *)
Fixpoint populatePosts (index : IndexDoc) (postIds : list string) : M (list PostView) :=
  match postIds with
  | [] => mret []
  | postId :: rest =>
      match JsObj.get postId (posts index) with
      | None => populatePosts index rest
      | Some ref =>
          postResult ← getFileFromGitHub (DATA_PATH ++ "/" ++ pr_file ref);
          match postResult with
          | None => populatePosts index rest
          | Some r =>
              view ← match content r with
                     | DPost p =>
                         mret (mkPostView (DPost (withoutVoters p))
                                 (avatarOf index (Some (p_author p)))
                                 (iconOf index (Some (p_community p))))
                     | DPartial o =>
                         mret (mkPostView (DPartial o)
                                 (avatarOf index (pa_author o)) (iconOf index None))
                     | d => mret (mkPostView d (avatarOf index None) (iconOf index None))
                     end;
              views ← populatePosts index rest;
              mret (view :: views)
          end
      end
  end.

(** The loop that fills [populatedComments].  The [comments] of a user
    document are references without [id] and [replies], among which
    [findComment] finds nothing; a document without [comments] is not
    iterable. *)
Fixpoint populateComments (index : IndexDoc) (metas : list CommentMeta)
  : M (list CommentView) :=
  match metas with
  | [] => mret []
  | commMeta :: rest =>
      match JsObj.get (cm_postId commMeta) (posts index) with
      | None => populateComments index rest
      | Some ref =>
          postResult ← getFileFromGitHub (DATA_PATH ++ "/" ++ pr_file ref);
          match postResult with
          | None => populateComments index rest
          | Some r =>
              match content r with
              | DPost post =>
                  match findComment (cm_commentId commMeta) (p_comments post) with
                  | Some found =>
                      views ← populateComments index rest;
                      mret (mkCommentView found (p_id post) (p_title post)
                              (p_community post)
                              (avatarOf index (Some (c_author found))) :: views)
                  | None => populateComments index rest
                  end
              | DUser _ => populateComments index rest
              | _ => throw TypeError
              end
          end
      end
  end.

(** GET /api/u/:username *)
Definition getUser (username : string) : Store → Response * Store :=
  route (
    if hasProfanity username then respond 404 (BError "User not found")
    else
      userResult ← getDirectWithFallback "users" username
                     (Some (indexFallback "users" username));
      match userResult with
      | None => respond 404 (BError "User not found")
      | Some r =>
          '(index, _) ← getIndex;
          match content r with
          | DUser userData =>
              let safeUser := withoutPassword userData in
              populatedPosts ← populatePosts index (u_posts safeUser);
              populatedComments ← populateComments index (take 20 (u_comments safeUser));
              respond 200 (BProfile (DUser safeUser) populatedPosts populatedComments)
          | DPartial o => respond 200 (BProfile (DPartial o) [] [])
          | _ => throw TypeError
          end
      end).

(** PUT /api/u/:username *)
Definition updateUserProfile (username : string) (avatarUrl about : option string)
  : Store → Response * Store :=
  route (
    '(index, indexSha) ← getIndex;
    match JsObj.get username (users index) with
    | None => respond 404 (BError "User not found")
    | Some ref =>
        let userFilePath := DATA_PATH ++ "/" ++ ur_file ref in
        userResult ← getFileFromGitHub userFilePath;
        match userResult with
        | None => throw TypeError
        | Some r =>
            let index :=
              match avatarUrl with
              | Some a => setUsers (JsObj.set username (setRefAvatar a ref) (users index)) index
              | None => index
              end in
            let finish (userData safeUser : Doc) : M Response :=
              saveFileToGitHub userFilePath userData (sha r);;
              (if avatarUrl is Some _ then updateIndex index indexSha else mret tt);;
              respond 200 (BDoc safeUser) in
            match content r with
            | DUser userData =>
                let userData := setUserProfile avatarUrl about userData in
                finish (DUser userData) (DUser (withoutPassword userData))
            | DPartial o =>
                let o := setPartialProfile avatarUrl about o in
                finish (DPartial o) (DPartial o)
            | _ => throw TypeError
            end
        end
    end).

(** ** Community routes *)

(** GET /api/r/:community *)
Definition getCommunity (community : string) : Store → Response * Store :=
  route (
    if hasProfanity community then respond 404 (BError "Community not found")
    else
      communityResult ← getDirectWithFallback "communities" community
                          (Some (indexFallback "communities" community));
      match communityResult with
      | None => respond 404 (BError "Community not found")
      | Some r => respond 200 (BDoc (content r))
      end).

(** The body of PUT /api/r/:community. *)
Record CommunityUpdate : Type :=
  mkCommunityUpdate {
    cu_bannerUrl : option string;
    cu_iconUrl : option string;
    cu_description : option string;
    cu_user : option string
  }.

Definition applyCommunityUpdate (u : CommunityUpdate) (c : Community) : Community :=
  {| co_id := co_id c; co_name := co_name c; co_displayName := co_displayName c;
     co_description := default (co_description c) (cu_description u);
     co_creator := co_creator c; co_createdAt := co_createdAt c;
     co_members := co_members c; co_moderators := co_moderators c;
     co_memberCount := co_memberCount c; co_posts := co_posts c;
     co_iconUrl := default (co_iconUrl c) (cu_iconUrl u);
     co_bannerUrl := default (co_bannerUrl c) (cu_bannerUrl u) |}.

Definition applyPartialUpdate (u : CommunityUpdate) (o : Partial) : Partial :=
  {| pa_avatarUrl := pa_avatarUrl o; pa_about := pa_about o;
     pa_bannerUrl := match cu_bannerUrl u with Some b => Some b | None => pa_bannerUrl o end;
     pa_iconUrl := match cu_iconUrl u with Some i => Some i | None => pa_iconUrl o end;
     pa_description :=
       match cu_description u with Some d => Some d | None => pa_description o end;
     pa_title := pa_title o; pa_content := pa_content o; pa_author := pa_author o |}.

Definition setRefIcon (iconUrl : string) (r : CommunityRef) : CommunityRef :=
  {| cr_id := cr_id r; cr_file := cr_file r; cr_createdAt := cr_createdAt r;
     cr_memberCount := cr_memberCount r; cr_iconUrl := iconUrl |}.

(** [isMod || isCreator || isAdmin] *)
Definition mayEdit (communityData : Doc) (user : option string) : bool :=
  let isAdmin := bool_decide (user = Some "timco") in
  match communityData with
  | DCommunity c =>
      let isMod :=
        match co_moderators c, user with
        | Some moderators, Some u => bool_decide (u ∈ moderators)
        | _, _ => false
        end in
      let isCreator := bool_decide (Some (co_creator c) = user) in
      isMod || isCreator || isAdmin
  | _ => bool_decide (user = None) || isAdmin
  end.

(** What PUT /api/r/:community holds when it reaches its first write: the
    documents it read and changed in memory, with their revisions. *)
Record HeldUpdate : Type :=
  mkHeld {
    h_path : string;
    h_communityData : Doc;
    h_sha : option Sha;
    h_index : IndexDoc;
    h_indexSha : option Sha;
    h_iconChanged : bool
  }.

(** PUT /api/r/:community up to the first write: an answer, or the state
    held across [await saveFileToGitHub]. *)
Definition updateCommunityRead (community : string) (u : CommunityUpdate)
  : M (Response + HeldUpdate) :=
  '(index, indexSha) ← getIndex;
  match JsObj.get community (communities index) with
  | None => mret (inl (mkResponse 404 (BError "Community not found")))
  | Some ref =>
      let communityFilePath := DATA_PATH ++ "/" ++ cr_file ref in
      communityResult ← getFileFromGitHub communityFilePath;
      match communityResult with
      | None => throw TypeError
      | Some r =>
          if negb (mayEdit (content r) (cu_user u)) then
            mret (inl (mkResponse 403 (BError "Only moderators can edit community")))
          else
            let index :=
              match cu_iconUrl u with
              | Some i =>
                  setCommunities
                    (JsObj.set community (setRefIcon i ref) (communities index)) index
              | None => index
              end in
            let hold (communityData : Doc) : M (Response + HeldUpdate) :=
              mret (inr (mkHeld communityFilePath communityData (sha r) index indexSha
                           (bool_decide (is_Some (cu_iconUrl u))))) in
            match content r with
            | DCommunity c => hold (DCommunity (applyCommunityUpdate u c))
            | DPartial o => hold (DPartial (applyPartialUpdate u o))
            | _ => throw TypeError
            end
      end
  end.

(** PUT /api/r/:community from its first write on. *)
Definition updateCommunityWrite (h : HeldUpdate) : M Response :=
  saveFileToGitHub (h_path h) (h_communityData h) (h_sha h);;
  (if h_iconChanged h then updateIndex (h_index h) (h_indexSha h) else mret tt);;
  respond 200 (BDoc (h_communityData h)).

Definition updateCommunityResume (x : Response + HeldUpdate) : M Response :=
  match x with
  | inl response => mret response
  | inr held => updateCommunityWrite held
  end.

(** PUT /api/r/:community *)
Definition updateCommunity (community : string) (u : CommunityUpdate)
  : Store → Response * Store :=
  route (x ← updateCommunityRead community u; updateCommunityResume x).

(** Two requests PUT /api/r/:community in flight together: both read before
    either writes, then the first writes, then the second. *)
Definition updateCommunityRace (community : string) (a b : CommunityUpdate) (s : Store)
  : Response * Response * Store :=
  let '(xa, s1) := updateCommunityRead community a s in
  let '(xb, s2) := updateCommunityRead community b s1 in
  let resume (x : Res (Response + HeldUpdate)) : M Response :=
    match x with
    | Ok y => updateCommunityResume y
    | Throw e => throw e
    end in
  let '(ra, s3) := route (resume xa) s2 in
  let '(rb, s4) := route (resume xb) s3 in
  (ra, rb, s4).

(** DELETE /api/r/:community *)
Definition deleteCommunity (community username : string) : Store → Response * Store :=
  route (
    if negb (bool_decide (username = "timco")) then
      respond 403 (BError "Permission denied. Only super admin can delete communities.")
    else
      '(index, indexSha) ← getIndex;
      match JsObj.get community (communities index) with
      | None => respond 404 (BError "Community not found")
      | Some _ =>
          let index := setCommunities (JsObj.del community (communities index)) index in
          updateIndex index indexSha;;
          respond 200 BSuccess
      end).

(** ** Post routes *)

Definition isSlugChar (c : ascii) : bool :=
  let n := nat_of_ascii c in
  (Nat.leb 97 n && Nat.leb n 122 || Nat.leb 48 n && Nat.leb n 57)%bool.

(** [.replace(/[^a-z0-9]+/g, '_')]; [inRun] tells that the previous
    character was replaced already. *)
Fixpoint replaceRuns (inRun : bool) (s : string) : string :=
  match s with
  | EmptyString => EmptyString
  | String c s' =>
      if isSlugChar c then String c (replaceRuns false s')
      else if inRun then replaceRuns true s'
      else String "_"%char (replaceRuns true s')
  end.

Definition slice0 (n : nat) (s : string) : string := String.substring 0 n s.

Definition makeSlug (title postId : string) : string :=
  slice0 40 (replaceRuns false (toLowerCase title)) ++ "_" ++ slice0 8 postId.

(** [postData] of POST /api/r/:community/posts. *)
Definition newPost (postId title content type author community : string) (createdAt : Z)
  : Post :=
  {| p_id := postId; p_slug := makeSlug title postId; p_title := title;
     p_content := content; p_type := type; p_author := author;
     p_community := community; p_createdAt := createdAt;
     p_upvotes := 1; p_downvotes := 0; p_score := 1;
     p_comments := []; p_commentCount := 0;
     p_voters := Some {[ author := 1 ]} |}.

Definition unshiftCommunityPost (postId : string) (c : Community) : Community :=
  {| co_id := co_id c; co_name := co_name c; co_displayName := co_displayName c;
     co_description := co_description c; co_creator := co_creator c;
     co_createdAt := co_createdAt c; co_members := co_members c;
     co_moderators := co_moderators c; co_memberCount := co_memberCount c;
     co_posts := postId :: co_posts c;
     co_iconUrl := co_iconUrl c; co_bannerUrl := co_bannerUrl c |}.

Definition setUserLists (postIds : list string) (comments : list CommentMeta) (u : User)
  : User :=
  {| u_id := u_id u; u_username := u_username u; u_email := u_email u;
     u_password := u_password u; u_createdAt := u_createdAt u; u_karma := u_karma u;
     u_posts := postIds; u_comments := comments;
     u_communities := u_communities u; u_avatarUrl := u_avatarUrl u;
     u_about := u_about u; u_savedPosts := u_savedPosts u |}.

(** [if (index.users[author]) { ... }]: the update of the author's document
    that ends POST /api/r/:community/posts and POST /api/posts/:postId/comments. *)
Definition updateAuthor (index : IndexDoc) (author : string) (change : User → User)
  : M unit :=
  match JsObj.get author (users index) with
  | None => mret tt
  | Some ref =>
      let userFilePath := DATA_PATH ++ "/" ++ ur_file ref in
      userResult ← getFileFromGitHub userFilePath;
      match userResult with
      | None => mret tt
      | Some r =>
          match content r with
          | DUser userData => saveFileToGitHub userFilePath (DUser (change userData)) (sha r)
          | _ => throw TypeError
          end
      end
  end.

(** POST /api/r/:community/posts.  [postId] is the result of [uuidv4()];
    [type] is ["text"] when the body has none. *)
Definition createPost (community title content author type postId : string)
  : Store → Response * Store :=
  route (
    if bool_decide (title = "") || bool_decide (author = "") then
      respond 400 (BError "Title and author required")
    else
      '(index, indexSha) ← getIndex;
      match JsObj.get community (communities index) with
      | None => respond 404 (BError "Community not found")
      | Some communityRef =>
          createdAt ← now;
          let postData := newPost postId title content type author community createdAt in
          let postFilePath := DATA_PATH ++ "/posts/" ++ postId ++ ".json" in
          saveFileToGitHub postFilePath (DPost postData) None;;
          let communityFilePath := DATA_PATH ++ "/" ++ cr_file communityRef in
          communityResult ← getFileFromGitHub communityFilePath;
          match communityResult with
          | Some (mkResult (DCommunity communityData) communitySha) =>
              saveFileToGitHub communityFilePath
                (DCommunity (unshiftCommunityPost postId communityData)) communitySha;;
              let index :=
                setPosts (JsObj.set postId
                            (mkPostRef ("posts/" ++ postId ++ ".json") community author
                               createdAt (p_slug postData))
                            (posts index)) index in
              updateIndex index indexSha;;
              updateAuthor index author
                (λ u, setUserLists (postId :: u_posts u) (u_comments u) u);;
              respond 201 (BDoc (DPost postData))
          | _ => throw TypeError
          end
      end).

(** ** Votes *)

Definition setVotes (upvotes downvotes : Z) (voters : gmap string Z) (p : Post) : Post :=
  {| p_id := p_id p; p_slug := p_slug p; p_title := p_title p;
     p_content := p_content p; p_type := p_type p; p_author := p_author p;
     p_community := p_community p; p_createdAt := p_createdAt p;
     p_upvotes := upvotes; p_downvotes := downvotes;
     p_score := upvotes - downvotes;
     p_comments := p_comments p; p_commentCount := p_commentCount p;
     p_voters := Some voters |}.

(** [postData.voters[username] = vote] on the ledger, an object that
    [JSON.parse] made.  The name ["__proto__"], when the ledger has no own
    key of that name, is the accessor of [Object.prototype]: the
    assignment of a number to it sets no key. *)
Definition recordVote (username : string) (vote : Z) (voters : gmap string Z)
  : gmap string Z :=
  if bool_decide (username = "__proto__") && bool_decide (voters !! username = None)
  then voters
  else <[username := vote]> voters.

(** The in-memory update of POST /api/posts/:postId/vote, from
    [previousVote] to the assignment of [score].  [previousVote] is
    compared with 1 and -1 only: 0 stands for every other value, among
    them the member of [Object.prototype] that the ledger inherits under a
    name that is no own key of it. *)
Definition applyVote (username : string) (vote : Z) (voters : gmap string Z) (postData : Post)
  : Post :=
  let previousVote := default 0 (voters !! username) in
  let upvotes := p_upvotes postData in
  let downvotes := p_downvotes postData in
  let upvotes := if bool_decide (previousVote = 1) then upvotes - 1 else upvotes in
  let downvotes := if bool_decide (previousVote = -1) then downvotes - 1 else downvotes in
  let upvotes := if bool_decide (vote = 1) then upvotes + 1 else upvotes in
  let downvotes := if bool_decide (vote = -1) then downvotes + 1 else downvotes in
  setVotes upvotes downvotes (recordVote username vote voters) postData.

(** POST /api/posts/:postId/vote.  [vote] is [None] when the body has none. *)
Definition vote (postId username : string) (vote : option Z) : Store → Response * Store :=
  route (
    match vote with
    | None => respond 400 (BError "Username and vote required")
    | Some vote =>
        if bool_decide (username = "") then
          respond 400 (BError "Username and vote required")
        else
          '(index, _) ← getIndex;
          match JsObj.get postId (posts index) with
          | None => respond 404 (BError "Post not found")
          | Some ref =>
              let postFilePath := DATA_PATH ++ "/" ++ pr_file ref in
              postResult ← getFileFromGitHub postFilePath;
              match postResult with
              | Some (mkResult (DPost postData) postSha) =>
                  match p_voters postData with
                  | Some voters =>
                      let postData := applyVote username vote voters postData in
                      saveFileToGitHub postFilePath (DPost postData) postSha;;
                      respond 200 (BVotes (p_upvotes postData) (p_downvotes postData)
                                     (p_score postData))
                  | None => throw TypeError
                  end
              | _ => throw TypeError
              end
          end
    end).

(** ** Comments *)

Definition MAX_NESTING_DEPTH : nat := 10.

Definition setReplies (replies : list Comment) (c : Comment) : Comment :=
  {| c_id := c_id c; c_content := c_content c; c_author := c_author c;
     c_parentId := c_parentId c; c_createdAt := c_createdAt c;
     c_upvotes := c_upvotes c; c_downvotes := c_downvotes c;
     c_score := c_score c; c_replies := replies |}.

(** [for (const c of comments)] of [addReply]: the list with its first
    element that [visit] changes replaced, or [None] when the loop runs to
    its end (the [return false] after it). *)
Definition firstChanged (visit : Comment → option Comment)
  : list Comment → option (list Comment) :=
  fix loop (comments : list Comment) : option (list Comment) :=
    match comments with
    | [] => None
    | c :: rest =>
        match visit c with
        | Some c' => Some (c' :: rest)
        | None => cons c <$> loop rest
        end
    end.

Section AddReply.
Variable parentId : string.
Variable comment : Comment.

(** One turn of the loop of [addReply(comments, depth)] on the element [c]:
    the element after [c.replies.push(comment)] somewhere in it, or [None]
    when neither [if] of the loop body returns. *)
Fixpoint addReplyAt (depth : nat) (c : Comment) : option Comment :=
  if decide (c_id c = parentId) then Some (setReplies (c_replies c ++ [comment]) c)
  else if bool_decide (c_replies c = []) then None
  else if Nat.ltb MAX_NESTING_DEPTH (S depth) then None
  else (λ replies, setReplies replies c)
         <$> firstChanged (addReplyAt (S depth)) (c_replies c).

(** [addReply(comments, depth)]: [Some] of the forest after the push when
    the function returns [true], [None] when it returns [false]. *)
Definition addReply (comments : list Comment) (depth : nat) : option (list Comment) :=
  if Nat.ltb MAX_NESTING_DEPTH depth then None
  else firstChanged (addReplyAt depth) comments.
End AddReply.

Definition setComments (comments : list Comment) (commentCount : Z) (p : Post) : Post :=
  {| p_id := p_id p; p_slug := p_slug p; p_title := p_title p;
     p_content := p_content p; p_type := p_type p; p_author := p_author p;
     p_community := p_community p; p_createdAt := p_createdAt p;
     p_upvotes := p_upvotes p; p_downvotes := p_downvotes p;
     p_score := p_score p; p_comments := comments;
     p_commentCount := commentCount; p_voters := p_voters p |}.

(** [if (parentId)]: [null] and the empty string are falsy. *)
Definition truthy (parentId : option string) : bool :=
  match parentId with
  | Some id => negb (bool_decide (id = ""))
  | None => false
  end.

(** [comment] of POST /api/posts/:postId/comments. *)
Definition newComment (commentId content author : string) (parentId : option string)
    (createdAt : Z) : Comment :=
  {| c_id := commentId; c_content := content; c_author := author;
     c_parentId := parentId; c_createdAt := createdAt;
     c_upvotes := 1; c_downvotes := 0; c_score := 1; c_replies := [] |}.

(** The in-memory update of POST /api/posts/:postId/comments, from
    [if (parentId)] to [postData.commentCount++]: [None] is the answer 404
    of a parent that [addReply] does not find. *)
Definition insertComment (postData : Post) (comment : Comment) (parentId : option string)
  : option Post :=
  if truthy parentId then
    match addReply (default "" parentId) comment (p_comments postData) 0 with
    | Some comments => Some (setComments comments (p_commentCount postData + 1) postData)
    | None => None
    end
  else
    Some (setComments (p_comments postData ++ [comment])
            (p_commentCount postData + 1) postData).

(** POST /api/posts/:postId/comments.  [commentId] is the result of
    [uuidv4()]. *)
Definition addComment (postId content author : string) (parentId : option string)
    (commentId : string) : Store → Response * Store :=
  route (
    if bool_decide (content = "") || bool_decide (author = "") then
      respond 400 (BError "Content and author required")
    else
      '(index, _) ← getIndex;
      match JsObj.get postId (posts index) with
      | None => respond 404 (BError "Post not found")
      | Some ref =>
          let postFilePath := DATA_PATH ++ "/" ++ pr_file ref in
          postResult ← getFileFromGitHub postFilePath;
          match postResult with
          | Some (mkResult (DPost postData) postSha) =>
              createdAt ← now;
              let comment := newComment commentId content author parentId createdAt in
              match insertComment postData comment parentId with
              | None =>
                  respond 404
                    (BError "Parent comment not found or max nesting depth exceeded")
              | Some postData =>
                  saveFileToGitHub postFilePath (DPost postData) postSha;;
                  updateAuthor index author
                    (λ u, setUserLists (u_posts u)
                            (mkCommentMeta postId commentId createdAt :: u_comments u) u);;
                  respond 201 (BComment comment)
              end
          | _ => throw TypeError
          end
      end).

(** ** Retention *)

Definition configPath : string := DATA_PATH ++ "/config.json".

(** [getConfig], read at [retentionDays]: [None] is a configuration that
    has no such field, whose product with a number is [NaN]. *)
Definition getConfig : M (option Z) :=
  result ← getFileFromGitHub configPath;
  match result with
  | None => mret (Some 20)
  | Some r =>
      if isEmptyObject (content r) then mret (Some 20)
      else match content r with
           | DConfig retentionDays => mret (Some retentionDays)
           | DPartial _ => mret None
           | _ => throw TypeError
           end
  end.

(** [deleteFileFromGitHub] *)
Definition deleteFileFromGitHub (filePath : string) : M unit :=
  try_catch
    (result ← getFileFromGitHub filePath;
     match result with
     | None => mret tt
     | Some r =>
         match sha r with
         | None => mret tt
         | Some h => deleteFile filePath h
         end
     end)
    (λ _, mret tt).

(** [age > retentionMs], false when [retentionMs] is [NaN]. *)
Definition expired (today : Z) (retentionMs : option Z) (meta : PostRef) : bool :=
  match retentionMs with
  | Some ms => bool_decide (ms < today - pr_createdAt meta)
  | None => false
  end.

(** [!post.comments || post.comments.length === 0] on the fetched content,
    whatever document it is: only posts and users have a [comments]. *)
Definition hasNoComments (d : Doc) : bool :=
  match d with
  | DPost post => bool_decide (p_comments post = [])
  | DUser user => bool_decide (u_comments user = [])
  | DPartial _ | DIndex _ | DCommunity _ | DConfig _ => true
  end.

Definition inactive (filePath : string) : M bool :=
  try_catch
    (postResult ← getFileFromGitHub filePath;
     match postResult with
     | None => mret false
     | Some r => mret (hasNoComments (content r))
     end)
    (λ _, mret false).

(** The first loop of [cleanupOldPosts]: [postsToDelete]. *)
Fixpoint identify (today : Z) (retentionMs : option Z) (entries : list (string * PostRef))
  : M (list string) :=
  match entries with
  | [] => mret []
  | (postId, meta) :: rest =>
      hit ← (if expired today retentionMs meta
             then inactive (DATA_PATH ++ "/" ++ pr_file meta)
             else mret false);
      others ← identify today retentionMs rest;
      mret (if hit : bool then postId :: others else others)
  end.

(** The second loop of [cleanupOldPosts], over [postsToDelete.slice(0, 5)]:
    the index after the deletions, and [changed]. *)
Fixpoint execute (postIds : list string) (index : IndexDoc) (changed : bool)
  : M (IndexDoc * bool) :=
  match postIds with
  | [] => mret (index, changed)
  | postId :: rest =>
      match JsObj.get postId (posts index) with
      | Some meta =>
          deleteFileFromGitHub (DATA_PATH ++ "/" ++ pr_file meta);;
          execute rest (setPosts (JsObj.del postId (posts index)) index) true
      | None => execute rest index changed
      end
  end.

(** [cleanupOldPosts] *)
Definition cleanupOldPosts : M unit :=
  try_catch
    (retentionDays ← getConfig;
     '(index, indexSha) ← getIndex;
     today ← now;
     let retentionMs := (λ days, days * 24 * 60 * 60 * 1000) <$> retentionDays in
     postsToDelete ← identify today retentionMs (posts index);
     '(index, changed) ← execute (take 5 postsToDelete) index false;
     if changed : bool then updateIndex index indexSha else mret tt)
    (λ _, mret tt).

(** ** Vocabulary of the statements *)

(** What [getFileFromGitHub] answers on a store, which it leaves as it is. *)
Definition fetched (s : Store) (path : string) : Res (option FileResult) :=
  if decide (path ∈ getFault s) then Throw (HttpError 500)
  else match files s !! path with
       | Some f => Ok (Some (mkResult (parse (f_raw f)) (Some (f_sha f))))
       | None => Ok None
       end.

(** The document that a store holds at a path. *)
Definition stored (s : Store) (path : string) : option Doc :=
  (λ f, parse (f_raw f)) <$> files s !! path.

(** The requests of a sequence, one after the other: for each request the
    store it found, its answer and the store it left. *)
Fixpoint trace {Call : Type} (run : Call → Store → Response * Store)
    (calls : list Call) (s : Store) : list (Store * Call * Response * Store) :=
  match calls with
  | [] => []
  | call :: rest =>
      let '(response, s') := run call s in
      (s, call, response, s') :: trace run rest s'
  end.

(** The store that a sequence of requests leaves. *)
Definition runAll {Call : Type} (run : Call → Store → Response * Store)
    (calls : list Call) (s : Store) : Store :=
  fold_left (λ s call, (run call s).2) calls s.

(** A request POST /api/posts/:postId/vote. *)
Record VoteCall : Type :=
  mkVoteCall { vc_postId : string; vc_username : string; vc_vote : option Z }.

Definition runVote (call : VoteCall) : Store → Response * Store :=
  vote (vc_postId call) (vc_username call) (vc_vote call).

(** [1] when the vote is the given one, [0] otherwise. *)
Definition oneIf (b : bool) : Z := if b then 1 else 0.

(** [AtDepth id d comments]: the forest has a comment with the identifier
    [id] at depth [d], the comments of the list itself being at depth 0. *)
Inductive AtDepth (id : string) : nat → list Comment → Prop :=
  | AtDepth_here c rest :
      c_id c = id → AtDepth id 0 (c :: rest)
  | AtDepth_below c rest d :
      AtDepth id d (c_replies c) → AtDepth id (S d) (c :: rest)
  | AtDepth_next c rest d :
      AtDepth id d rest → AtDepth id d (c :: rest).

(** [Pushed id comment depth comments comments']: [comments'] is [comments]
    with [comment] appended to the replies of the first comment, in
    document order, that has the identifier [id] and lies at most
    [MAX_NESTING_DEPTH] deep, when the list [comments] itself lies at depth
    [depth]. *)
Inductive Pushed (id : string) (comment : Comment)
  : nat → list Comment → list Comment → Prop :=
  | Pushed_here depth c rest :
      (depth ≤ MAX_NESTING_DEPTH)%nat →
      c_id c = id →
      Pushed id comment depth (c :: rest)
        (setReplies (c_replies c ++ [comment]) c :: rest)
  | Pushed_below depth c rest replies' :
      c_id c ≠ id →
      Pushed id comment (S depth) (c_replies c) replies' →
      Pushed id comment depth (c :: rest) (setReplies replies' c :: rest)
  | Pushed_next depth c rest rest' :
      c_id c ≠ id →
      (∀ d, AtDepth id d (c_replies c) → (MAX_NESTING_DEPTH < S depth + d)%nat) →
      Pushed id comment depth rest rest' →
      Pushed id comment depth (c :: rest) (c :: rest').

(** What one turn of the loop does with its element. *)
Definition turnSpec (parentId : string) (comment c : Comment) : Prop :=
  ∀ depth, (depth ≤ MAX_NESTING_DEPTH)%nat →
    match addReplyAt parentId comment depth c with
    | Some c' =>
        (c_id c = parentId ∧ c' = setReplies (c_replies c ++ [comment]) c)
        ∨ (c_id c ≠ parentId
           ∧ ∃ replies', Pushed parentId comment (S depth) (c_replies c) replies'
                         ∧ c' = setReplies replies' c)
    | None =>
        c_id c ≠ parentId
        ∧ ∀ d, AtDepth parentId d (c_replies c) → (MAX_NESTING_DEPTH < S depth + d)%nat
    end.

(** What the loop does with its list. *)
Definition loopSpec (parentId : string) (comment : Comment) (comments : list Comment)
  : Prop :=
  ∀ depth, (depth ≤ MAX_NESTING_DEPTH)%nat →
    match firstChanged (addReplyAt parentId comment depth) comments with
    | Some comments' => Pushed parentId comment depth comments comments'
    | None => ∀ d, AtDepth parentId d comments → (MAX_NESTING_DEPTH < depth + d)%nat
    end.

(** A request POST /api/posts/:postId/comments on one post. *)
Record CommentCall : Type :=
  mkCommentCall {
    cc_content : string; cc_author : string;
    cc_parentId : option string; cc_commentId : string
  }.

Definition runComment (postId : string) (call : CommentCall) : Store → Response * Store :=
  addComment postId (cc_content call) (cc_author call) (cc_parentId call)
    (cc_commentId call).

(** The revisions of the stored files are older than the next one that the
    remote will give out. *)
Definition freshRevisions (s : Store) : Prop :=
  map_Forall (λ _ f, (f_sha f < nextSha s)%nat) (files s).

(** The [password] field of a document. *)
Definition docPassword (d : Doc) : option string :=
  match d with
  | DUser u => u_password u
  | _ => None
  end.

(** The [password] fields of the documents of a response body. *)
Definition passwordsIn (b : Body) : list string :=
  match b with
  | BDoc d | BUser d => option_list (docPassword d)
  | BProfile d posts _ =>
      option_list (docPassword d)
      ++ flat_map (λ view, option_list (docPassword (pv_post view))) posts
  | BError _ | BException _ | BSuccess | BVotes _ _ _ | BComment _ => []
  end.

(** The path of the document of a listed post. *)
Definition postPath (meta : PostRef) : string := DATA_PATH ++ "/" ++ pr_file meta.

(** The age of a listed post exceeds the retention, in days of 86400000 ms. *)
Definition aged (today retentionDays : Z) (meta : PostRef) : bool :=
  bool_decide (retentionDays * 86400000 < today - pr_createdAt meta).

(** The document of a listed post can be fetched and has no comment. *)
Definition emptyForest (s : Store) (meta : PostRef) : bool :=
  match fetched s (postPath meta) with
  | Ok (Some r) => hasNoComments (content r)
  | _ => false
  end.

(** The file that the index lists for a post holds a post, what is left of
    a post whose file was blank or unparseable, or nothing. *)
Definition holdsPost (s : Store) (meta : PostRef) : bool :=
  match stored s (postPath meta) with
  | None | Some (DPost _) | Some (DPartial _) => true
  | Some _ => false
  end.

Definition postRefsSound (s : Store) (i : IndexDoc) : bool :=
  forallb (λ entry, holdsPost s entry.2) (posts i).

(** The same of the index that the store holds, if it holds one. *)
Definition postFilesSound (s : Store) : bool :=
  match stored s indexPath with
  | Some (DIndex i) => postRefsSound s i
  | _ => true
  end.

Definition candidate (s : Store) (retentionDays : Z) (entry : string * PostRef) : bool :=
  aged (clock s) retentionDays entry.2 && emptyForest s entry.2.

(** The batch of one run: the first five candidates, in index order. *)
Definition doomed (s : Store) (retentionDays : Z) (i : IndexDoc) : list (string * PostRef) :=
  take 5 (filter (λ entry, candidate s retentionDays entry = true) (posts i)).

(** The store after [deleteFileFromGitHub]. *)
Definition removed (path : string) (s : Store) : Store :=
  if decide (path ∈ getFault s) then s
  else match files s !! path with
       | None => s
       | Some _ =>
           if decide (path ∈ deleteFault s) then s
           else setFiles (delete path (files s)) s
       end.

Definition removeAll (paths : list string) (s : Store) : Store :=
  foldl (λ s path, removed path s) s paths.

(** The index after [delete index.posts[postId]] for each identifier. *)
Definition dropPosts (postIds : list string) (index : IndexDoc) : IndexDoc :=
  foldl (λ index postId, setPosts (JsObj.del postId (posts index)) index) index postIds.

(** The store that a run of the retention job leaves. *)
Definition swept (s : Store) (retentionDays : Z) (i : IndexDoc) : Store :=
  let batch := doomed s retentionDays i in
  if decide (batch = []) then s
  else written indexPath
         (DIndex (setLastUpdated (clock s) (dropPosts batch.*1 (ensureMaps i))))
         (removeAll (postPath <$> batch.*2) s).

(** ** Sample stores *)

(** A repository that holds nothing yet, at time 1000. *)
Definition emptyStore : Store := mkStore ∅ 0%nat 1000 ∅ ∅.

Definition aliceRef : UserRef := mkUserRef "u-1" "users/alice.json" 10 "".

(** An index document with its users only: no [communities], no [posts]. *)
Definition usersOnlyIndex : IndexDoc :=
  {| i_version := Some "1.0.0"; i_lastUpdated := Some 10;
     i_communities := None; i_users := Some [("alice", aliceRef)]; i_posts := None |}.

Definition usersOnlyStore : Store :=
  mkStore {[ indexPath := mkFile (RJson (DIndex usersOnlyIndex)) 7%nat ]} 8%nat 1000 ∅ ∅.

(** A repository whose index.json is blank. *)
Definition blankIndexStore : Store :=
  mkStore {[ indexPath := mkFile RBlank 7%nat ]} 8%nat 1000 ∅ ∅.


Definition gaming : Community :=
  {| co_id := "c-1"; co_name := "gaming"; co_displayName := "Gaming";
     co_description := ""; co_creator := "alice"; co_createdAt := 20;
     co_members := ["alice"]; co_moderators := Some ["alice"]; co_memberCount := 1;
     co_posts := []; co_iconUrl := ""; co_bannerUrl := "" |}.

Definition gamingRef : CommunityRef := mkCommunityRef "c-1" "communities/gaming.json" 20 1 "".

Definition alice : User :=
  {| u_id := "u-1"; u_username := "alice"; u_email := "alice@example.org";
     u_password := Some "$2a$10$hash-of-alice"; u_createdAt := 10; u_karma := 0;
     u_posts := []; u_comments := []; u_communities := []; u_avatarUrl := "";
     u_about := None; u_savedPosts := None |}.

Definition siteIndex : IndexDoc :=
  {| i_version := Some "1.0.0"; i_lastUpdated := Some 20;
     i_communities := Some [("gaming", gamingRef)];
     i_users := Some [("alice", aliceRef)];
     i_posts := Some [] |}.

(** A site with the user alice and her community gaming. *)
Definition siteStore : Store :=
  mkStore
    (<[ indexPath := mkFile (RJson (DIndex siteIndex)) 3%nat ]>
     (<[ "data/users/alice.json" := mkFile (RJson (DUser alice)) 1%nat ]>
      (<[ "data/communities/gaming.json" := mkFile (RJson (DCommunity gaming)) 2%nat ]> ∅)))
    4%nat 1000 ∅ ∅.

(** The same site after the file of alice at its direct path was blanked
    and her document moved to another file that the index lists. *)
Definition movedIndex : IndexDoc :=
  setUsers [("alice", mkUserRef "u-1" "users/legacy-alice.json" 10 "")] siteIndex.

Definition movedStore : Store :=
  mkStore
    (<[ indexPath := mkFile (RJson (DIndex movedIndex)) 3%nat ]>
     (<[ "data/users/alice.json" := mkFile RBlank 1%nat ]>
      (<[ "data/users/legacy-alice.json" := mkFile (RJson (DUser alice)) 5%nat ]> ∅)))
    6%nat 1000 ∅ ∅.


(** The same site with an index that lists the file of alice as a post,
    which the document of alice names among her posts. *)
Definition strayRef : PostRef := mkPostRef "users/alice.json" "gaming" "alice" 0 "stray_1".

Definition strayIndex : IndexDoc := setPosts [("stray", strayRef)] siteIndex.

Definition strayAlice : User := setUserLists ["stray"] [] alice.

Definition strayStore : Store :=
  mkStore
    (<[ indexPath := mkFile (RJson (DIndex strayIndex)) 3%nat ]>
     (<[ "data/users/alice.json" := mkFile (RJson (DUser strayAlice)) 1%nat ]>
      (<[ "data/communities/gaming.json" := mkFile (RJson (DCommunity gaming)) 2%nat ]> ∅)))
    4%nat 1000 ∅ ∅.

(** The site after alice posted "Hello World" in gaming. *)
Definition helloId : string := "0a1b2c3d-0000-4000-8000-000000000001".

Definition helloStore : Store :=
  (createPost "gaming" "Hello World" "" "alice" "text" helloId siteStore).2.


Definition helloRef : PostRef :=
  mkPostRef ("posts/" ++ helloId ++ ".json") "gaming" "alice" 1000 "hello_world_0a1b2c3d".

Definition helloIndex : IndexDoc :=
  setLastUpdated 1000 (setPosts [(helloId, helloRef)] siteIndex).

Definition helloPost : Post := newPost helloId "Hello World" "" "text" "alice" "gaming" 1000.


(** A thread in which each comment is the only reply to the one before:
    the comment named by the [n]-th identifier lies at depth [n]. *)
Fixpoint thread (ids : list string) : list Comment :=
  match ids with
  | [] => []
  | id :: rest => [mkComment id "..." "alice" None 0 1 0 1 (thread rest)]
  end.

Definition deepThread : list Comment :=
  thread ["d0"; "d1"; "d2"; "d3"; "d4"; "d5"; "d6"; "d7"; "d8"; "d9"; "d10"; "d11"].

Definition deepPost : Post := setComments deepThread 12 helloPost.

Definition reply : Comment := newComment "r-1" "me too" "alice" (Some "d10") 2000.


(** The site with the deep thread under the post of alice. *)
Definition deepStore : Store :=
  written (DATA_PATH ++ "/" ++ pr_file helloRef) (DPost deepPost) helloStore.

(** Three comments on one post: a top-level one, a reply to it, and a reply
    to the reply. *)
Definition threeCalls : list CommentCall :=
  [mkCommentCall "first" "alice" None "k-1";
   mkCommentCall "second" "alice" (Some "k-1") "k-2";
   mkCommentCall "third" "alice" (Some "k-2") "k-3"].


(** Two moderator edits of gaming: a new description, and a new banner. *)
Definition newDescription : CommunityUpdate :=
  mkCommunityUpdate None None (Some "Games and more") (Some "alice").

Definition newBanner : CommunityUpdate :=
  mkCommunityUpdate (Some "banner.png") None None (Some "alice").

Definition gamingHeld (u : CommunityUpdate) : HeldUpdate :=
  mkHeld "data/communities/gaming.json" (DCommunity (applyCommunityUpdate u gaming))
    (Some 2%nat) siteIndex (Some 3%nat) false.

(** A moderator edit of gaming that changes its icon, and what the request
    holds when it reaches its first write on the sample site. *)
Definition newIcon : CommunityUpdate :=
  mkCommunityUpdate None (Some "icon.png") None (Some "alice").

Definition iconHeld : HeldUpdate :=
  mkHeld "data/communities/gaming.json" (DCommunity (applyCommunityUpdate newIcon gaming))
    (Some 2%nat) (setCommunities [("gaming", setRefIcon "icon.png" gamingRef)] siteIndex)
    (Some 3%nat) true.


(** A stand-in for bcrypt on the sample site. *)
Definition sampleHash (password salt : string) : string := salt ++ password.

Definition sampleCompare (password stored : string) : bool :=
  bool_decide (stored = "$2a$10$hash-of-" ++ password).


(** A site on day 30: two posts of day 0, one of them with a comment, and a
    post of day 29; no config.json, hence a retention of 20 days. *)
Definition day : Z := 86400000.

Definition quietRef : PostRef := mkPostRef "posts/quiet.json" "gaming" "alice" 0 "quiet_1".
Definition busyRef : PostRef := mkPostRef "posts/busy.json" "gaming" "alice" 0 "busy_2".
Definition recentRef : PostRef :=
  mkPostRef "posts/recent.json" "gaming" "alice" (29 * day) "recent_3".

Definition quietPost : Post := newPost "quiet" "Quiet" "" "text" "alice" "gaming" 0.
Definition busyPost : Post :=
  setComments [newComment "k-1" "hi" "alice" None 5] 1
    (newPost "busy" "Busy" "" "text" "alice" "gaming" 0).
Definition recentPost : Post :=
  newPost "recent" "Recent" "" "text" "alice" "gaming" (29 * day).

Definition agedIndex : IndexDoc :=
  setPosts [("quiet", quietRef); ("busy", busyRef); ("recent", recentRef)] siteIndex.

Definition agedGaming : Community :=
  unshiftCommunityPost "recent"
    (unshiftCommunityPost "busy" (unshiftCommunityPost "quiet" gaming)).

Definition agedStore : Store :=
  mkStore
    (<[ indexPath := mkFile (RJson (DIndex agedIndex)) 3%nat ]>
     (<[ "data/communities/gaming.json" := mkFile (RJson (DCommunity agedGaming)) 2%nat ]>
      (<[ "data/posts/quiet.json" := mkFile (RJson (DPost quietPost)) 4%nat ]>
       (<[ "data/posts/busy.json" := mkFile (RJson (DPost busyPost)) 5%nat ]>
        (<[ "data/posts/recent.json" := mkFile (RJson (DPost recentPost)) 6%nat ]> ∅)))))
    7%nat (30 * day) ∅ ∅.

(** ** Proof automation *)

(** Unfolds the operations of the monad. *)
Ltac unfold_M :=
  unfold respond, throw, try_catch, now, mbind, M_bind, mret, M_ret in *.

(** Splits a route into its paths and closes the paths that end in a
    fixed answer. *)
Ltac route_cases :=
  unfold_M;
  repeat (case_match; simplify_eq/=; try done);
  intros; simplify_eq/=; try done.


(** The same site with two more posts of day 0 without comments, listed
    before the others: the fetch of the first fails, and so does the delete
    of the second. *)
Definition hiddenRef : PostRef := mkPostRef "posts/hidden.json" "gaming" "alice" 0 "hidden_4".
Definition stuckRef : PostRef := mkPostRef "posts/stuck.json" "gaming" "alice" 0 "stuck_5".

Definition faultyIndex : IndexDoc :=
  setPosts [("hidden", hiddenRef); ("stuck", stuckRef); ("quiet", quietRef);
            ("busy", busyRef); ("recent", recentRef)] siteIndex.

Definition faultyStore : Store :=
  mkStore
    (<[ indexPath := mkFile (RJson (DIndex faultyIndex)) 3%nat ]>
     (<[ "data/posts/hidden.json" := mkFile (RJson (DPost quietPost)) 7%nat ]>
      (<[ "data/posts/stuck.json" := mkFile (RJson (DPost quietPost)) 8%nat ]>
       (<[ "data/posts/quiet.json" := mkFile (RJson (DPost quietPost)) 4%nat ]>
        (<[ "data/posts/busy.json" := mkFile (RJson (DPost busyPost)) 5%nat ]>
         (<[ "data/posts/recent.json" := mkFile (RJson (DPost recentPost)) 6%nat ]> ∅))))))
    9%nat (30 * day) {[ "data/posts/hidden.json" ]} {[ "data/posts/stuck.json" ]}.

(** ** The vote buttons of a post (client/src/components/Post.js) *)

(** The state of the component [Post]: [score] and [userVote].  A score
    [None] is a score that was set to [undefined]. *)
Record PostState : Type := mkPostState { st_score : option Z; st_userVote : Z }.

(** [useState(post.score)] and [useState(0)] *)
Definition initialState (post : Post) : PostState :=
  mkPostState (Some (p_score post)) 0.

(** [response.ok] *)
Definition ok (r : Response) : bool :=
  (Nat.leb 200 (status r) && Nat.leb (status r) 299)%bool.

(** [data.score] of the body of an answer. *)
Definition scoreOf (b : Body) : option Z :=
  match b with
  | BVotes _ _ score => Some score
  | BDoc (DPost p) => Some (p_score p)
  | BComment c => Some (c_score c)
  | _ => None
  end.

(** [fetch(`/api/posts/${post.id}/vote`, ...)] with the body
    [{ username: user.username, vote: newVote }]. *)
Definition fetchVote (postId username : string) (newVote : Z)
  : Store → Response * Store :=
  vote postId username (Some newVote).

(** [handleVote(vote)]; [user] is the name of the user of the session,
    [None] when nobody is logged in. *)
Definition handleVote (user : option string) (postId : string) (vote : Z)
    (st : PostState) (s : Store) : PostState * Store :=
  match user with
  | None => (st, s)
  | Some username =>
      let newVote := if bool_decide (st_userVote st = vote) then 0 else vote in
      let '(response, s') := fetchVote postId username newVote s in
      if ok response then (mkPostState (scoreOf (body response)) newVote, s')
      else (st, s')
  end.

(** ** Further vocabulary *)

(** The number of entries [v] of a ledger. *)
Definition countVotes (v : Z) (voters : gmap string Z) : Z :=
  Z.of_nat (size (filter (λ entry : string * Z, entry.2 = v) voters)).

(** The counters of a post are those of its ledger. *)
Definition ledgerSound (p : Post) : Prop :=
  ∃ voters,
    p_voters p = Some voters
    ∧ p_upvotes p = countVotes 1 voters
    ∧ p_downvotes p = countVotes (-1) voters
    ∧ p_score p = p_upvotes p - p_downvotes p.

(** The comments of a tree, and of a forest, in document order. *)
Fixpoint nodes (c : Comment) : list Comment :=
  c :: flat_map nodes (c_replies c).

Definition forest (comments : list Comment) : list Comment :=
  flat_map nodes comments.

(** No comment of the forest lies deeper than [n]. *)
Definition depthWithin (n : nat) (comments : list Comment) : Prop :=
  ∀ id d, AtDepth id d comments → (d ≤ n)%nat.

(** A comment without its replies. *)
Definition withoutReplies (c : Comment) : Comment := setReplies [] c.

(** The store after [getIndex] replaced a missing or empty index. *)
Definition repaired (s : Store) : Store :=
  written indexPath (DIndex (initialIndex (clock s))) s.

(** ** Further routes *)

(** The bodies of the answers that [Body] does not have. *)
Inductive Payload : Type :=
  | PError (error : string)                 (* [{ error: '...' }] *)
  | PException (e : Error)                  (* [{ error: error.message }] *)
  | PJoined (memberCount : Z)               (* [{ success: true, memberCount }] *)
  | PPosts (posts : list PostView)          (* an array of posts *)
  | PConfig (retentionDays : Z).            (* [{ success: true, config }] *)

Record Reply : Type := mkReply { r_status : nat; r_body : Payload }.

Definition answerWith (n : nat) (b : Payload) : M Reply := mret (mkReply n b).

(** A route that answers with a [Reply]. *)
Definition serve (handler : M Reply) (s : Store) : Reply * Store :=
  match handler s with
  | (Ok r, s') => (r, s')
  | (Throw e, s') => (mkReply 500 (PException e), s')
  end.

(** [.replace(/[^a-z0-9_]/g, '')] *)
Definition isNameChar (c : ascii) : bool := isSlugChar c || Ascii.eqb c "_".

Fixpoint sanitize (s : string) : string :=
  match s with
  | EmptyString => EmptyString
  | String c s' => if isNameChar c then String c (sanitize s') else sanitize s'
  end.

(** [communityData] of POST /api/r. *)
Definition newCommunity (communityId communityName name description creator : string)
    (createdAt : Z) : Community :=
  {| co_id := communityId; co_name := communityName; co_displayName := name;
     co_description := description; co_creator := creator; co_createdAt := createdAt;
     co_members := [creator]; co_moderators := Some [creator]; co_memberCount := 1;
     co_posts := []; co_iconUrl := ""; co_bannerUrl := "" |}.

(** POST /api/r.  [description] is the empty string when the body has
    none, and [communityId] the result of [uuidv4()]. *)
Definition createCommunity (name description creator communityId : string)
  : Store → Response * Store :=
  route (
    if bool_decide (name = "") || bool_decide (creator = "") then
      respond 400 (BError "Community name and creator required")
    else if hasProfanity name || hasProfanity description then
      respond 400
        (BError "Community name or description contains inappropriate language")
    else
      '(index, indexSha) ← getIndex;
      let communityName := sanitize (toLowerCase name) in
      if Nat.ltb (String.length communityName) 3 then
        respond 400
          (BError ("Community name must be at least 3 characters after sanitization "
                   ++ "(only letters, numbers, and underscores allowed)"))
      else if Nat.ltb 21 (String.length communityName) then
        respond 400 (BError "Community name cannot exceed 21 characters")
      else if JsObj.get communityName (communities index) is Some _ then
        respond 400 (BError "Community already exists")
      else
        createdAt ← now;
        let communityData :=
          newCommunity communityId communityName name description creator createdAt in
        let communityFilePath := DATA_PATH ++ "/communities/" ++ communityName ++ ".json" in
        saveFileToGitHub communityFilePath (DCommunity communityData) None;;
        let index :=
          setCommunities
            (JsObj.set communityName
               (mkCommunityRef communityId ("communities/" ++ communityName ++ ".json")
                  createdAt 1 "")
               (communities index)) index in
        updateIndex index indexSha;;
        respond 201 (BDoc (DCommunity communityData))).

(** [communityData.members.push(username)] and
    [communityData.memberCount = communityData.members.length] *)
Definition pushMember (username : string) (c : Community) : Community :=
  {| co_id := co_id c; co_name := co_name c; co_displayName := co_displayName c;
     co_description := co_description c; co_creator := co_creator c;
     co_createdAt := co_createdAt c;
     co_members := co_members c ++ [username];
     co_moderators := co_moderators c;
     co_memberCount := Z.of_nat (List.length (co_members c ++ [username]));
     co_posts := co_posts c;
     co_iconUrl := co_iconUrl c; co_bannerUrl := co_bannerUrl c |}.

Definition setRefMemberCount (memberCount : Z) (r : CommunityRef) : CommunityRef :=
  {| cr_id := cr_id r; cr_file := cr_file r; cr_createdAt := cr_createdAt r;
     cr_memberCount := memberCount; cr_iconUrl := cr_iconUrl r |}.

(** POST /api/r/:community/join *)
Definition joinCommunity (community username : string) : Store → Reply * Store :=
  serve (
    if bool_decide (username = "") then answerWith 400 (PError "Username required")
    else
      '(index, indexSha) ← getIndex;
      match JsObj.get community (communities index) with
      | None => answerWith 404 (PError "Community not found")
      | Some ref =>
          let communityFilePath := DATA_PATH ++ "/" ++ cr_file ref in
          communityResult ← getFileFromGitHub communityFilePath;
          match communityResult with
          | Some (mkResult (DCommunity communityData) communitySha) =>
              if bool_decide (username ∈ co_members communityData) then
                answerWith 200 (PJoined (co_memberCount communityData))
              else
                let communityData := pushMember username communityData in
                saveFileToGitHub communityFilePath (DCommunity communityData)
                  communitySha;;
                let index :=
                  setCommunities
                    (JsObj.set community
                       (setRefMemberCount (co_memberCount communityData) ref)
                       (communities index)) index in
                updateIndex index indexSha;;
                answerWith 200 (PJoined (co_memberCount communityData))
          | _ => throw TypeError
          end
      end).

(** The tombstone of DELETE /api/posts/:postId. *)
Definition setDeleted (p : Post) : Post :=
  {| p_id := p_id p; p_slug := p_slug p; p_title := "[Deleted by User/Mod]";
     p_content := "[removed]"; p_type := p_type p; p_author := "[deleted]";
     p_community := p_community p; p_createdAt := p_createdAt p;
     p_upvotes := p_upvotes p; p_downvotes := p_downvotes p;
     p_score := p_score p; p_comments := p_comments p;
     p_commentCount := p_commentCount p; p_voters := p_voters p |}.

Definition setPartialDeleted (o : Partial) : Partial :=
  {| pa_avatarUrl := pa_avatarUrl o; pa_about := pa_about o;
     pa_bannerUrl := pa_bannerUrl o; pa_iconUrl := pa_iconUrl o;
     pa_description := pa_description o;
     pa_title := Some "[Deleted by User/Mod]"; pa_content := Some "[removed]";
     pa_author := Some "[deleted]" |}.

(** [communityData.moderators && communityData.moderators.includes(username)] *)
Definition isModerator (communityData : Doc) (username : option string) : bool :=
  match communityData, username with
  | DCommunity c, Some u =>
      match co_moderators c with
      | Some moderators => bool_decide (u ∈ moderators)
      | None => false
      end
  | _, _ => false
  end.

(** DELETE /api/posts/:postId.  [username] is [None] when the body has
    none.  A document of another kind than a post at the path of a post is
    outside the model. *)
Definition deletePost (postId : string) (username : option string)
  : Store → Response * Store :=
  route (
    '(index, _) ← getIndex;
    match JsObj.get postId (posts index) with
    | None => respond 404 (BError "Post not found")
    | Some ref =>
        let postFilePath := DATA_PATH ++ "/" ++ pr_file ref in
        postResult ← getFileFromGitHub postFilePath;
        match postResult with
        | None => throw TypeError
        | Some r =>
            let finish (author community : option string) (deleted : Doc) : M Response :=
              isAllowed ←
                (if bool_decide (username = Some "timco") then mret true
                 else if bool_decide (author = username) then mret true
                 else
                   match JsObj.get (default "undefined" community) (communities index) with
                   | None => throw TypeError
                   | Some communityRef =>
                       communityResult ←
                         getFileFromGitHub (DATA_PATH ++ "/" ++ cr_file communityRef);
                       match communityResult with
                       | None => throw TypeError
                       | Some c => mret (isModerator (content c) username)
                       end
                   end);
              if negb isAllowed then respond 403 (BError "Permission denied")
              else
                saveFileToGitHub postFilePath deleted (sha r);;
                respond 200 BSuccess in
            match content r with
            | DPost p => finish (Some (p_author p)) (Some (p_community p)) (DPost (setDeleted p))
            | DPartial o => finish (pa_author o) None (DPartial (setPartialDeleted o))
            | _ => throw TypeError
            end
        end
    end).

(** [array.slice(0, end)], where [end] is [None] for [NaN]. *)
Definition slice0To {A : Type} (end_ : option Z) (l : list A) : list A :=
  match end_ with
  | None => []
  | Some n =>
      if bool_decide (n < 0) then take (Z.to_nat (Z.of_nat (List.length l) + n)) l
      else take (Z.to_nat n) l
  end.

(** [array.sort(compare)] for a comparator that orders the elements
    consistently: the stable sort.  [insertSorted] puts an element in front
    of a sorted list. *)
Fixpoint insertSorted {A : Type} (compare : A → A → Z) (x : A) (l : list A) : list A :=
  match l with
  | [] => [x]
  | y :: l' =>
      if Z.leb (compare x y) 0 then x :: y :: l'
      else y :: insertSorted compare x l'
  end.

Definition sort {A : Type} (compare : A → A → Z) (l : list A) : list A :=
  foldr (insertSorted compare) [] l.

(** [post.score] and [post.upvotes - post.downvotes] of a listed post;
    [None] is [NaN], the value for an object without these fields. *)
Definition viewScore (view : PostView) : option Z :=
  match pv_post view with
  | DPost p => Some (p_score p)
  | _ => None
  end.

Definition viewBalance (view : PostView) : option Z :=
  match pv_post view with
  | DPost p => Some (p_upvotes p - p_downvotes p)
  | _ => None
  end.

(** [(a, b) => key(b) - key(a)]; a comparator that returns [NaN] counts as
    one that returns 0. *)
Definition descending (key : PostView → option Z) (a b : PostView) : Z :=
  match key b, key a with
  | Some kb, Some ka => kb - ka
  | _, _ => 0
  end.

(** The sort of GET /api/r/:community/posts. *)
Definition sortPosts (order : string) (posts : list PostView) : list PostView :=
  if bool_decide (order = "hot") then sort (descending viewScore) posts
  else if bool_decide (order = "top") then sort (descending viewBalance) posts
  else posts.

(** GET /api/r/:community/posts.  [order] is the query parameter [sort],
    ["new"] when the query has none, and [limit] is [parseInt(limit)]:
    25 when the query has none, [None] for [NaN]. *)
Definition getCommunityPosts (community order : string) (limit : option Z)
  : Store → Reply * Store :=
  serve (
    '(index, _) ← getIndex;
    match JsObj.get community (communities index) with
    | None => answerWith 404 (PError "Community not found")
    | Some ref =>
        let communityFilePath := DATA_PATH ++ "/" ++ cr_file ref in
        communityResult ← getFileFromGitHub communityFilePath;
        match communityResult with
        | Some (mkResult (DCommunity communityData) _) =>
            posts ← populatePosts index (slice0To limit (co_posts communityData));
            answerWith 200 (PPosts (sortPosts order posts))
        | _ => throw TypeError
        end
    end).

(** [saveConfig] *)
Definition saveConfig (retentionDays : Z) : M unit :=
  saveFileToGitHub configPath (DConfig retentionDays) None.

Section Admin.
(** [parseInt] on an integer number: the integer that the numeral
    [String(n)] starts with.  It is [n] as long as the numeral has no
    exponent, and the digits in front of the point or the exponent from
    there on: [parseInt(1e21)] is 1. *)
Variable parseInt : Z → Z.

(** POST /api/admin/config.  [retentionDays] is the number of the body,
    an integer as the admin panel sends it, [None] when the body has none
    or [null].  The handler starts [cleanupOldPosts()] and does not wait
    for it; no other request runs meanwhile, and the job catches its own
    errors. *)
Definition adminConfig (username : option string) (retentionDays : option Z)
  : Store → Reply * Store :=
  serve (
    if negb (bool_decide (username = Some "timco")) then
      answerWith 403 (PError "Permission denied. Only super admin can change config.")
    else
      match retentionDays with
      | None => answerWith 400 (PError "Valid retentionDays required")
      | Some days =>
          if bool_decide (days = 0) then
            answerWith 400 (PError "Valid retentionDays required")
          else
            let config := parseInt days in
            saveConfig config;;
            cleanupOldPosts;;
            answerWith 200 (PConfig config)
      end).
End Admin.

(** [parseInt] on the integers whose numeral has no exponent, those below
    10^21 in absolute value, and on the numbers from there on whose numeral
    starts with the digit 1 followed by the point or the exponent, as
    [1e+21]: the function at which the statements are evaluated. *)
Definition parseIntOf (n : Z) : Z :=
  if bool_decide (Z.abs n < 10 ^ 21) then n else Z.sgn n.

(** The toggle of POST /api/users/:username/save/:postId on
    [userData.savedPosts]: [saved] and the list after the toggle. *)
Fixpoint removeFirst (postId : string) (savedPosts : list string) : list string :=
  match savedPosts with
  | [] => []
  | x :: rest => if decide (x = postId) then rest else x :: removeFirst postId rest
  end.

Definition toggleSaved (postId : string) (savedPosts : option (list string))
  : bool * list string :=
  let savedPosts := default [] savedPosts in
  if bool_decide (postId ∈ savedPosts) then (false, removeFirst postId savedPosts)
  else (true, (savedPosts ++ [postId])%list).

(** Every character of the string satisfies the test. *)
Fixpoint allChars (test : ascii → bool) (s : string) : bool :=
  match s with
  | EmptyString => true
  | String c s' => test c && allChars test s'
  end.

(** The first listed post has a score that is not below that of the second. *)
Definition scoreOrder (a b : PostView) : Prop :=
  ∀ x y, viewScore a = Some x → viewScore b = Some y → (y ≤ x)%Z.

(** Every post document of the store has the score of its counters. *)
Definition scoreSound (d : Doc) : bool :=
  match d with
  | DPost p => bool_decide (p_score p = p_upvotes p - p_downvotes p)
  | _ => true
  end.

Definition scoresSound (s : Store) : Prop :=
  map_Forall (λ _ f, scoreSound (parse (f_raw f)) = true) (files s).

(** Every element of the list is in the relation with those after it. *)
Fixpoint ordered {A : Type} (R : A → A → Prop) (l : list A) : Prop :=
  match l with
  | [] => True
  | x :: l' => Forall (R x) l' ∧ ordered R l'
  end.

(** The site after bob, who has no account and moderates nothing, posted in
    gaming as well. *)
Definition bobId : string := "0a1b2c3d-0000-4000-8000-000000000002".

Definition bobStore : Store :=
  (createPost "gaming" "Second" "" "bob" "text" bobId helloStore).2.

Definition bobRef : PostRef :=
  mkPostRef ("posts/" ++ bobId ++ ".json") "gaming" "bob" 1000 "second_0a1b2c3d".

Definition bobIndex : IndexDoc :=
  setLastUpdated 1000 (setPosts [(helloId, helloRef); (bobId, bobRef)] siteIndex).

Definition bobPost : Post := newPost bobId "Second" "" "text" "bob" "gaming" 1000.

Definition bobGaming : Community :=
  unshiftCommunityPost bobId (unshiftCommunityPost helloId gaming).

(** * Properties *)

(** ** Association lists *)

Section JsObjFacts.
Context {V : Type}.
Implicit Types (k : string) (v : V) (o : list (string * V)).
Import JsObj.

Lemma JsObj_get_set_eq k v o : get k (set k v o) = Some v.
Proof.
    induction o as [|[k' v'] o IH]; simpl.
    - by rewrite decide_True.
    - destruct (decide (k' = k)); simpl.
      + by rewrite decide_True.
      + by rewrite decide_False.
Qed.

Lemma JsObj_get_set_ne k k' v o : k ≠ k' → get k' (set k v o) = get k' o.
Proof.
    intros Hne. induction o as [|[k0 v0] o IH]; simpl.
    - by rewrite decide_False.
    - destruct (decide (k0 = k)) as [->|]; simpl.
      + by rewrite !decide_False.
      + by rewrite IH.
Qed.

Lemma JsObj_get_del_eq k o : get k (del k o) = None.
Proof.
    induction o as [|[k' v'] o IH]; simpl; [done|].
    destruct (decide (k' = k)); simpl; [done|]. by rewrite decide_False.
Qed.

Lemma JsObj_get_del_ne k k' o : k ≠ k' → get k' (del k o) = get k' o.
Proof.
    intros Hne. induction o as [|[k0 v0] o IH]; simpl; [done|].
    destruct (decide (k0 = k)) as [->|]; simpl.
    - by rewrite decide_False.
    - by rewrite IH.
Qed.

Lemma JsObj_get_Some_elem k v o : get k o = Some v → (k, v) ∈ o.
Proof.
    induction o as [|[k' v'] o IH]; simpl; [done|].
    destruct (decide (k' = k)) as [->|].
    - intros [= ->]. left.
    - intros H. right. auto.
Qed.

Lemma JsObj_elem_get_is_Some k v o : (k, v) ∈ o → is_Some (get k o).
Proof.
    induction o as [|[k' v'] o IH]; simpl.
    - by intros ?%elem_of_nil.
    - intros [[= -> ->]|Hin]%elem_of_cons.
      + rewrite decide_True; eauto.
      + destruct (decide (k' = k)); eauto.
Qed.
End JsObjFacts.

(** ** The monad and the blob store *)

Lemma getFileFromGitHub_fetched (path : string) (s : Store) :
  getFileFromGitHub path s = (fetched s path, s).
Proof.
  unfold getFileFromGitHub, getContent, fetched. unfold_M.
  destruct (decide (path ∈ getFault s)); [done|].
  by destruct (files s !! path).
Qed.

Lemma save_create (path : string) (data : Doc) (s : Store) :
  files s !! path = None →
  saveFileToGitHub path data None s = (Ok tt, written path data s).
Proof.
  intros H. unfold saveFileToGitHub, createOrUpdateFileContents. by rewrite H.
Qed.

Lemma save_update (path : string) (data : Doc) (f : File) (s : Store) :
  files s !! path = Some f →
  saveFileToGitHub path data (Some (f_sha f)) s = (Ok tt, written path data s).
Proof.
  intros H. unfold saveFileToGitHub, createOrUpdateFileContents.
  rewrite H. by rewrite decide_True.
Qed.

Lemma save_conflict (path : string) (data : Doc) (f : File) (h : Sha) (s : Store) :
  files s !! path = Some f → h ≠ f_sha f →
  saveFileToGitHub path data (Some h) s = (Throw (HttpError 409), s).
Proof.
  intros H Hne. unfold saveFileToGitHub, createOrUpdateFileContents.
  rewrite H. by rewrite decide_False.
Qed.

(** A write either fails and leaves the store, or succeeds and installs the
    document. *)
Lemma save_cases (path : string) (data : Doc) (h : option Sha) (s : Store) :
  (∃ e, saveFileToGitHub path data h s = (Throw e, s))
  ∨ saveFileToGitHub path data h s = (Ok tt, written path data s).
Proof.
  unfold saveFileToGitHub, createOrUpdateFileContents.
  destruct (files s !! path) as [f|], h as [h|]; eauto.
  destruct (decide (h = f_sha f)); eauto.
Qed.

Lemma fetched_written_eq (path : string) (data : Doc) (s : Store) :
  path ∉ getFault s →
  fetched (written path data s) path = Ok (Some (mkResult data (Some (nextSha s)))).
Proof.
  intros H. unfold fetched, written; simpl.
  rewrite decide_False by done. by rewrite lookup_insert_eq.
Qed.

Lemma fetched_written_ne (path path' : string) (data : Doc) (s : Store) :
  path ≠ path' → fetched (written path data s) path' = fetched s path'.
Proof.
  intros H. unfold fetched, written; simpl. by rewrite lookup_insert_ne.
Qed.

(** ** The index *)

(** [getIndex], case by case on what the store holds at [indexPath]. *)
Lemma getIndex_cases (s : Store) :
  getIndex s =
    match fetched s indexPath with
    | Throw e => (Throw e, s)
    | Ok None =>
        (Ok (initialIndex (clock s), None),
         written indexPath (DIndex (initialIndex (clock s))) s)
    | Ok (Some r) =>
        if isEmptyObject (content r) then
          (Ok (initialIndex (clock s), None),
           written indexPath (DIndex (initialIndex (clock s))) s)
        else match content r with
             | DIndex i => (Ok (ensureMaps i, sha r), s)
             | _ => (Throw TypeError, s)
             end
    end.
Proof.
  unfold getIndex. unfold mbind at 1. unfold M_bind.
  rewrite getFileFromGitHub_fetched.
  unfold fetched. destruct (decide (indexPath ∈ getFault s)); [done|].
  destruct (files s !! indexPath) as [f|] eqn:Hf; simpl.
  - destruct (isEmptyObject (parse (f_raw f))).
    + unfold_M. by rewrite (save_update _ _ f).
    + by destruct (parse (f_raw f)).
  - unfold_M. by rewrite save_create.
Qed.

Lemma fetched_setClock (t : Z) (s : Store) (path : string) :
  fetched (setClock t s) path = fetched s path.
Proof. done. Qed.

(** C3, the claim as stated fails: an index that is not empty but lacks two
    of its three maps is not replaced by a fresh empty index.  [getIndex]
    returns it with its version, its date and its users, and with the two
    missing maps empty, and writes nothing: the file stays as it was,
    without the two maps. *)
Lemma getIndex_incomplete_kept :
  isEmptyObject (DIndex usersOnlyIndex) = false
  ∧ i_communities usersOnlyIndex = None
  ∧ i_posts usersOnlyIndex = None
  ∧ getIndex usersOnlyStore
    = (Ok ({| i_version := Some "1.0.0"; i_lastUpdated := Some 10;
              i_communities := Some [];
              i_users := Some [("alice", aliceRef)];
              i_posts := Some [] |}, Some 7%nat),
       usersOnlyStore)
  ∧ files (getIndex usersOnlyStore).2 !! indexPath
    = Some (mkFile (RJson (DIndex usersOnlyIndex)) 7%nat)
  ∧ ¬ (∃ t h, files (getIndex usersOnlyStore).2 !! indexPath
              = Some (mkFile (RJson (DIndex (initialIndex t))) h)).
Proof.
  assert (getIndex usersOnlyStore
          = (Ok ({| i_version := Some "1.0.0"; i_lastUpdated := Some 10;
                    i_communities := Some [];
                    i_users := Some [("alice", aliceRef)];
                    i_posts := Some [] |}, Some 7%nat),
             usersOnlyStore)) as E
    by (by vm_compute).
  split; [done|]. split; [done|]. split; [done|]. split; [exact E|].
  rewrite E. split; [by vm_compute|].
  intros (t & h & H). vm_compute in H. discriminate H.
Qed.

(** C3, amended: [getIndex] on a missing, blank or unparseable index.json
    writes a fresh index with three empty maps and returns it; on an index
    that is not empty but lacks some of its maps it returns the stored
    index, with its version, its date and the maps it has, and with an
    empty map for each one it lacks, and writes nothing; and after a load
    on a store without index.json a second load, at any later time, returns
    the same empty index without error and without a write. *)
Theorem getIndex_self_heal (s : Store) :
  indexPath ∉ getFault s →
  (files s !! indexPath = None
   ∨ (∃ f, files s !! indexPath = Some f ∧ (f_raw f = RBlank ∨ f_raw f = RCorrupt)) →
   getIndex s
   = (Ok ({| i_version := Some "1.0.0"; i_lastUpdated := Some (clock s);
             i_communities := Some []; i_users := Some []; i_posts := Some [] |}, None),
      written indexPath
        (DIndex {| i_version := Some "1.0.0"; i_lastUpdated := Some (clock s);
                   i_communities := Some []; i_users := Some []; i_posts := Some [] |})
        s))
  ∧ (∀ i h, files s !! indexPath = Some (mkFile (RJson (DIndex i)) h) →
            isEmptyObject (DIndex i) = false →
            getIndex s
            = (Ok ({| i_version := i_version i;
                      i_lastUpdated := i_lastUpdated i;
                      i_communities := Some (default [] (i_communities i));
                      i_users := Some (default [] (i_users i));
                      i_posts := Some (default [] (i_posts i)) |}, Some h),
               s))
  ∧ (files s !! indexPath = None →
     ∀ t, let s1 := setClock t (getIndex s).2 in
          (getIndex s).1 = Ok (initialIndex (clock s), None)
          ∧ getIndex s1 = (Ok (initialIndex (clock s), Some (nextSha s)), s1)).
Proof.
  intros Hfault.
  assert (files s !! indexPath = None →
          getIndex s
          = (Ok (initialIndex (clock s), None),
             written indexPath (DIndex (initialIndex (clock s))) s)) as Hmissing.
  { intros Hnone. rewrite getIndex_cases. unfold fetched.
    rewrite decide_False by done. by rewrite Hnone. }
  split; [|split].
  - intros [Hnone|(f & Hf & Hraw)]; [by apply Hmissing|].
    rewrite getIndex_cases. unfold fetched.
    rewrite decide_False by done. rewrite Hf; simpl.
    by destruct Hraw as [-> | ->].
  - intros i h Hf Hne. rewrite getIndex_cases. unfold fetched.
    rewrite decide_False by done. rewrite Hf; simpl.
    simpl in Hne. by rewrite Hne.
  - intros Hnone t s1. subst s1. rewrite (Hmissing Hnone); simpl. split; [done|].
    rewrite getIndex_cases, fetched_setClock, fetched_written_eq by done.
    done.
Qed.

Lemma getIndex_self_heal_witness :
  getIndex emptyStore
  = (Ok (initialIndex 1000, None), written indexPath (DIndex (initialIndex 1000)) emptyStore)
  ∧ getIndex blankIndexStore
    = (Ok (initialIndex 1000, None),
       written indexPath (DIndex (initialIndex 1000)) blankIndexStore)
  ∧ getIndex usersOnlyStore
    = (Ok ({| i_version := Some "1.0.0"; i_lastUpdated := Some 10;
              i_communities := Some [];
              i_users := Some [("alice", aliceRef)];
              i_posts := Some [] |}, Some 7%nat),
       usersOnlyStore)
  ∧ getIndex (setClock 2000 (getIndex emptyStore).2)
    = (Ok (initialIndex 1000, Some 0%nat), setClock 2000 (getIndex emptyStore).2).
Proof.
  split; [|split; [|split]].
  - apply (proj1 (getIndex_self_heal emptyStore ltac:(vm_compute; set_solver))).
    by left.
  - apply (proj1 (getIndex_self_heal blankIndexStore ltac:(vm_compute; set_solver))).
    right. exists (mkFile RBlank 7%nat). split; [reflexivity | by left].
  - apply (proj1 (proj2 (getIndex_self_heal usersOnlyStore ltac:(vm_compute; set_solver)))
             usersOnlyIndex 7%nat).
    + reflexivity.
    + reflexivity.
  - apply (proj2 (proj2 (getIndex_self_heal emptyStore ltac:(vm_compute; set_solver)))).
    reflexivity.
Defined.

(** ** The resolver *)

(** The fallback of the routes: the file that the index lists, fetched. *)
Lemma indexFallback_cases (type id : string) (s : Store) :
  indexFallback type id s =
    match getIndex s with
    | (Ok (index, _), s1) =>
        match indexedFile type id index with
        | None => (Ok None, s1)
        | Some file => (fetched s1 (DATA_PATH ++ "/" ++ file), s1)
        end
    | (Throw e, s1) => (Throw e, s1)
    end.
Proof.
  unfold indexFallback. unfold mbind, M_bind.
  destruct (getIndex s) as [[[index h]|e] s1]; [|done].
  destruct (indexedFile type id index); [|done].
  apply getFileFromGitHub_fetched.
Qed.

(** The resolver, case by case on the fetch at the direct path. *)
Lemma getDirectWithFallback_direct
    (type id : string) (fallback : M (option FileResult)) (s : Store) :
  getDirectWithFallback type id (Some fallback) s
  = match fetched s (directPath type id) with
    | Ok (Some r) => if isEmptyObject (content r) then fallback s else (Ok (Some r), s)
    | Ok None | Throw _ => fallback s
    end.
Proof.
  unfold getDirectWithFallback, try_catch. unfold mbind, M_bind.
  rewrite getFileFromGitHub_fetched.
  destruct (fetched s (directPath type id)) as [[r|]|e]; try done.
  by destruct (isEmptyObject (content r)).
Qed.

(** ** Reading the index and a listed document *)

Lemma fetched_Some_inv (s : Store) (path : string) (d : Doc) (h : option Sha) :
  fetched s path = Ok (Some (mkResult d h)) →
  ∃ f, files s !! path = Some f ∧ h = Some (f_sha f) ∧ d = parse (f_raw f).
Proof.
  unfold fetched. destruct (decide (path ∈ getFault s)); [done|].
  destruct (files s !! path) as [f|]; [|done]. intros [= <- <-]. eauto.
Qed.

Lemma save_fetched (s : Store) (path : string) (d data : Doc) (h : option Sha) :
  fetched s path = Ok (Some (mkResult d h)) →
  saveFileToGitHub path data h s = (Ok tt, written path data s).
Proof.
  intros (f & Hf & -> & _)%fetched_Some_inv. by apply save_update.
Qed.

Lemma getIndex_stored (s : Store) (i : IndexDoc) (h : option Sha) :
  fetched s indexPath = Ok (Some (mkResult (DIndex i) h)) →
  isEmptyObject (DIndex i) = false →
  getIndex s = (Ok (ensureMaps i, h), s).
Proof. intros Hf Hne. rewrite getIndex_cases, Hf; simpl in *. by rewrite Hne. Qed.

Lemma posts_not_empty (i : IndexDoc) (k : string) (r : PostRef) :
  JsObj.get k (posts i) = Some r → isEmptyObject (DIndex i) = false.
Proof.
  unfold posts; simpl. destruct (i_posts i); [|done]. intros _.
  by rewrite !andb_false_r.
Qed.

Lemma users_not_empty (i : IndexDoc) (k : string) (r : UserRef) :
  JsObj.get k (users i) = Some r → isEmptyObject (DIndex i) = false.
Proof.
  unfold users; simpl. destruct (i_users i); [|done]. intros _.
  by rewrite !andb_false_r.
Qed.

Lemma communities_not_empty (i : IndexDoc) (k : string) (r : CommunityRef) :
  JsObj.get k (communities i) = Some r → isEmptyObject (DIndex i) = false.
Proof.
  unfold communities; simpl. destruct (i_communities i); [|done]. intros _.
  by rewrite !andb_false_r.
Qed.

Lemma posts_ensureMaps (i : IndexDoc) : posts (ensureMaps i) = posts i.
Proof. done. Qed.

Lemma users_ensureMaps (i : IndexDoc) : users (ensureMaps i) = users i.
Proof. done. Qed.

Lemma communities_ensureMaps (i : IndexDoc) : communities (ensureMaps i) = communities i.
Proof. done. Qed.

(** What a route learns when [getIndex] lists a key: the index was read
    from the store as it is, or it was just repaired and lists nothing. *)
Lemma getIndex_result (s s' : Store) (index : IndexDoc) (h : option Sha) :
  getIndex s = (Ok (index, h), s') →
  (s' = s ∧ ∃ i, fetched s indexPath = Ok (Some (mkResult (DIndex i) h))
                 ∧ index = ensureMaps i)
  ∨ (index = initialIndex (clock s) ∧ h = None
     ∧ s' = written indexPath (DIndex (initialIndex (clock s))) s).
Proof.
  rewrite getIndex_cases.
  destruct (fetched s indexPath) as [[[d hd]|]|e]; simpl.
  - destruct (isEmptyObject d).
    + intros [= <- <- <-]. by right.
    + destruct d; try done. intros [= <- <- <-]. left. eauto.
  - intros [= <- <- <-]. by right.
  - done.
Qed.

Lemma getIndex_throw (s s' : Store) (e : Error) :
  getIndex s = (Throw e, s') → s' = s.
Proof.
  rewrite getIndex_cases.
  destruct (fetched s indexPath) as [[[d hd]|]|e']; simpl.
  - destruct (isEmptyObject d); [done|]. destruct d; try done; by intros [= _ <-].
  - done.
  - by intros [= _ <-].
Qed.

Lemma getCommunity_direct (s : Store) (community : string) (d : Doc) (h : option Sha) :
  hasProfanity community = false →
  fetched s (directPath "communities" community) = Ok (Some (mkResult d h)) →
  isEmptyObject d = false →
  getCommunity community s = (mkResponse 200 (BDoc d), s).
Proof.
  intros Hclean Hd Hne. unfold getCommunity, route. rewrite Hclean.
  unfold mbind, M_bind.
  rewrite (getDirectWithFallback_direct "communities" community
             (indexFallback "communities" community) s), Hd; simpl.
  by rewrite Hne.
Qed.

(** ** The resolver and the index *)

(** C6: [getDirectWithFallback] fetches [data/<type>/<id>.json] and answers
    with the document there whenever the fetch yields an object that is not
    empty; when that fetch finds nothing, finds a blank or unparseable
    file, or fails, it answers with the result of the fallback; and it
    answers [null], the 404 of the routes, only when the direct path gave
    no document and the fallback answered [null].  The fallback of the
    routes looks the key up in the map of the index for the type,
    [users], [communities] or [posts], and fetches the file listed there,
    or answers [null] when the map has no such key.  The route GET
    /api/r/:community, for a name that passes its profanity check, answers
    200 with the document at [data/communities/<name>.json] when there is
    one, and in every case with what the resolver returns. *)
Theorem getDirectWithFallback_resolves
    (type id : string) (fallback : M (option FileResult)) (s : Store) :
  let direct := "data/" ++ type ++ "/" ++ id ++ ".json" in
  (∀ r, fetched s direct = Ok (Some r) → isEmptyObject (content r) = false →
        getDirectWithFallback type id (Some fallback) s = (Ok (Some r), s))
  ∧ (fetched s direct = Ok None
     ∨ (∃ r, fetched s direct = Ok (Some r) ∧ isEmptyObject (content r) = true)
     ∨ (∃ e, fetched s direct = Throw e) →
     getDirectWithFallback type id (Some fallback) s = fallback s)
  ∧ (∀ s', getDirectWithFallback type id (Some fallback) s = (Ok None, s') →
           fallback s = (Ok None, s')
           ∧ ¬ ∃ r, fetched s direct = Ok (Some r)
                    ∧ isEmptyObject (content r) = false)
  ∧ (∀ i h, fetched s indexPath = Ok (Some (mkResult (DIndex i) h)) →
            isEmptyObject (DIndex i) = false →
            indexFallback "users" id s
            = (match JsObj.get id (default [] (i_users i)) with
               | Some ref => fetched s ("data/" ++ ur_file ref)
               | None => Ok None
               end, s)
            ∧ indexFallback "communities" id s
              = (match JsObj.get id (default [] (i_communities i)) with
                 | Some ref => fetched s ("data/" ++ cr_file ref)
                 | None => Ok None
                 end, s)
            ∧ indexFallback "posts" id s
              = (match JsObj.get id (default [] (i_posts i)) with
                 | Some ref => fetched s ("data/" ++ pr_file ref)
                 | None => Ok None
                 end, s))
  ∧ (hasProfanity id = false →
     (∀ r, fetched s ("data/communities/" ++ id ++ ".json") = Ok (Some r) →
           isEmptyObject (content r) = false →
           getCommunity id s = (mkResponse 200 (BDoc (content r)), s))
     ∧ getCommunity id s
       = match getDirectWithFallback "communities" id
                 (Some (indexFallback "communities" id)) s with
         | (Ok (Some r), s') => (mkResponse 200 (BDoc (content r)), s')
         | (Ok None, s') => (mkResponse 404 (BError "Community not found"), s')
         | (Throw e, s') => (mkResponse 500 (BException e), s')
         end).
Proof.
  intros direct.
  assert (Hdirect : direct = directPath type id) by done.
  pose proof (getDirectWithFallback_direct type id fallback s) as E.
  rewrite <- Hdirect in E.
  split; [|split; [|split; [|split]]].
  - intros r Hr Hne. by rewrite E, Hr, Hne.
  - intros [Hd|[(r & Hd & Hr)|(e & Hd)]]; rewrite E, Hd; [done| |done].
    by rewrite Hr.
  - intros s' H. rewrite E in H.
    destruct (fetched s direct) as [[r|]|e] eqn:Hd.
    + destruct (isEmptyObject (content r)) eqn:Hr; [|done].
      split; [done|]. intros (r' & [= <-] & Hr'). congruence.
    + split; [done|]. by intros (r' & [=] & _).
    + split; [done|]. by intros (r' & [=] & _).
  - intros i h Hi Hne.
    rewrite !indexFallback_cases, (getIndex_stored s i h Hi Hne).
    unfold indexedFile; simpl.
    split; [|split].
    + rewrite users_ensureMaps. unfold users.
      by destruct (JsObj.get id (default [] (i_users i))).
    + rewrite communities_ensureMaps. unfold communities.
      by destruct (JsObj.get id (default [] (i_communities i))).
    + rewrite posts_ensureMaps. unfold posts.
      by destruct (JsObj.get id (default [] (i_posts i))).
  - intros Hclean. split.
    + intros [d hd] Hr Hne. by apply (getCommunity_direct s id d hd).
    + unfold getCommunity, route. rewrite Hclean.
      unfold mbind, M_bind.
      by destruct (getDirectWithFallback "communities" id _ s) as [[[r|]|e] s'].
Qed.

Lemma getDirectWithFallback_resolves_witness :
  getDirectWithFallback "communities" "gaming"
    (Some (indexFallback "communities" "gaming")) siteStore
  = (Ok (Some (mkResult (DCommunity gaming) (Some 2%nat))), siteStore)
  ∧ getDirectWithFallback "users" "alice" (Some (indexFallback "users" "alice")) movedStore
    = indexFallback "users" "alice" movedStore
  ∧ indexFallback "users" "alice" movedStore
    = (Ok (Some (mkResult (DUser alice) (Some 5%nat))), movedStore)
  ∧ indexFallback "posts" helloId helloStore
    = (Ok (Some (mkResult (DPost helloPost) (Some 4%nat))), helloStore)
  ∧ indexFallback "communities" "cooking" siteStore = (Ok None, siteStore)
  ∧ getCommunity "gaming" siteStore
    = (mkResponse 200 (BDoc (DCommunity gaming)), siteStore).
Proof.
  split; [|split; [|split; [|split; [|split]]]].
  - apply (proj1 (getDirectWithFallback_resolves "communities" "gaming"
                    (indexFallback "communities" "gaming") siteStore)
             (mkResult (DCommunity gaming) (Some 2%nat)));
      vm_compute; reflexivity.
  - apply (proj1 (proj2 (getDirectWithFallback_resolves "users" "alice"
                           (indexFallback "users" "alice") movedStore))).
    right. left. exists (mkResult (parse RBlank) (Some 1%nat)).
    split; vm_compute; reflexivity.
  - rewrite (proj1 (proj1 (proj2 (proj2 (proj2
               (getDirectWithFallback_resolves "users" "alice"
                  (indexFallback "users" "alice") movedStore))))
               movedIndex (Some 3%nat)
               ltac:(vm_compute; reflexivity) ltac:(vm_compute; reflexivity))).
    vm_compute. reflexivity.
  - rewrite (proj2 (proj2 (proj1 (proj2 (proj2 (proj2
               (getDirectWithFallback_resolves "posts" helloId
                  (indexFallback "posts" helloId) helloStore))))
               helloIndex (Some 6%nat)
               ltac:(vm_compute; reflexivity) ltac:(vm_compute; reflexivity)))).
    vm_compute. reflexivity.
  - rewrite (proj1 (proj2 (proj1 (proj2 (proj2 (proj2
               (getDirectWithFallback_resolves "communities" "cooking"
                  (indexFallback "communities" "cooking") siteStore))))
               siteIndex (Some 3%nat)
               ltac:(vm_compute; reflexivity) ltac:(vm_compute; reflexivity)))).
    vm_compute. reflexivity.
  - apply (proj1 (proj2 (proj2 (proj2 (proj2
                   (getDirectWithFallback_resolves "communities" "gaming"
                      (indexFallback "communities" "gaming") siteStore))))
                   ltac:(vm_compute; reflexivity))
             (mkResult (DCommunity gaming) (Some 2%nat)));
      vm_compute; reflexivity.
Defined.

(** ** Votes *)

(** The assignment records the vote under every name but ["__proto__"],
    and under that name too in a ledger that has it as an own key. *)
Lemma recordVote_own (username : string) (v : Z) (voters : gmap string Z) :
  username ≠ "__proto__" ∨ is_Some (voters !! username) →
  recordVote username v voters = <[username := v]> voters.
Proof.
  intros H. unfold recordVote.
  destruct (bool_decide_reflect (username = "__proto__")) as [->|]; [|done].
  destruct H as [|[w Hw]]; [done|]. by rewrite Hw.
Qed.

Lemma recordVote_proto (v : Z) (voters : gmap string Z) :
  voters !! "__proto__" = None → recordVote "__proto__" v voters = voters.
Proof. intros H. unfold recordVote. by rewrite H. Qed.

Lemma applyVote_fields (username : string) (v : Z) (voters : gmap string Z) (post : Post) :
  let previousVote := default 0 (voters !! username) in
  let post' := applyVote username v voters post in
  p_upvotes post'
  = p_upvotes post - oneIf (bool_decide (previousVote = 1)) + oneIf (bool_decide (v = 1))
  ∧ p_downvotes post'
    = p_downvotes post - oneIf (bool_decide (previousVote = -1))
      + oneIf (bool_decide (v = -1))
  ∧ p_voters post' = Some (recordVote username v voters)
  ∧ p_score post' = p_upvotes post' - p_downvotes post'.
Proof.
  unfold applyVote, oneIf; simpl.
  repeat case_bool_decide; repeat split; lia.
Qed.

(** A vote on a listed post whose document is in place is answered 200 and
    writes the updated document. *)
Lemma vote_existing (s : Store) (postId username : string) (v : Z)
    (i : IndexDoc) (h : option Sha) (ref : PostRef)
    (post : Post) (postSha : option Sha) (voters : gmap string Z) :
  username ≠ "" →
  fetched s indexPath = Ok (Some (mkResult (DIndex i) h)) →
  JsObj.get postId (posts i) = Some ref →
  fetched s (DATA_PATH ++ "/" ++ pr_file ref) = Ok (Some (mkResult (DPost post) postSha)) →
  p_voters post = Some voters →
  let post' := applyVote username v voters post in
  vote postId username (Some v) s
  = (mkResponse 200 (BVotes (p_upvotes post') (p_downvotes post') (p_score post')),
     written (DATA_PATH ++ "/" ++ pr_file ref) (DPost post') s).
Proof.
  intros Hu Hi Href Hp Hv post'. unfold vote, route.
  rewrite bool_decide_eq_false_2 by done.
  unfold mbind at 1. unfold M_bind.
  rewrite (getIndex_stored s i h Hi (posts_not_empty _ _ _ Href)).
  rewrite posts_ensureMaps, Href.
  unfold mbind at 1. unfold M_bind.
  rewrite getFileFromGitHub_fetched, Hp; simpl. rewrite Hv.
  unfold mbind, M_bind.
  by rewrite (save_fetched s _ _ _ _ Hp).
Qed.

(** Whatever the store, a vote that is answered 200 has written one post
    document, whose score is the difference of its counters. *)
Lemma vote_200 (s s' : Store) (postId username : string) (v : option Z) (r : Response) :
  vote postId username v s = (r, s') → status r = 200%nat →
  ∃ path post',
    s' = written path (DPost post') s
    ∧ p_score post' = p_upvotes post' - p_downvotes post'
    ∧ body r = BVotes (p_upvotes post') (p_downvotes post') (p_score post').
Proof.
  unfold vote, route. destruct v as [v|]; [|by intros [= <- <-]].
  destruct (bool_decide (username = "")); [by intros [= <- <-]|].
  unfold mbind at 1. unfold M_bind.
  destruct (getIndex s) as [[[index h]|e] s1] eqn:Hidx; [|by intros [= <- <-]].
  destruct (JsObj.get postId (posts index)) as [ref|] eqn:Href;
    [|by intros [= <- <-]].
  apply getIndex_result in Hidx as [(-> & _)|(-> & _)]; [|done].
  unfold mbind at 1. unfold M_bind. rewrite getFileFromGitHub_fetched.
  destruct (fetched s (DATA_PATH ++ "/" ++ pr_file ref)) as [[[d hd]|]|e];
    [|by intros [= <- <-]..].
  destruct d as [| | | |post|]; try by intros [= <- <-].
  destruct (p_voters post) as [voters|]; [|by intros [= <- <-]].
  unfold mbind, M_bind.
  destruct (save_cases (DATA_PATH ++ "/" ++ pr_file ref)
              (DPost (applyVote username v voters post)) hd s) as [[e He]|He];
    rewrite He; [by intros [= <- <-]|].
  intros [= <- <-] _. eexists _, _. split; [done|]. split; [|done].
  apply applyVote_fields.
Qed.

Lemma trace_Forall {Call : Type} (run : Call → Store → Response * Store)
    (P : Store * Call * Response * Store → Prop) :
  (∀ s call, P (s, call, (run call s).1, (run call s).2)) →
  ∀ calls s, Forall P (trace run calls s).
Proof.
  intros HP calls. induction calls as [|call rest IH]; intros s; simpl; [done|].
  specialize (HP s call). destruct (run call s) as [r s']. constructor; auto.
Qed.

Lemma applyVote_proto (v : Z) (voters : gmap string Z) (post : Post) :
  voters !! "__proto__" = None →
  applyVote "__proto__" v voters post
  = setVotes (p_upvotes post + oneIf (bool_decide (v = 1)))
      (p_downvotes post + oneIf (bool_decide (v = -1))) voters post.
Proof.
  intros H. unfold applyVote. rewrite (recordVote_proto _ _ H), H. simpl.
  unfold oneIf. repeat case_bool_decide; f_equal; lia.
Qed.

Lemma fetched_distinct (s : Store) (path path' : string) (d d' : Doc) (h h' : option Sha) :
  fetched s path = Ok (Some (mkResult d h)) →
  fetched s path' = Ok (Some (mkResult d' h')) →
  d ≠ d' → path ≠ path'.
Proof. intros H H' Hne ->. congruence. Qed.

(** C1, where the code parts from the claim: a vote under the name
    ["__proto__"] on an existing post whose ledger has no own key of that
    name.  The vote is answered 200 and counted, one more upvote for the
    vote 1 and one more downvote for the vote -1, with [score] the
    difference of the counters, but it is not recorded: the ledger of the
    written document is the one of the stored document.  The same vote sent
    again finds no previous vote and is counted again. *)
Theorem vote_proto_unrecorded (s : Store) (postId : string) (v : Z)
    (i : IndexDoc) (h : option Sha) (ref : PostRef)
    (post : Post) (postSha : option Sha) (voters : gmap string Z) :
  fetched s indexPath = Ok (Some (mkResult (DIndex i) h)) →
  JsObj.get postId (posts i) = Some ref →
  fetched s (DATA_PATH ++ "/" ++ pr_file ref) = Ok (Some (mkResult (DPost post) postSha)) →
  p_voters post = Some voters →
  voters !! "__proto__" = None →
  let path := DATA_PATH ++ "/" ++ pr_file ref in
  let up := oneIf (bool_decide (v = 1)) in
  let down := oneIf (bool_decide (v = -1)) in
  ∃ post1 post2,
    vote postId "__proto__" (Some v) s
    = (mkResponse 200
         (BVotes (p_upvotes post + up) (p_downvotes post + down)
            (p_upvotes post + up - (p_downvotes post + down))),
       written path (DPost post1) s)
    ∧ p_upvotes post1 = p_upvotes post + up
    ∧ p_downvotes post1 = p_downvotes post + down
    ∧ p_score post1 = p_upvotes post1 - p_downvotes post1
    ∧ p_voters post1 = Some voters
    ∧ vote postId "__proto__" (Some v) (written path (DPost post1) s)
      = (mkResponse 200
           (BVotes (p_upvotes post + up + up) (p_downvotes post + down + down)
              (p_upvotes post + up + up - (p_downvotes post + down + down))),
         written path (DPost post2) (written path (DPost post1) s))
    ∧ p_upvotes post2 = p_upvotes post + up + up
    ∧ p_downvotes post2 = p_downvotes post + down + down
    ∧ p_voters post2 = Some voters.
Proof.
  intros Hi Href Hp Hv Hproto path up down.
  assert (path ≠ indexPath) as Hpath by (by eapply fetched_distinct).
  assert (path ∉ getFault s) as Hfault.
  { intros Hin. unfold fetched in Hp. by rewrite decide_True in Hp. }
  set (post1 := setVotes (p_upvotes post + up) (p_downvotes post + down) voters post).
  set (post2 := setVotes (p_upvotes post + up + up) (p_downvotes post + down + down)
                  voters post).
  exists post1, post2.
  pose proof (vote_existing s postId "__proto__" v i h ref post postSha voters
                ltac:(done) Hi Href Hp Hv) as E1.
  cbv zeta in E1. rewrite (applyVote_proto _ _ _ Hproto) in E1. fold up down post1 path in E1.
  set (s1 := written path (DPost post1) s) in *.
  assert (fetched s1 indexPath = Ok (Some (mkResult (DIndex i) h))) as Hi1.
  { unfold s1. by rewrite fetched_written_ne. }
  assert (fetched s1 path = Ok (Some (mkResult (DPost post1) (Some (nextSha s))))) as Hp1.
  { unfold s1. by apply fetched_written_eq. }
  pose proof (vote_existing s1 postId "__proto__" v i h ref post1 _ voters
                ltac:(done) Hi1 Href Hp1 eq_refl) as E2.
  cbv zeta in E2. rewrite (applyVote_proto _ _ _ Hproto) in E2.
  change (p_upvotes post1) with (p_upvotes post + up) in E2.
  change (p_downvotes post1) with (p_downvotes post + down) in E2.
  fold up down path in E2.
  assert (setVotes (p_upvotes post + up + up) (p_downvotes post + down + down) voters post1
          = post2) as Hpost2 by done.
  rewrite Hpost2 in E2.
  repeat split; try done.
Qed.

Lemma vote_proto_unrecorded_witness :
  ∃ post1 post2,
    vote helloId "__proto__" (Some 1) helloStore
    = (mkResponse 200 (BVotes 2 0 2),
       written (DATA_PATH ++ "/" ++ pr_file helloRef) (DPost post1) helloStore)
    ∧ p_voters post1 = Some {[ "alice" := 1 ]}
    ∧ vote helloId "__proto__" (Some 1)
        (written (DATA_PATH ++ "/" ++ pr_file helloRef) (DPost post1) helloStore)
      = (mkResponse 200 (BVotes 3 0 3),
         written (DATA_PATH ++ "/" ++ pr_file helloRef) (DPost post2)
           (written (DATA_PATH ++ "/" ++ pr_file helloRef) (DPost post1) helloStore))
    ∧ p_voters post2 = Some {[ "alice" := 1 ]}.
Proof.
  destruct (vote_proto_unrecorded helloStore helloId 1 helloIndex (Some 6%nat) helloRef
              helloPost (Some 4%nat) {[ "alice" := 1 ]}
              ltac:(vm_compute; reflexivity) ltac:(vm_compute; reflexivity)
              ltac:(vm_compute; reflexivity) ltac:(reflexivity)
              ltac:(vm_compute; reflexivity))
    as (post1 & post2 & E1 & _ & _ & _ & Hv1 & E2 & _ & _ & Hv2).
  exists post1, post2. repeat split; assumption.
Defined.

(** C2, the claim as stated fails: on the post that alice just created, her
    second vote -1 is answered with the counts of the first one, 0 and 1
    and the score -1, not with 1, 0 and 1. *)
Lemma second_downvote_not_retraction :
  (createPost "gaming" "Hello World" "" "alice" "text" helloId siteStore).1
  = mkResponse 201
      (BDoc (DPost (newPost helloId "Hello World" "" "text" "alice" "gaming" 1000)))
  ∧ (vote helloId "alice" (Some (-1)) helloStore).1 = mkResponse 200 (BVotes 0 1 (-1))
  ∧ (vote helloId "alice" (Some (-1))
       (vote helloId "alice" (Some (-1)) helloStore).2).1
    = mkResponse 200 (BVotes 0 1 (-1))
  ∧ (vote helloId "alice" (Some (-1))
       (vote helloId "alice" (Some (-1)) helloStore).2).1
    ≠ mkResponse 200 (BVotes 1 0 1).
Proof.
  assert ((vote helloId "alice" (Some (-1))
             (vote helloId "alice" (Some (-1)) helloStore).2).1
          = mkResponse 200 (BVotes 0 1 (-1))) as E by (by vm_compute).
  split; [by vm_compute|]. split; [by vm_compute|]. split; [exact E|].
  rewrite E. discriminate.
Qed.

(** C2, amended: on a freshly created post (upvotes 1, downvotes 0, score 1,
    voters with the author at 1) the author's vote -1 yields upvotes 0,
    downvotes 1 and score -1; the author's second vote -1 yields the same
    counts again; and the retraction, which the client sends as the vote 0,
    yields upvotes 0, downvotes 0 and score 0. *)
Theorem fresh_post_downvotes (s : Store) (postId title content type author community : string)
    (createdAt : Z) (i : IndexDoc) (h : option Sha) (ref : PostRef) (postSha : option Sha) :
  author ≠ "" →
  fetched s indexPath = Ok (Some (mkResult (DIndex i) h)) →
  JsObj.get postId (posts i) = Some ref →
  fetched s (DATA_PATH ++ "/" ++ pr_file ref)
  = Ok (Some (mkResult
                (DPost (newPost postId title content type author community createdAt))
                postSha)) →
  let s1 := (vote postId author (Some (-1)) s).2 in
  let s2 := (vote postId author (Some (-1)) s1).2 in
  (vote postId author (Some (-1)) s).1 = mkResponse 200 (BVotes 0 1 (-1))
  ∧ (vote postId author (Some (-1)) s1).1 = mkResponse 200 (BVotes 0 1 (-1))
  ∧ (vote postId author (Some 0) s2).1 = mkResponse 200 (BVotes 0 0 0).
Proof.
  intros Ha Hi Href Hp s1 s2.
  set (path := DATA_PATH ++ "/" ++ pr_file ref) in *.
  set (post0 := newPost postId title content type author community createdAt) in *.
  assert (path ≠ indexPath) as Hpath by (by eapply fetched_distinct).
  assert (path ∉ getFault s) as Hfault.
  { intros Hin. unfold fetched in Hp. by rewrite decide_True in Hp. }
  (* first vote *)
  pose proof (vote_existing s postId author (-1) i h ref post0 postSha
                {[ author := 1 ]} Ha Hi Href Hp eq_refl) as E1.
  set (post1 := applyVote author (-1) {[ author := 1 ]} post0) in *.
  assert (s1 = written path (DPost post1) s) as Hs1 by (subst s1; by rewrite E1).
  (* second vote *)
  assert (fetched s1 indexPath = Ok (Some (mkResult (DIndex i) h))) as Hi1.
  { rewrite Hs1, fetched_written_ne by done. done. }
  assert (fetched s1 path = Ok (Some (mkResult (DPost post1) (Some (nextSha s))))) as Hp1.
  { rewrite Hs1. by apply fetched_written_eq. }
  assert (p_voters post1 = Some (<[ author := -1 ]> {[ author := 1 ]})) as Hv1.
  { destruct (applyVote_fields author (-1) {[ author := 1 ]} post0) as (_ & _ & Hv & _).
    fold post1 in Hv. rewrite Hv, recordVote_own; [done|].
    right. rewrite lookup_singleton_eq. eauto. }
  pose proof (vote_existing s1 postId author (-1) i h ref post1 _
                (<[ author := -1 ]> {[ author := 1 ]}) Ha Hi1 Href Hp1 Hv1) as E2.
  fold path in E2.
  set (post2 := applyVote author (-1) (<[ author := -1 ]> {[ author := 1 ]}) post1) in *.
  assert (s2 = written path (DPost post2) s1) as Hs2 by (subst s2; by rewrite E2).
  (* retraction *)
  assert (fetched s2 indexPath = Ok (Some (mkResult (DIndex i) h))) as Hi2.
  { rewrite Hs2, fetched_written_ne by done. done. }
  assert (fetched s2 path = Ok (Some (mkResult (DPost post2) (Some (nextSha s1))))) as Hp2.
  { rewrite Hs2. apply fetched_written_eq. by rewrite Hs1. }
  assert (p_voters post2
          = Some (<[ author := -1 ]> (<[ author := -1 ]> {[ author := 1 ]}))) as Hv2.
  { destruct (applyVote_fields author (-1) (<[ author := -1 ]> {[ author := 1 ]}) post1)
      as (_ & _ & Hv & _).
    fold post2 in Hv. rewrite Hv, recordVote_own; [done|].
    right. rewrite lookup_insert_eq. eauto. }
  pose proof (vote_existing s2 postId author 0 i h ref post2 _
                (<[ author := -1 ]> (<[ author := -1 ]> {[ author := 1 ]}))
                Ha Hi2 Href Hp2 Hv2) as E3.
  rewrite E1, E2, E3; simpl.
  rewrite lookup_singleton_eq; simpl. rewrite !lookup_insert_eq; simpl.
  done.
Qed.

Lemma fresh_post_downvotes_witness :
  (vote helloId "alice" (Some (-1)) helloStore).1 = mkResponse 200 (BVotes 0 1 (-1))
  ∧ (vote helloId "alice" (Some (-1))
       (vote helloId "alice" (Some (-1)) helloStore).2).1
    = mkResponse 200 (BVotes 0 1 (-1))
  ∧ (vote helloId "alice" (Some 0)
       (vote helloId "alice" (Some (-1))
          (vote helloId "alice" (Some (-1)) helloStore).2).2).1
    = mkResponse 200 (BVotes 0 0 0).
Proof.
  apply (fresh_post_downvotes helloStore helloId "Hello World" "" "text" "alice" "gaming"
           1000 helloIndex (Some 6%nat) helloRef (Some 4%nat)).
  - discriminate.
  - vm_compute. reflexivity.
  - vm_compute. reflexivity.
  - vm_compute. reflexivity.
Defined.

(** ** The comment tree *)

Lemma Comment_ind (P : Comment → Prop) :
  (∀ c, Forall P (c_replies c) → P c) → ∀ c, P c.
Proof.
  intros H. fix IH 1. intros c. apply H.
  destruct c as [? ? ? ? ? ? ? ? replies]; simpl.
  induction replies as [|c' replies IHreplies]; constructor; [apply IH | exact IHreplies].
Qed.

Lemma AtDepth_nil (id : string) (d : nat) : ¬ AtDepth id d [].
Proof. inversion 1. Qed.

Lemma addReplyAt_unfold (parentId : string) (comment : Comment) (depth : nat) (c : Comment) :
  addReplyAt parentId comment depth c
  = if decide (c_id c = parentId) then Some (setReplies (c_replies c ++ [comment]) c)
    else if bool_decide (c_replies c = []) then None
    else if Nat.ltb MAX_NESTING_DEPTH (S depth) then None
    else (λ replies, setReplies replies c)
           <$> firstChanged (addReplyAt parentId comment (S depth)) (c_replies c).
Proof. by destruct c. Qed.

Section AddReplyFacts.
Variable parentId : string.
Variable comment : Comment.

Lemma loopSpec_of_turns (comments : list Comment) :
  Forall (turnSpec parentId comment) comments → loopSpec parentId comment comments.
Proof.
  induction 1 as [|c rest Hc _ IH]; intros depth Hdepth; simpl.
  - by intros d ?%AtDepth_nil.
  - specialize (Hc depth Hdepth). specialize (IH depth Hdepth).
    destruct (addReplyAt parentId comment depth c) as [c'|].
    + destruct Hc as [[Hid ->]|(Hid & replies' & Hpushed & ->)].
      * by apply Pushed_here.
      * by apply Pushed_below.
    + destruct Hc as [Hid Hbelow].
      destruct (firstChanged (addReplyAt parentId comment depth) rest) as [rest'|]; simpl.
      * by apply Pushed_next.
      * intros d Hd.
        inversion Hd as [c0 r0 Hhere|c0 r0 d0 Hd0|c0 r0 d0 Hd0]; subst.
        -- done.
        -- specialize (Hbelow d0 Hd0). lia.
        -- by apply IH.
Qed.

Lemma turnSpec_all (c : Comment) : turnSpec parentId comment c.
Proof.
  induction c as [c IH] using Comment_ind. intros depth Hdepth.
  rewrite addReplyAt_unfold.
  destruct (decide (c_id c = parentId)) as [Hid|Hid]; [by left|].
  case_bool_decide as Hnil.
  { split; [done|]. rewrite Hnil. by intros d ?%AtDepth_nil. }
  destruct (Nat.ltb MAX_NESTING_DEPTH (S depth)) eqn:Hmax.
  { apply Nat.ltb_lt in Hmax. split; [done|]. intros d _. lia. }
  apply Nat.ltb_ge in Hmax.
  pose proof (loopSpec_of_turns _ IH (S depth) Hmax) as Hloop.
  destruct (firstChanged (addReplyAt parentId comment (S depth)) (c_replies c))
    as [replies'|]; simpl; [right; eauto | done].
Qed.

Lemma loopSpec_all (comments : list Comment) : loopSpec parentId comment comments.
Proof. apply loopSpec_of_turns, Forall_forall. intros c _. apply turnSpec_all. Qed.

Lemma Pushed_AtDepth (depth : nat) (comments comments' : list Comment) :
  Pushed parentId comment depth comments comments' →
  ∃ d, AtDepth parentId d comments ∧ (depth + d ≤ MAX_NESTING_DEPTH)%nat.
Proof.
  induction 1 as [depth c rest Hle Hid|depth c rest replies' Hid _ (d & Hd & Hle)
                 |depth c rest rest' Hid _ _ (d & Hd & Hle)].
  - exists 0%nat. split; [by constructor | lia].
  - exists (S d). split; [by constructor | lia].
  - exists d. split; [by constructor | done].
Qed.

(** [addReply] returns [true] exactly when the forest has the parent within
    the depth bound, and then has pushed the comment to the first such
    parent. *)
Lemma addReply_Some (comments comments' : list Comment) (depth : nat) :
  addReply parentId comment comments depth = Some comments' →
  Pushed parentId comment depth comments comments'.
Proof.
  unfold addReply. destruct (Nat.ltb MAX_NESTING_DEPTH depth) eqn:Hmax; [done|].
  apply Nat.ltb_ge in Hmax. intros H.
  pose proof (loopSpec_all comments depth Hmax) as Hloop. by rewrite H in Hloop.
Qed.

Lemma addReply_None (comments : list Comment) (depth : nat) :
  addReply parentId comment comments depth = None →
  ∀ d, AtDepth parentId d comments → (MAX_NESTING_DEPTH < depth + d)%nat.
Proof.
  unfold addReply. destruct (Nat.ltb MAX_NESTING_DEPTH depth) eqn:Hmax.
  - apply Nat.ltb_lt in Hmax. intros _ d _. lia.
  - apply Nat.ltb_ge in Hmax. intros H.
    pose proof (loopSpec_all comments depth Hmax) as Hloop. by rewrite H in Hloop.
Qed.

Lemma addReply_is_Some (comments : list Comment) :
  is_Some (addReply parentId comment comments 0) ↔
  ∃ d, (d ≤ MAX_NESTING_DEPTH)%nat ∧ AtDepth parentId d comments.
Proof.
  split.
  - intros [comments' H]. apply addReply_Some, Pushed_AtDepth in H as (d & Hd & Hle).
    exists d. split; [lia | done].
  - intros (d & Hle & Hd).
    destruct (addReply parentId comment comments 0) as [comments'|] eqn:H; [by eauto|].
    pose proof (addReply_None _ _ H d Hd). lia.
Qed.
End AddReplyFacts.

(** ** Comments on a post *)

Lemma fetched_stored (s : Store) (path : string) (d : Doc) (h : option Sha) :
  fetched s path = Ok (Some (mkResult d h)) → stored s path = Some d.
Proof.
  intros (f & Hf & _ & ->)%fetched_Some_inv. unfold stored. by rewrite Hf.
Qed.

Lemma fetched_no_fault (s : Store) (path : string) (x : option FileResult) :
  fetched s path = Ok x → path ∉ getFault s.
Proof. unfold fetched. by destruct (decide (path ∈ getFault s)). Qed.

(** The update of the author's document changes nothing, or writes the
    user document it read, or fails before it writes. *)
Lemma updateAuthor_cases (index : IndexDoc) (author : string) (change : User → User)
    (s : Store) :
  updateAuthor index author change s = (Ok tt, s)
  ∨ (∃ path u h,
       fetched s path = Ok (Some (mkResult (DUser u) h))
       ∧ updateAuthor index author change s
         = (Ok tt, written path (DUser (change u)) s))
  ∨ ∃ e, updateAuthor index author change s = (Throw e, s).
Proof.
  unfold updateAuthor. destruct (JsObj.get author (users index)) as [ref|]; [|by left].
  unfold mbind, M_bind. rewrite getFileFromGitHub_fetched.
  destruct (fetched s (DATA_PATH ++ "/" ++ ur_file ref)) as [[[d h]|]|e] eqn:Hf;
    [|by left|by eauto].
  destruct d as [| |u| | |]; simpl; try by (right; right; eauto).
  right; left. exists (DATA_PATH ++ "/" ++ ur_file ref), u, h. split; [done|].
  by apply save_fetched with (d := DUser u).
Qed.

(** The route on a listed post whose document is in place. *)
Lemma addComment_existing (s : Store) (postId content author : string)
    (parentId : option string) (commentId : string)
    (i : IndexDoc) (h : option Sha) (ref : PostRef) (post : Post) (postSha : option Sha) :
  content ≠ "" → author ≠ "" →
  fetched s indexPath = Ok (Some (mkResult (DIndex i) h)) →
  JsObj.get postId (posts i) = Some ref →
  fetched s (DATA_PATH ++ "/" ++ pr_file ref) = Ok (Some (mkResult (DPost post) postSha)) →
  let comment := newComment commentId content author parentId (clock s) in
  addComment postId content author parentId commentId s
  = match insertComment post comment parentId with
    | None =>
        (mkResponse 404 (BError "Parent comment not found or max nesting depth exceeded"),
         s)
    | Some post' =>
        route (updateAuthor (ensureMaps i) author
                 (λ u, setUserLists (u_posts u)
                         (mkCommentMeta postId commentId (clock s) :: u_comments u) u);;
               respond 201 (BComment comment))
          (written (DATA_PATH ++ "/" ++ pr_file ref) (DPost post') s)
    end.
Proof.
  intros Hc Ha Hi Href Hp comment. unfold addComment, route.
  rewrite !bool_decide_eq_false_2 by done; simpl.
  unfold mbind at 1. unfold M_bind.
  rewrite (getIndex_stored s i h Hi (posts_not_empty _ _ _ Href)).
  rewrite posts_ensureMaps, Href.
  unfold mbind at 1. unfold M_bind.
  rewrite getFileFromGitHub_fetched, Hp; simpl.
  unfold mbind at 1. unfold M_bind, now. fold comment.
  destruct (insertComment post comment parentId) as [post'|]; [|done].
  unfold mbind at 1. unfold M_bind.
  by rewrite (save_fetched s _ _ _ _ Hp).
Qed.

(** A request that gets as far as the search for the parent found the post
    listed and its document in place. *)
Lemma addComment_reaches_post (s s' : Store) (postId content author : string)
    (parentId : option string) (commentId : string) (r : Response) :
  addComment postId content author parentId commentId s = (r, s') →
  status r = 201%nat
  ∨ body r = BError "Parent comment not found or max nesting depth exceeded" →
  content ≠ "" ∧ author ≠ ""
  ∧ ∃ i h ref post postSha,
      fetched s indexPath = Ok (Some (mkResult (DIndex i) h))
      ∧ JsObj.get postId (posts i) = Some ref
      ∧ fetched s (DATA_PATH ++ "/" ++ pr_file ref)
        = Ok (Some (mkResult (DPost post) postSha)).
Proof.
  unfold addComment, route.
  destruct (bool_decide (content = "")) eqn:Hc;
    [by intros [= <- <-] [|]|apply bool_decide_eq_false in Hc].
  destruct (bool_decide (author = "")) eqn:Ha;
    [by intros [= <- <-] [|]|apply bool_decide_eq_false in Ha]; simpl.
  unfold mbind at 1. unfold M_bind.
  destruct (getIndex s) as [[[index h]|e] s1] eqn:Hidx; [|by intros [= <- <-] [|]].
  destruct (JsObj.get postId (posts index)) as [ref|] eqn:Href;
    [|by intros [= <- <-] [|]].
  apply getIndex_result in Hidx as [(-> & i & Hi & ->)|(-> & _)]; [|done].
  unfold mbind at 1. unfold M_bind. rewrite getFileFromGitHub_fetched.
  destruct (fetched s (DATA_PATH ++ "/" ++ pr_file ref)) as [[[d hd]|]|e] eqn:Hp;
    [|by intros [= <- <-] [|]..].
  destruct d as [| | | |post|]; try by intros [= <- <-] [|].
  intros _ _. repeat split; try done. by exists i, h, ref, post, hd.
Qed.

(** A request that is answered 201 has left the index as it was and the
    post document with the comment inserted. *)
Lemma addComment_201 (s s' : Store) (postId content author : string)
    (parentId : option string) (commentId : string) (r : Response) :
  addComment postId content author parentId commentId s = (r, s') →
  status r = 201%nat →
  ∃ i h ref post postSha post',
    fetched s indexPath = Ok (Some (mkResult (DIndex i) h))
    ∧ JsObj.get postId (posts i) = Some ref
    ∧ fetched s (DATA_PATH ++ "/" ++ pr_file ref) = Ok (Some (mkResult (DPost post) postSha))
    ∧ insertComment post (newComment commentId content author parentId (clock s)) parentId
      = Some post'
    ∧ fetched s' indexPath = Ok (Some (mkResult (DIndex i) h))
    ∧ fetched s' (DATA_PATH ++ "/" ++ pr_file ref)
      = Ok (Some (mkResult (DPost post') (Some (nextSha s)))).
Proof.
  intros E H201.
  destruct (addComment_reaches_post _ _ _ _ _ _ _ _ E (or_introl H201))
    as (Hc & Ha & i & h & ref & post & postSha & Hi & Href & Hp).
  rewrite (addComment_existing s postId content author parentId commentId
             i h ref post postSha Hc Ha Hi Href Hp) in E.
  set (path := DATA_PATH ++ "/" ++ pr_file ref) in *.
  destruct (insertComment post _ parentId) as [post'|] eqn:Hins;
    [|by injection E as <- <-].
  exists i, h, ref, post, postSha, post'. repeat (split; [done|]).
  assert (path ≠ indexPath) as Hpath by (by eapply fetched_distinct).
  set (s1 := written path (DPost post') s) in *.
  assert (fetched s1 indexPath = Ok (Some (mkResult (DIndex i) h))) as Hi1.
  { subst s1. by rewrite fetched_written_ne. }
  assert (fetched s1 path = Ok (Some (mkResult (DPost post') (Some (nextSha s))))) as Hp1.
  { subst s1. apply fetched_written_eq. by eapply fetched_no_fault. }
  unfold route in E. unfold mbind, M_bind in E.
  match type of E with
  | context [updateAuthor ?ix ?a ?f s1] =>
      destruct (updateAuthor_cases ix a f s1)
        as [Hu|[(upath & u & hu & Hfu & Hu)|[e Hu]]]; rewrite Hu in E
  end.
  - injection E as <- <-. done.
  - injection E as <- <-.
    rewrite !fetched_written_ne; [done|by eapply fetched_distinct..].
  - injection E as <- <-. done.
Qed.

Lemma insertComment_count (post post' : Post) (comment : Comment) (parentId : option string) :
  insertComment post comment parentId = Some post' →
  p_commentCount post' = p_commentCount post + 1.
Proof.
  unfold insertComment. destruct (truthy parentId).
  - destruct (addReply _ _ _ _); [|done]. by intros [= <-].
  - by intros [= <-].
Qed.

Lemma runAll_cons {Call : Type} (run : Call → Store → Response * Store)
    (call : Call) (calls : list Call) (s : Store) :
  runAll run (call :: calls) s = runAll run calls (run call s).2.
Proof. done. Qed.

(** After a sequence of requests on one post that are all answered 201 the
    counter of the post has grown by the length of the sequence. *)
Lemma commentCount_after (postId : string) (i : IndexDoc) (h : option Sha) (ref : PostRef)
    (calls : list CommentCall) :
  ∀ (s : Store) (post : Post) (postSha : option Sha),
    fetched s indexPath = Ok (Some (mkResult (DIndex i) h)) →
    JsObj.get postId (posts i) = Some ref →
    fetched s (DATA_PATH ++ "/" ++ pr_file ref) = Ok (Some (mkResult (DPost post) postSha)) →
    Forall (λ '(_, _, response, _), status response = 201%nat)
      (trace (runComment postId) calls s) →
    ∃ post',
      stored (runAll (runComment postId) calls s) (DATA_PATH ++ "/" ++ pr_file ref)
      = Some (DPost post')
      ∧ p_commentCount post' = p_commentCount post + Z.of_nat (List.length calls).
Proof.
  induction calls as [|call calls IH]; intros s post postSha Hi Href Hp Hall.
  - exists post. split; [by eapply fetched_stored | simpl; lia].
  - simpl in Hall. rewrite runAll_cons.
    destruct (runComment postId call s) as [r s'] eqn:E.
    apply Forall_cons in Hall as [H201 Hall]. unfold runComment in E.
    destruct (addComment_201 _ _ _ _ _ _ _ _ E H201)
      as (i' & h' & ref' & post0 & sha0 & post1 & Hi' & Href' & Hp' & Hins & Hi1 & Hp1).
    rewrite Hi in Hi'. injection Hi' as <- <-.
    rewrite Href in Href'. injection Href' as <-.
    rewrite Hp in Hp'. injection Hp' as <- <-.
    destruct (IH s' post1 _ Hi1 Href Hp1 Hall) as (post' & Hstored & Hcount).
    exists post'. split; [done|].
    rewrite Hcount, (insertComment_count _ _ _ _ Hins).
    rewrite length_cons. lia.
Qed.

Lemma stored_written_eq (path : string) (data : Doc) (s : Store) :
  stored (written path data s) path = Some data.
Proof. unfold stored, written; simpl. by rewrite lookup_insert_eq. Qed.

Lemma stored_written_ne (path path' : string) (data : Doc) (s : Store) :
  path ≠ path' → stored (written path data s) path' = stored s path'.
Proof. intros H. unfold stored, written; simpl. by rewrite lookup_insert_ne. Qed.

(** Once the post document is written, the rest of the route leaves it. *)
Lemma author_update_keeps_post (index : IndexDoc) (author : string) (change : User → User)
    (response : Response) (path : string) (post' : Post) (s : Store) :
  path ∉ getFault s →
  stored (route (updateAuthor index author change;; mret response)
            (written path (DPost post') s)).2 path
  = Some (DPost post').
Proof.
  intros Hfault. unfold route. unfold mbind, M_bind.
  pose proof (fetched_written_eq path (DPost post') s Hfault) as Hp1.
  destruct (updateAuthor_cases index author change (written path (DPost post') s))
    as [Hu|[(upath & u & hu & Hfu & Hu)|[e Hu]]]; rewrite Hu; simpl.
  - apply stored_written_eq.
  - rewrite stored_written_ne by (by eapply fetched_distinct).
    apply stored_written_eq.
  - apply stored_written_eq.
Qed.

(** C4, the claim as stated fails: the empty string is a parent identifier
    that is not null, no comment of the post has it, and the request is
    answered 201, the comment going to the top level. *)
Lemma empty_parentId_goes_top_level :
  stored helloStore (DATA_PATH ++ "/" ++ pr_file helloRef) = Some (DPost helloPost)
  ∧ ¬ (∃ d, (d ≤ MAX_NESTING_DEPTH)%nat ∧ AtDepth "" d (p_comments helloPost))
  ∧ (addComment helloId "hi" "alice" (Some "") "r-0" helloStore).1
    = mkResponse 201 (BComment (newComment "r-0" "hi" "alice" (Some "") 1000))
  ∧ stored (addComment helloId "hi" "alice" (Some "") "r-0" helloStore).2
      (DATA_PATH ++ "/" ++ pr_file helloRef)
    = Some (DPost (setComments [newComment "r-0" "hi" "alice" (Some "") 1000] 1 helloPost)).
Proof.
  split; [by vm_compute|]. split; [|split; by vm_compute].
  intros (d & _ & H). by apply AtDepth_nil in H.
Qed.

(** C4, amended: with a parent identifier that is not empty, the insertion
    succeeds exactly when the forest has a comment with that identifier at
    depth at most 10, the top level being depth 0; the comment is then
    appended to the replies of the first such comment in document order and
    the post document is written with it; otherwise the request is answered
    404 "Parent comment not found or max nesting depth exceeded" and writes
    nothing.  A parent at depth 10 is found, one at depth 11 or deeper is
    not.  A parent identifier that is null or empty makes a top-level
    comment. *)
Theorem addComment_under_parent (s : Store) (postId content author parentId commentId : string)
    (i : IndexDoc) (h : option Sha) (ref : PostRef) (post : Post) (postSha : option Sha) :
  parentId ≠ "" → content ≠ "" → author ≠ "" →
  fetched s indexPath = Ok (Some (mkResult (DIndex i) h)) →
  JsObj.get postId (posts i) = Some ref →
  fetched s (DATA_PATH ++ "/" ++ pr_file ref) = Ok (Some (mkResult (DPost post) postSha)) →
  let comment := newComment commentId content author (Some parentId) (clock s) in
  let request := addComment postId content author (Some parentId) commentId s in
  (is_Some (insertComment post comment (Some parentId)) ↔
   ∃ d, (d ≤ MAX_NESTING_DEPTH)%nat ∧ AtDepth parentId d (p_comments post))
  ∧ (∀ post', insertComment post comment (Some parentId) = Some post' →
       Pushed parentId comment 0 (p_comments post) (p_comments post')
       ∧ stored request.2 (DATA_PATH ++ "/" ++ pr_file ref) = Some (DPost post'))
  ∧ (insertComment post comment (Some parentId) = None →
       request
       = (mkResponse 404
            (BError "Parent comment not found or max nesting depth exceeded"), s))
  ∧ (AtDepth parentId 10 (p_comments post) →
       is_Some (insertComment post comment (Some parentId)))
  ∧ ((∀ d, AtDepth parentId d (p_comments post) → (11 ≤ d)%nat) →
       insertComment post comment (Some parentId) = None)
  ∧ (∀ c parentId',
       parentId' = None ∨ parentId' = Some "" →
       insertComment post c parentId'
       = Some (setComments (p_comments post ++ [c]) (p_commentCount post + 1) post)).
Proof.
  intros Hpid Hc Ha Hi Href Hp comment request.
  assert (insertComment post comment (Some parentId)
          = (λ comments, setComments comments (p_commentCount post + 1) post)
              <$> addReply parentId comment (p_comments post) 0) as Hins.
  { unfold insertComment; simpl. rewrite bool_decide_eq_false_2 by done; simpl.
    by destruct (addReply _ _ _ _). }
  assert (is_Some (insertComment post comment (Some parentId)) ↔
          ∃ d, (d ≤ MAX_NESTING_DEPTH)%nat ∧ AtDepth parentId d (p_comments post)) as Hiff.
  { rewrite Hins, fmap_is_Some. apply addReply_is_Some. }
  pose proof (addComment_existing s postId content author (Some parentId) commentId
                i h ref post postSha Hc Ha Hi Href Hp) as E.
  fold comment request in E. simpl in E.
  split; [exact Hiff|]. split; [|split; [|split; [|split]]].
  - intros post' Hpost'. rewrite Hpost' in E. split.
    + rewrite Hins in Hpost'.
      destruct (addReply parentId comment (p_comments post) 0) as [comments'|] eqn:Hadd;
        [|done].
      injection Hpost' as <-. by apply addReply_Some.
    + rewrite E. apply author_update_keeps_post. by eapply fetched_no_fault.
  - intros Hnone. by rewrite Hnone in E.
  - intros H10. apply Hiff. exists 10%nat. done.
  - intros Hdeep.
    destruct (insertComment post comment (Some parentId)) as [post'|] eqn:Hsome; [|done].
    destruct (proj1 Hiff (ltac:(eauto))) as (d & Hle & Hd).
    specialize (Hdeep d Hd). unfold MAX_NESTING_DEPTH in Hle. lia.
  - by intros c parentId' [-> | ->].
Qed.

(** C5: a request that is answered 201 leaves the post document with its
    [commentCount] one higher; a request that is answered 404 because the
    parent is missing or too deep leaves the whole store, the post document
    with its counter and its forest included, as it found it; and after a
    sequence of [N] requests on a fresh post that are all answered 201 the
    counter is [N]. *)
Theorem commentCount_counts_insertions (postId : string) :
  (∀ (s s' : Store) (content author : string) (parentId : option string)
      (commentId : string) (r : Response),
     addComment postId content author parentId commentId s = (r, s') →
     status r = 201%nat →
     ∃ i h ref post post',
       fetched s indexPath = Ok (Some (mkResult (DIndex i) h))
       ∧ JsObj.get postId (posts i) = Some ref
       ∧ stored s (DATA_PATH ++ "/" ++ pr_file ref) = Some (DPost post)
       ∧ stored s' (DATA_PATH ++ "/" ++ pr_file ref) = Some (DPost post')
       ∧ p_commentCount post' = p_commentCount post + 1)
  ∧ (∀ (s s' : Store) (content author : string) (parentId : option string)
       (commentId : string) (r : Response),
       addComment postId content author parentId commentId s = (r, s') →
       r = mkResponse 404
             (BError "Parent comment not found or max nesting depth exceeded") →
       s' = s)
  ∧ (∀ (calls : list CommentCall) (s : Store) (i : IndexDoc) (h : option Sha)
       (ref : PostRef) (title content type author community : string) (createdAt : Z)
       (postSha : option Sha),
       fetched s indexPath = Ok (Some (mkResult (DIndex i) h)) →
       JsObj.get postId (posts i) = Some ref →
       fetched s (DATA_PATH ++ "/" ++ pr_file ref)
       = Ok (Some (mkResult
                     (DPost (newPost postId title content type author community createdAt))
                     postSha)) →
       Forall (λ '(_, _, response, _), status response = 201%nat)
         (trace (runComment postId) calls s) →
       ∃ post',
         stored (runAll (runComment postId) calls s) (DATA_PATH ++ "/" ++ pr_file ref)
         = Some (DPost post')
         ∧ p_commentCount post' = Z.of_nat (List.length calls)).
Proof.
  split; [|split].
  - intros s s' content author parentId commentId r E H201.
    destruct (addComment_201 _ _ _ _ _ _ _ _ E H201)
      as (i & h & ref & post & postSha & post' & Hi & Href & Hp & Hins & _ & Hp').
    exists i, h, ref, post, post'. repeat (split; [done|]).
    split; [by eapply fetched_stored|]. split; [by eapply fetched_stored|].
    by eapply insertComment_count.
  - intros s s' content author parentId commentId r E ->.
    destruct (addComment_reaches_post _ _ _ _ _ _ _ _ E (or_intror eq_refl))
      as (Hc & Ha & i & h & ref & post & postSha & Hi & Href & Hp).
    rewrite (addComment_existing s postId content author parentId commentId
               i h ref post postSha Hc Ha Hi Href Hp) in E.
    destruct (insertComment post _ parentId) as [post'|]; [|by injection E as <-].
    unfold route, respond in E. unfold mbind, M_bind in E.
    match type of E with
    | context [updateAuthor ?ix ?a ?f ?s1] =>
        destruct (updateAuthor_cases ix a f s1)
          as [Hu|[(upath & u & hu & Hfu & Hu)|[e Hu]]]; rewrite Hu in E
    end; by injection E.
  - intros calls s i h ref title content type author community createdAt postSha
      Hi Href Hp Hall.
    destruct (commentCount_after postId i h ref calls s _ _ Hi Href Hp Hall)
      as (post' & Hstored & Hcount).
    exists post'. split; [done|]. by rewrite Hcount.
Qed.

Lemma addComment_under_parent_witness :
  is_Some (insertComment deepPost (newComment "r-1" "me too" "alice" (Some "d10") 1000)
             (Some "d10"))
  ∧ addComment helloId "me too" "alice" (Some "d11") "r-1" deepStore
    = (mkResponse 404 (BError "Parent comment not found or max nesting depth exceeded"),
       deepStore).
Proof.
  split.
  - apply (proj1 (proj2 (proj2 (proj2
             (addComment_under_parent deepStore helloId "me too" "alice" "d10" "r-1"
                helloIndex (Some 6%nat) helloRef deepPost (Some 8%nat)
                ltac:(discriminate) ltac:(discriminate) ltac:(discriminate)
                ltac:(vm_compute; reflexivity) ltac:(vm_compute; reflexivity)
                ltac:(vm_compute; reflexivity)))))).
    repeat constructor.
  - apply (proj1 (proj2 (proj2
             (addComment_under_parent deepStore helloId "me too" "alice" "d11" "r-1"
                helloIndex (Some 6%nat) helloRef deepPost (Some 8%nat)
                ltac:(discriminate) ltac:(discriminate) ltac:(discriminate)
                ltac:(vm_compute; reflexivity) ltac:(vm_compute; reflexivity)
                ltac:(vm_compute; reflexivity))))).
    vm_compute. reflexivity.
Defined.

Lemma commentCount_counts_insertions_witness :
  (∃ post',
     stored (runAll (runComment helloId) threeCalls helloStore)
       (DATA_PATH ++ "/" ++ pr_file helloRef)
     = Some (DPost post')
     ∧ p_commentCount post' = 3)
  ∧ (addComment helloId "lost" "alice" (Some "nobody") "k-9" helloStore).2 = helloStore.
Proof.
  split.
  - apply (proj2 (proj2 (commentCount_counts_insertions helloId)) threeCalls helloStore
             helloIndex (Some 6%nat) helloRef "Hello World" "" "text" "alice" "gaming" 1000
             (Some 4%nat)).
    + vm_compute. reflexivity.
    + vm_compute. reflexivity.
    + vm_compute. reflexivity.
    + vm_compute. repeat constructor.
  - apply (proj1 (proj2 (commentCount_counts_insertions helloId))
             helloStore _ "lost" "alice" (Some "nobody") "k-9"
             (mkResponse 404
                (BError "Parent comment not found or max nesting depth exceeded"))).
    + vm_compute. reflexivity.
    + reflexivity.
Defined.

(** ** Communities *)

Lemma communityPath_not_index (community : string) :
  directPath "communities" community ≠ indexPath.
Proof. unfold directPath, indexPath, DATA_PATH. simpl. by intros [=]. Qed.

(** A community document at the direct path is what GET /api/r/:community
    answers with, whatever the index says. *)
(** C9: DELETE /api/r/:community by the super admin on a listed community
    is answered with success and writes the index without the entry of the
    community, and nothing else: every other file of the store, the
    document of the community among them, is as before, so that
    GET /api/r/:community still answers with the community document found
    at its direct path.  No other user name obtains the deletion. *)
Theorem deleteCommunity_index_only (s : Store) (community username : string)
    (i : IndexDoc) (h : option Sha) (ref : CommunityRef) :
  username = "timco" →
  fetched s indexPath = Ok (Some (mkResult (DIndex i) h)) →
  JsObj.get community (communities i) = Some ref →
  let index' :=
    setLastUpdated (clock s)
      (setCommunities (JsObj.del community (communities i)) (ensureMaps i)) in
  let s' := (deleteCommunity community username s).2 in
  deleteCommunity community username s
  = (mkResponse 200 BSuccess, written indexPath (DIndex index') s)
  ∧ JsObj.get community (communities index') = None
  ∧ (∀ other, other ≠ community →
       JsObj.get other (communities index') = JsObj.get other (communities i))
  ∧ users index' = users i ∧ posts index' = posts i
  ∧ (∀ path, path ≠ indexPath → files s' !! path = files s !! path)
  ∧ (∀ d hd, hasProfanity community = false →
       fetched s (directPath "communities" community) = Ok (Some (mkResult d hd)) →
       isEmptyObject d = false →
       getCommunity community s = (mkResponse 200 (BDoc d), s)
       ∧ getCommunity community s' = (mkResponse 200 (BDoc d), s'))
  ∧ (∀ (name : string) (s0 : Store),
       status (deleteCommunity community name s0).1 = 200%nat → name = "timco").
Proof.
  intros -> Hi Href index' s'.
  assert (deleteCommunity community "timco" s
          = (mkResponse 200 BSuccess, written indexPath (DIndex index') s)) as E.
  { unfold deleteCommunity, route; simpl.
    unfold mbind at 1. unfold M_bind.
    rewrite (getIndex_stored s i h Hi (communities_not_empty _ _ _ Href)).
    rewrite communities_ensureMaps, Href.
    unfold updateIndex. unfold mbind, M_bind, now.
    by rewrite (save_fetched s _ _ _ _ Hi). }
  subst s'. rewrite E; simpl.
  split; [done|]. split; [apply JsObj_get_del_eq|].
  split; [intros other Hne; by apply JsObj_get_del_ne|].
  split; [done|]. split; [done|]. split; [|split].
  - intros path Hpath. by rewrite lookup_insert_ne.
  - intros d hd Hclean Hd Hne. split; [by eapply getCommunity_direct|].
    eapply getCommunity_direct; [done| |done].
    rewrite fetched_written_ne; [done|]. intros Heq.
    by apply (communityPath_not_index community).
  - intros name s0. unfold deleteCommunity, route.
    case_bool_decide as Hname; [done|]. simpl. discriminate.
Qed.

Lemma deleteCommunity_index_only_witness :
  deleteCommunity "gaming" "timco" siteStore
  = (mkResponse 200 BSuccess,
     written indexPath
       (DIndex (setLastUpdated 1000 (setCommunities [] siteIndex))) siteStore)
  ∧ getCommunity "gaming" (deleteCommunity "gaming" "timco" siteStore).2
    = (mkResponse 200 (BDoc (DCommunity gaming)),
       (deleteCommunity "gaming" "timco" siteStore).2).
Proof.
  pose proof (deleteCommunity_index_only siteStore "gaming" "timco" siteIndex (Some 3%nat)
                gamingRef ltac:(reflexivity) ltac:(vm_compute; reflexivity)
                ltac:(vm_compute; reflexivity)) as (E & _ & _ & _ & _ & _ & Hget & _).
  split.
  - exact E.
  - apply (Hget (DCommunity gaming) (Some 2%nat)).
    + vm_compute. reflexivity.
    + vm_compute. reflexivity.
    + reflexivity.
Defined.

(** ** Two writers of one community *)

(** A request that reaches its first write has read the community document
    from the store as it is, and holds the revision it read. *)
Lemma updateCommunityRead_held (community : string) (u : CommunityUpdate)
    (s s' : Store) (held : HeldUpdate) :
  updateCommunityRead community u s = (Ok (inr held), s') →
  s' = s
  ∧ ∃ i h ref d,
      fetched s indexPath = Ok (Some (mkResult (DIndex i) h))
      ∧ JsObj.get community (communities i) = Some ref
      ∧ h_path held = DATA_PATH ++ "/" ++ cr_file ref
      ∧ fetched s (h_path held) = Ok (Some (mkResult d (h_sha held)))
      ∧ (∀ i', d ≠ DIndex i')
      ∧ h_indexSha held = h.
Proof.
  unfold updateCommunityRead. unfold mbind at 1. unfold M_bind.
  destruct (getIndex s) as [[[index h]|e] s1] eqn:Hidx; [|done].
  destruct (JsObj.get community (communities index)) as [ref|] eqn:Href; [|done].
  apply getIndex_result in Hidx as [(-> & i & Hi & ->)|(-> & _)]; [|done].
  unfold mbind, M_bind. rewrite getFileFromGitHub_fetched.
  destruct (fetched s (DATA_PATH ++ "/" ++ cr_file ref)) as [[[d hd]|]|e] eqn:Hd;
    [|done..]; simpl.
  destruct (mayEdit d (cu_user u)); simpl; [|done].
  destruct d; try done; intros [= <- <-]; simpl;
    (split; [done|]); eexists i, h, ref, _; repeat (split; [done|]); done.
Qed.

(** The write phase either fails on its first write and leaves the store,
    or installs the community document it holds. *)
Lemma updateCommunityWrite_200 (held : HeldUpdate) (s : Store) :
  status (route (updateCommunityWrite held) s).1 = 200%nat →
  saveFileToGitHub (h_path held) (h_communityData held) (h_sha held) s
  = (Ok tt, written (h_path held) (h_communityData held) s)
  ∧ ((route (updateCommunityWrite held) s).2
     = written (h_path held) (h_communityData held) s
     ∨ ∃ index,
         (route (updateCommunityWrite held) s).2
         = written indexPath (DIndex index)
             (written (h_path held) (h_communityData held) s)).
Proof.
  destruct (route (updateCommunityWrite held) s) as [r s'] eqn:E; simpl.
  unfold updateCommunityWrite, route in E. unfold mbind at 1 in E. unfold M_bind in E.
  destruct (save_cases (h_path held) (h_communityData held) (h_sha held) s)
    as [[e He]|He]; rewrite He in E; [by injection E as <- <-|].
  intros H. split; [done|].
  unfold mbind, M_bind in E. destruct (h_iconChanged held).
  - unfold updateIndex in E. unfold mbind, M_bind, now in E.
    match type of E with
    | context [saveFileToGitHub ?p ?d ?h ?s1] =>
        destruct (save_cases p d h s1) as [[e He']|He']; rewrite He' in E
    end.
    + injection E as <- <-. done.
    + injection E as <- <-. right. by eexists.
  - injection E as <- <-. by left.
Qed.

(** C8, the claim as stated fails: two moderators edit gaming from the same
    read revision, one its description and one its banner.  The first
    write succeeds; the second is refused with 409 and the request is
    answered 500 at once, without a second read or write: gaming keeps the
    new description and never gets the banner. *)
Lemma conflict_loses_update :
  updateCommunityRead "gaming" newDescription siteStore
  = (Ok (inr (gamingHeld newDescription)), siteStore)
  ∧ updateCommunityRead "gaming" newBanner siteStore
    = (Ok (inr (gamingHeld newBanner)), siteStore)
  ∧ updateCommunityRace "gaming" newDescription newBanner siteStore
    = (mkResponse 200 (BDoc (DCommunity (applyCommunityUpdate newDescription gaming))),
       mkResponse 500 (BException (HttpError 409)),
       written "data/communities/gaming.json"
         (DCommunity (applyCommunityUpdate newDescription gaming)) siteStore)
  ∧ (∀ final c,
       final = (updateCommunityRace "gaming" newDescription newBanner siteStore).2 →
       stored final "data/communities/gaming.json" = Some (DCommunity c) →
       co_description c = "Games and more" ∧ co_bannerUrl c ≠ "banner.png").
Proof.
  assert (updateCommunityRace "gaming" newDescription newBanner siteStore
    = (mkResponse 200 (BDoc (DCommunity (applyCommunityUpdate newDescription gaming))),
       mkResponse 500 (BException (HttpError 409)),
       written "data/communities/gaming.json"
         (DCommunity (applyCommunityUpdate newDescription gaming)) siteStore)) as E
    by (by vm_compute).
  split; [by vm_compute|]. split; [by vm_compute|]. split; [exact E|].
  intros final c -> Hc. rewrite E in Hc. simpl in Hc.
  rewrite stored_written_eq in Hc. injection Hc as <-. by split.
Qed.

(** C8, amended: when a compare-and-swap write of PUT /api/r/:community
    fails with Conflict because the stored revision is no longer the one
    held since the read, the route neither rereads nor retries: it answers
    500 with the conflict.  When the refused write is the first one of the
    route, that of the community document, nothing is written; when it is
    the write of the index that follows an icon change, the community
    document is already written and stays.  Of two requests on one
    community that read the same revision, the first to write is answered
    200 and the second is answered 500; the store stays as the first one
    left it, with the document of the first one in place and the update of
    the second one not applied. *)
Theorem updateCommunity_conflict_surfaces (community : string) (a b : CommunityUpdate)
    (s : Store) (ha hb : HeldUpdate) :
  freshRevisions s →
  updateCommunityRead community a s = (Ok (inr ha), s) →
  updateCommunityRead community b s = (Ok (inr hb), s) →
  let won := route (updateCommunityWrite ha) s in
  won.1 = mkResponse 200 (BDoc (h_communityData ha))
  ∧ updateCommunityRace community a b s
    = (won.1, mkResponse 500 (BException (HttpError 409)), won.2)
  ∧ route (updateCommunityWrite hb) won.2
    = (mkResponse 500 (BException (HttpError 409)), won.2)
  ∧ stored won.2 (h_path hb) = Some (h_communityData ha)
  ∧ (∀ later f,
       files later !! h_path ha = Some f →
       h_sha ha ≠ Some (f_sha f) →
       route (updateCommunityWrite ha) later
       = (mkResponse 500 (BException (HttpError 409)), later))
  ∧ (∀ later f,
       h_iconChanged ha = true →
       fetched later (h_path ha) = fetched s (h_path ha) →
       files later !! indexPath = Some f →
       h_indexSha ha ≠ Some (f_sha f) →
       route (updateCommunityWrite ha) later
       = (mkResponse 500 (BException (HttpError 409)),
          written (h_path ha) (h_communityData ha) later)).
Proof.
  intros Hfresh Ea Eb won.
  destruct (updateCommunityRead_held _ _ _ _ _ Ea)
    as (_ & i & h & ref & d & Hi & Href & Hpa & Hda & Hnot & Hisha).
  destruct (updateCommunityRead_held _ _ _ _ _ Eb)
    as (_ & i' & h' & ref' & d' & Hi' & Href' & Hpb & Hdb & _ & _).
  rewrite Hi in Hi'. injection Hi' as <- <-.
  rewrite Href in Href'. injection Href' as <-.
  assert (h_path hb = h_path ha) as Hpath by congruence.
  rewrite Hpath in *. rewrite Hda in Hdb. injection Hdb as <- Hsha.
  destruct (fetched_Some_inv _ _ _ _ Hda) as (f & Hf & Hshaf & _).
  assert (f_sha f ≠ nextSha s) as Hstale.
  { pose proof (map_Forall_lookup_1 _ _ _ _ Hfresh Hf) as Hlt. simpl in Hlt. lia. }
  assert (h_path ha ≠ indexPath) as Hne.
  { intros Heq. rewrite Heq, Hi in Hda. injection Hda as <- _. by eapply Hnot. }
  assert (won.1 = mkResponse 200 (BDoc (h_communityData ha))) as Hfirst.
  { subst won. unfold updateCommunityWrite, route. unfold mbind at 1. unfold M_bind.
    rewrite (save_fetched s _ _ _ _ Hda).
    unfold mbind, M_bind. destruct (h_iconChanged ha); [|done].
    unfold updateIndex. unfold mbind, M_bind, now.
    erewrite save_fetched; [done|].
    rewrite fetched_written_ne by done. rewrite Hisha. exact Hi. }
  assert (status won.1 = 200%nat) as H200 by (by rewrite Hfirst).
  destruct (updateCommunityWrite_200 ha s H200) as [_ Hwon]. fold won in Hwon.
  assert (files won.2 !! h_path ha
          = Some (mkFile (RJson (h_communityData ha)) (nextSha s))) as Hfile.
  { destruct Hwon as [-> |[index ->]]; simpl.
    - by rewrite lookup_insert_eq.
    - rewrite lookup_insert_ne by done. by rewrite lookup_insert_eq. }
  assert (route (updateCommunityWrite hb) won.2
          = (mkResponse 500 (BException (HttpError 409)), won.2)) as Hlost.
  { unfold updateCommunityWrite, route. unfold mbind at 1. unfold M_bind.
    rewrite Hpath, <- Hsha, Hshaf.
    by rewrite (save_conflict _ _ _ _ _ Hfile Hstale). }
  split; [exact Hfirst|]. split; [|split; [exact Hlost|split; [|split]]].
  - unfold updateCommunityRace. rewrite Ea, Eb. simpl.
    fold won. destruct won as [ra s3] eqn:Hw. simpl in *. by rewrite Hlost.
  - unfold stored. by rewrite Hfile.
  - intros later f' Hf' Hold.
    unfold updateCommunityWrite, route. unfold mbind at 1. unfold M_bind.
    rewrite Hshaf in Hold |- *.
    rewrite (save_conflict _ _ _ _ _ Hf'); [done|congruence].
  - intros later f' Hicon Hsame Hf' Hold.
    destruct (fetched_Some_inv _ _ _ _ Hi) as (fi & Hfi & Hshai & _).
    unfold updateCommunityWrite, route. unfold mbind at 1. unfold M_bind.
    rewrite Hda in Hsame. rewrite (save_fetched later _ _ _ _ Hsame).
    unfold mbind, M_bind. rewrite Hicon.
    unfold updateIndex. unfold mbind, M_bind, now.
    rewrite Hisha, Hshai in Hold |- *.
    rewrite (save_conflict _ _ f'); [done| |congruence].
    unfold written; simpl. by rewrite lookup_insert_ne.
Qed.

Lemma updateCommunity_conflict_surfaces_witness :
  (route (updateCommunityWrite (gamingHeld newDescription)) siteStore).1
  = mkResponse 200 (BDoc (DCommunity (applyCommunityUpdate newDescription gaming)))
  ∧ updateCommunityRace "gaming" newDescription newBanner siteStore
    = ((route (updateCommunityWrite (gamingHeld newDescription)) siteStore).1,
       mkResponse 500 (BException (HttpError 409)),
       (route (updateCommunityWrite (gamingHeld newDescription)) siteStore).2)
  ∧ (let later := (register sampleHash "bob" "secret" "" "$2a$10$salt" "u-2" siteStore).2 in
     route (updateCommunityWrite iconHeld) later
     = (mkResponse 500 (BException (HttpError 409)),
        written "data/communities/gaming.json"
          (DCommunity (applyCommunityUpdate newIcon gaming)) later)).
Proof.
  pose proof (updateCommunity_conflict_surfaces "gaming" newDescription newBanner
                siteStore (gamingHeld newDescription) (gamingHeld newBanner)
                ltac:(apply (bool_decide_unpack _); vm_compute; exact I)
                ltac:(vm_compute; reflexivity) ltac:(vm_compute; reflexivity))
    as (Hfirst & Hrace & _).
  split; [exact Hfirst|]. split; [exact Hrace|].
  intros later.
  eapply (proj2 (proj2 (proj2 (proj2 (proj2
            (updateCommunity_conflict_surfaces "gaming" newIcon newIcon
               siteStore iconHeld iconHeld
               ltac:(apply (bool_decide_unpack _); vm_compute; exact I)
               ltac:(vm_compute; reflexivity) ltac:(vm_compute; reflexivity))))))).
  - reflexivity.
  - vm_compute. reflexivity.
  - vm_compute. reflexivity.
  - vm_compute. discriminate.
Defined.

(** ** The password of a user *)

Lemma route_body (P : Body → Prop) (handler : M Response) (s : Store) :
  (∀ e, P (BException e)) →
  (∀ r s', handler s = (Ok r, s') → P (body r)) →
  P (body (route handler s).1).
Proof.
  intros He Hok. unfold route.
  destruct (handler s) as [[r|e] s'] eqn:E; simpl; [by eapply Hok | apply He].
Qed.

Lemma register_body (hash : string → string → string)
    (username password email salt userId : string) (s : Store) :
  passwordsIn (body (register hash username password email salt userId s).1) = [].
Proof.
  unfold register. apply route_body; [done|]. intros r s'.
  unfold updateIndex. route_cases.
Qed.

Lemma login_body (compare : string → string → bool) (username password : string)
    (s : Store) :
  passwordsIn (body (login compare username password s).1) = [].
Proof.
  unfold login. apply route_body; [done|]. intros r s'. route_cases.
Qed.

Lemma updateUserProfile_body (username : string) (avatarUrl about : option string)
    (s : Store) :
  passwordsIn (body (updateUserProfile username avatarUrl about s).1) = [].
Proof.
  unfold updateUserProfile. apply route_body; [done|]. intros r s'.
  unfold updateIndex. route_cases.
Qed.

Lemma register_201 (hash : string → string → string)
    (username password email salt userId : string) (s : Store) :
  status (register hash username password email salt userId s).1 = 201%nat →
  ∃ u,
    stored (register hash username password email salt userId s).2
      (DATA_PATH ++ "/users/" ++ username ++ ".json") = Some (DUser u)
    ∧ u_password u = Some (hash password salt)
    ∧ body (register hash username password email salt userId s).1
      = BUser (DUser (withoutPassword u)).
Proof.
  destruct (register hash username password email salt userId s) as [r s'] eqn:E.
  cbn [fst snd]. intros H201. unfold register, route in E.
  destruct (bool_decide (username = "") || bool_decide (password = ""));
    [by injection E as <- <-|].
  destruct (hasProfanity username); [by injection E as <- <-|].
  unfold mbind at 1 in E. unfold M_bind in E.
  destruct (getIndex s) as [[[index h]|e] s1]; [|by injection E as <- <-].
  destruct (JsObj.get username (users index)); [by injection E as <- <-|].
  unfold mbind at 1 in E. unfold M_bind, now in E.
  unfold mbind at 1 in E. unfold M_bind in E.
  match type of E with
  | context [saveFileToGitHub ?p ?d ?h ?s1] =>
      destruct (save_cases p d h s1) as [[e He]|He]; rewrite He in E;
      [by injection E as <- <-|]
  end.
  unfold updateIndex in E. unfold mbind, M_bind, now in E.
  match type of E with
  | context [saveFileToGitHub ?p ?d ?h ?s1] =>
      destruct (save_cases p d h s1) as [[e He']|He']; rewrite He' in E;
      [by injection E as <- <-|]
  end.
  injection E as <- <-. eexists. split.
  { rewrite stored_written_ne; [apply stored_written_eq|].
    unfold indexPath, DATA_PATH; simpl. by intros [=]. }
  split; reflexivity.
Qed.

Lemma login_200 (compare : string → string → bool) (username password : string)
    (s : Store) :
  status (login compare username password s).1 = 200%nat →
  ∃ path u stored_hash,
    stored s path = Some (DUser u)
    ∧ u_password u = Some stored_hash
    ∧ compare password stored_hash = true
    ∧ body (login compare username password s).1 = BUser (DUser (withoutPassword u)).
Proof.
  destruct (login compare username password s) as [r s'] eqn:E.
  cbn [fst snd]. intros H200. unfold login, route in E.
  destruct (bool_decide (username = "") || bool_decide (password = ""));
    [by injection E as <- <-|].
  unfold mbind at 1 in E. unfold M_bind in E.
  destruct (getIndex s) as [[[index h]|e] s1] eqn:Hidx; [|by injection E as <- <-].
  destruct (JsObj.get username (users index)) as [ref|] eqn:Href;
    [|by injection E as <- <-].
  apply getIndex_result in Hidx as [(-> & _)|(-> & _)]; [|done].
  unfold mbind in E. unfold M_bind in E. rewrite getFileFromGitHub_fetched in E.
  destruct (fetched s (DATA_PATH ++ "/" ++ ur_file ref)) as [[[d hd]|]|e] eqn:Hf;
    [|by injection E as <- <-..]; simpl in E.
  destruct d as [| |u| | |]; try by injection E as <- <-.
  destruct (u_password u) as [p|] eqn:Hp; [|by injection E as <- <-].
  destruct (compare password p) eqn:Hc; [|by injection E as <- <-].
  injection E as <- <-. exists (DATA_PATH ++ "/" ++ ur_file ref), u, p.
  split; [by eapply fetched_stored|]. done.
Qed.

(** ** Retention *)

Lemma deleteFileFromGitHub_removed (path : string) (s : Store) :
  deleteFileFromGitHub path s = (Ok tt, removed path s).
Proof.
  unfold deleteFileFromGitHub, try_catch. unfold mbind, M_bind.
  rewrite getFileFromGitHub_fetched. unfold fetched, removed, deleteFile.
  destruct (decide (path ∈ getFault s)); [done|].
  destruct (files s !! path) as [f|] eqn:Hf; [|done]. simpl.
  destruct (decide (path ∈ deleteFault s)); [done|].
  rewrite Hf. by rewrite decide_True.
Qed.

Lemma removed_frame (path : string) (s : Store) :
  nextSha (removed path s) = nextSha s ∧ clock (removed path s) = clock s
  ∧ getFault (removed path s) = getFault s
  ∧ deleteFault (removed path s) = deleteFault s.
Proof.
  unfold removed. destruct (decide (path ∈ getFault s)); [done|].
  destruct (files s !! path); [|done].
  by destruct (decide (path ∈ deleteFault s)).
Qed.

Lemma removed_lookup_ne (path p : string) (s : Store) :
  path ≠ p → files (removed path s) !! p = files s !! p.
Proof.
  intros Hne. unfold removed. destruct (decide (path ∈ getFault s)); [done|].
  destruct (files s !! path); [|done].
  destruct (decide (path ∈ deleteFault s)); [done|]. simpl.
  by rewrite lookup_delete_ne.
Qed.

Lemma removed_lookup_None (path p : string) (s : Store) :
  files s !! p = None → files (removed path s) !! p = None.
Proof.
  intros Hnone. destruct (decide (path = p)) as [->|Hne].
  - unfold removed. destruct (decide (p ∈ getFault s)); [done|]. by rewrite Hnone.
  - by rewrite removed_lookup_ne.
Qed.

Lemma removed_lookup_eq (path : string) (s : Store) :
  path ∉ getFault s → path ∉ deleteFault s → files (removed path s) !! path = None.
Proof.
  intros Hg Hd. unfold removed. rewrite decide_False by done.
  destruct (files s !! path) eqn:Hf; [|done].
  rewrite decide_False by done. simpl. apply lookup_delete_eq.
Qed.

(** A delete of a path that holds nothing changes nothing and raises
    nothing. *)
Lemma removed_absent (path : string) (s : Store) :
  files s !! path = None → removed path s = s.
Proof.
  intros Hnone. unfold removed. destruct (decide (path ∈ getFault s)); [done|].
  by rewrite Hnone.
Qed.

Lemma removeAll_frame (paths : list string) (s : Store) :
  nextSha (removeAll paths s) = nextSha s ∧ clock (removeAll paths s) = clock s
  ∧ getFault (removeAll paths s) = getFault s
  ∧ deleteFault (removeAll paths s) = deleteFault s.
Proof.
  revert s. induction paths as [|path paths IH]; intros s; [done|]. simpl.
  destruct (IH (removed path s)) as (-> & -> & -> & ->). apply removed_frame.
Qed.

Lemma removeAll_lookup_notin (paths : list string) (p : string) (s : Store) :
  p ∉ paths → files (removeAll paths s) !! p = files s !! p.
Proof.
  revert s. induction paths as [|path paths IH]; intros s Hnotin; [done|]. simpl.
  apply not_elem_of_cons in Hnotin as [Hne Hnotin].
  rewrite IH by done. by apply removed_lookup_ne.
Qed.

Lemma removeAll_lookup_None (paths : list string) (p : string) (s : Store) :
  files s !! p = None → files (removeAll paths s) !! p = None.
Proof.
  revert s. induction paths as [|path paths IH]; intros s Hnone; [done|]. simpl.
  by apply IH, removed_lookup_None.
Qed.

Lemma removeAll_lookup_in (paths : list string) (p : string) (s : Store) :
  p ∈ paths → p ∉ getFault s → p ∉ deleteFault s →
  files (removeAll paths s) !! p = None.
Proof.
  revert s. induction paths as [|path paths IH]; intros s Hin Hg Hd.
  - by apply elem_of_nil in Hin.
  - simpl. destruct (decide (path = p)) as [->|Hne].
    + by apply removeAll_lookup_None, removed_lookup_eq.
    + apply elem_of_cons in Hin as [->|Hin]; [done|].
      destruct (removed_frame path s) as (_ & _ & Hg' & Hd').
      apply IH; [done|by rewrite Hg'|by rewrite Hd'].
Qed.

Lemma fetched_removeAll_notin (paths : list string) (p : string) (s : Store) :
  p ∉ paths → fetched (removeAll paths s) p = fetched s p.
Proof.
  intros Hnotin. unfold fetched.
  destruct (removeAll_frame paths s) as (_ & _ & -> & _).
  by rewrite removeAll_lookup_notin.
Qed.

Lemma dropPosts_frame (postIds : list string) (index : IndexDoc) :
  users (dropPosts postIds index) = users index
  ∧ communities (dropPosts postIds index) = communities index.
Proof.
  revert index. induction postIds as [|postId rest IH]; intros index; [done|]. simpl.
  by destruct (IH (setPosts (JsObj.del postId (posts index)) index)) as [-> ->].
Qed.

Lemma dropPosts_get (postIds : list string) (index : IndexDoc) (postId : string) :
  JsObj.get postId (posts (dropPosts postIds index))
  = if decide (postId ∈ postIds) then None else JsObj.get postId (posts index).
Proof.
  revert index. induction postIds as [|first rest IH]; intros index.
  - destruct (decide (postId ∈ [])) as [Hin|]; [by apply elem_of_nil in Hin|done].
  - change (dropPosts (first :: rest) index)
      with (dropPosts rest (setPosts (JsObj.del first (posts index)) index)).
    rewrite IH.
    change (posts (setPosts (JsObj.del first (posts index)) index))
      with (JsObj.del first (posts index)).
    destruct (decide (postId ∈ rest)) as [Hin|Hnotin];
      destruct (decide (postId ∈ first :: rest)) as [Hin'|Hnotin']; try done.
    + exfalso. apply Hnotin'. by right.
    + apply elem_of_cons in Hin' as [->|?]; [|done]. apply JsObj_get_del_eq.
    + apply JsObj_get_del_ne. intros ->. apply Hnotin'. left.
Qed.

Lemma JsObj_get_NoDup {V : Type} (o : list (string * V)) (k : string) (v : V) :
  NoDup o.*1 → (k, v) ∈ o → JsObj.get k o = Some v.
Proof.
  induction o as [|[k' v'] o IH]; simpl; [by intros _ ?%elem_of_nil|].
  intros [Hnotin Hnodup]%NoDup_cons [[= -> ->]|Hin]%elem_of_cons.
  - by rewrite decide_True.
  - rewrite decide_False; [by apply IH|].
    intros ->. apply Hnotin. by apply (list_elem_of_fmap_2 fst _ (k, v)).
Qed.

Lemma inactive_emptyForest (meta : PostRef) (s : Store) :
  inactive (DATA_PATH ++ "/" ++ pr_file meta) s = (Ok (emptyForest s meta), s).
Proof.
  unfold inactive, try_catch, emptyForest, postPath. unfold mbind, M_bind.
  rewrite getFileFromGitHub_fetched.
  by destruct (fetched s (DATA_PATH ++ "/" ++ pr_file meta)) as [[[d h]|]|e].
Qed.

Lemma expired_aged (today retentionDays : Z) (meta : PostRef) :
  expired today ((λ days, days * 24 * 60 * 60 * 1000) <$> Some retentionDays) meta
  = aged today retentionDays meta.
Proof. unfold expired, aged; simpl. apply bool_decide_ext. lia. Qed.

(** The first loop lists the candidates, in index order, and writes
    nothing: an entry whose fetch fails is passed over. *)
Lemma identify_candidates (retentionDays : Z) (entries : list (string * PostRef))
    (s : Store) :
  identify (clock s) ((λ days, days * 24 * 60 * 60 * 1000) <$> Some retentionDays)
    entries s
  = (Ok (filter (λ entry, candidate s retentionDays entry = true) entries).*1, s).
Proof.
  induction entries as [|[postId meta] rest IH]; [done|].
  cbn [identify]. unfold mbind at 1. unfold M_bind.
  rewrite expired_aged.
  destruct (aged (clock s) retentionDays meta) eqn:Haged.
  - rewrite inactive_emptyForest. unfold mbind, M_bind. rewrite IH.
    destruct (emptyForest s meta) eqn:Hempty.
    + rewrite filter_cons_True; [done|]. unfold candidate; simpl.
      by rewrite Haged, Hempty.
    + rewrite filter_cons_False; [done|]. unfold candidate; simpl.
      by rewrite Haged, Hempty.
  - unfold mbind, M_bind, mret, M_ret. cbv beta iota. rewrite IH.
    rewrite filter_cons_False; [done|]. unfold candidate; simpl. by rewrite Haged.
Qed.

(** The second loop deletes the file of every identifier of its batch and
    the entry of each from the index, whatever happens to the deletes. *)
Lemma execute_batch (entries : list (string * PostRef)) :
  ∀ (index : IndexDoc) (changed : bool) (s : Store),
    NoDup entries.*1 →
    (∀ postId meta, (postId, meta) ∈ entries →
                    JsObj.get postId (posts index) = Some meta) →
    execute entries.*1 index changed s
    = (Ok (dropPosts entries.*1 index, changed || bool_decide (entries ≠ [])),
       removeAll (postPath <$> entries.*2) s).
Proof.
  induction entries as [|[postId meta] rest IH]; intros index changed s Hnodup Hget.
  - simpl. by rewrite orb_false_r.
  - cbn [fmap list_fmap fst snd execute].
    rewrite (Hget postId meta) by left.
    unfold mbind at 1. unfold M_bind. rewrite deleteFileFromGitHub_removed.
    apply NoDup_cons in Hnodup as [Hnotin Hnodup].
    rewrite IH; [|done|].
    + rewrite (bool_decide_eq_true_2 ((postId, meta) :: rest ≠ [])) by done.
      by rewrite orb_true_r.
    + intros postId' meta' Hin.
      change (posts (setPosts (JsObj.del postId (posts index)) index))
        with (JsObj.del postId (posts index)).
      rewrite JsObj_get_del_ne; [apply Hget; by right|].
      intros ->. apply Hnotin. by apply (list_elem_of_fmap_2 fst _ (postId', meta')).
Qed.

Lemma getConfig_reads (s : Store) : (getConfig s).2 = s.
Proof.
  unfold getConfig. unfold mbind, M_bind. rewrite getFileFromGitHub_fetched.
  destruct (fetched s configPath) as [[[d h]|]|e]; try done; simpl.
  destruct (isEmptyObject d); [done|]. by destruct d.
Qed.

Lemma doomed_listed (s : Store) (retentionDays : Z) (i : IndexDoc)
    (entry : string * PostRef) :
  entry ∈ doomed s retentionDays i →
  entry ∈ posts i
  ∧ aged (clock s) retentionDays entry.2 = true ∧ emptyForest s entry.2 = true.
Proof.
  unfold doomed. intros (k & Hk & _)%elem_of_take.
  apply list_elem_of_lookup_2, list_elem_of_filter in Hk as [Hcand Hin].
  split; [done|]. unfold candidate in Hcand. by apply andb_true_iff in Hcand.
Qed.

Lemma doomed_NoDup (s : Store) (retentionDays : Z) (i : IndexDoc) :
  NoDup (posts i).*1 → NoDup (doomed s retentionDays i).*1.
Proof.
  unfold doomed. intros Hnodup. eapply sublist_NoDup; [exact Hnodup|].
  apply fmap_sublist. etrans; [apply sublist_take | apply sublist_filter].
Qed.

Lemma postRefsSound_listed (s : Store) (i : IndexDoc) (entry : string * PostRef) :
  postRefsSound s i = true → entry ∈ posts i → holdsPost s entry.2 = true.
Proof.
  unfold postRefsSound. rewrite forallb_forall. intros Hall Hin.
  apply Hall. by apply list_elem_of_In.
Qed.

(** The file of a doomed post holds a post without comments, or what is
    left of a blank one. *)
Lemma doomed_stored (s : Store) (retentionDays : Z) (i : IndexDoc)
    (entry : string * PostRef) :
  postRefsSound s i = true →
  entry ∈ doomed s retentionDays i →
  (∃ post, stored s (postPath entry.2) = Some (DPost post) ∧ p_comments post = [])
  ∨ ∃ o, stored s (postPath entry.2) = Some (DPartial o).
Proof.
  intros Hsound (Hin & _ & Hempty)%doomed_listed.
  pose proof (postRefsSound_listed _ _ _ Hsound Hin) as Hholds.
  unfold emptyForest in Hempty. unfold holdsPost in Hholds.
  destruct (fetched s (postPath entry.2)) as [[[d h]|]|e] eqn:Hf; try done.
  apply fetched_stored in Hf. rewrite Hf in Hholds.
  destruct d as [o| | | |post|]; try done; simpl in Hempty.
  - right. eauto.
  - left. exists post. split; [done|]. by apply bool_decide_eq_true in Hempty.
Qed.

(** The file of a doomed post is not the index. *)
Lemma doomed_not_index (s : Store) (retentionDays : Z) (i : IndexDoc) (h : option Sha) :
  postRefsSound s i = true →
  fetched s indexPath = Ok (Some (mkResult (DIndex i) h)) →
  indexPath ∉ postPath <$> (doomed s retentionDays i).*2.
Proof.
  intros Hsound Hi (meta & Hpath & Hin)%list_elem_of_fmap.
  apply list_elem_of_fmap in Hin as ([postId meta'] & -> & Hin).
  apply (doomed_stored _ _ _ _ Hsound) in Hin. cbn [snd] in *.
  rewrite <- Hpath, (fetched_stored _ _ _ _ Hi) in Hin.
  by destruct Hin as [(post & [=] & _)|(o & [=])].
Qed.

(** One run of the retention job. *)
Lemma cleanupOldPosts_swept (s : Store) (retentionDays : Z) (i : IndexDoc) (h : option Sha) :
  (getConfig s).1 = Ok (Some retentionDays) →
  fetched s indexPath = Ok (Some (mkResult (DIndex i) h)) →
  isEmptyObject (DIndex i) = false →
  NoDup (posts i).*1 →
  postRefsSound s i = true →
  cleanupOldPosts s = (Ok tt, swept s retentionDays i).
Proof.
  intros Hcfg Hi Hne Hnodup Hsound. unfold cleanupOldPosts, try_catch.
  unfold mbind at 1. unfold M_bind.
  pose proof (getConfig_reads s) as Hcs.
  destruct (getConfig s) as [cfg s0]. simpl in Hcfg, Hcs. subst cfg s0.
  unfold mbind at 1. unfold M_bind. rewrite (getIndex_stored s i h Hi Hne).
  unfold mbind at 1. unfold M_bind, now.
  unfold mbind at 1. unfold M_bind.
  rewrite posts_ensureMaps, identify_candidates.
  rewrite <- fmap_take. fold (doomed s retentionDays i).
  unfold mbind at 1. unfold M_bind.
  rewrite execute_batch.
  - unfold swept. destruct (decide (doomed s retentionDays i = [])) as [Hnil|Hcons].
    + rewrite Hnil. done.
    + rewrite bool_decide_eq_true_2 by done. simpl.
      unfold updateIndex. unfold mbind, M_bind, now.
      destruct (removeAll_frame (postPath <$> (doomed s retentionDays i).*2) s)
        as (_ & -> & _ & _).
      erewrite save_fetched; [done|].
      rewrite fetched_removeAll_notin; [exact Hi|]. by eapply doomed_not_index.
  - by apply doomed_NoDup.
  - intros postId meta Hin. rewrite posts_ensureMaps.
    apply JsObj_get_NoDup; [done|]. by apply doomed_listed in Hin as [? _].
Qed.

Lemma fetched_no_fault_empty (s : Store) (meta : PostRef) :
  emptyForest s meta = true → postPath meta ∉ getFault s.
Proof.
  unfold emptyForest.
  destruct (fetched s (postPath meta)) as [x|e] eqn:Hf; [|done].
  intros _. by eapply fetched_no_fault.
Qed.

Lemma swept_lookup (s : Store) (retentionDays : Z) (i : IndexDoc) (path : string) :
  path ≠ indexPath →
  path ∉ postPath <$> (doomed s retentionDays i).*2 →
  files (swept s retentionDays i) !! path = files s !! path.
Proof.
  intros Hne Hnotin. unfold swept.
  destruct (decide (doomed s retentionDays i = [])); [done|]. simpl.
  rewrite lookup_insert_ne by done. by apply removeAll_lookup_notin.
Qed.

(** C7: one run of the retention job, on a store whose index is in place.
    Its batch is made of the first five, in index order, of the listed
    posts whose age exceeds [retentionDays] and whose fetched document has
    no comment.  For each post of the batch the run deletes the file and
    the index entry, and it writes nothing else: every other file, the
    community and user documents with their lists of posts among them, is
    as before.  A post with a comment is not in the batch and keeps its
    file.  The delete of a path that holds nothing is no error and changes
    nothing; a fetch that fails passes the post over and a delete that
    fails leaves the file, and neither stops the run, which never raises. *)
Theorem cleanupOldPosts_retention (s : Store) (retentionDays : Z) (i : IndexDoc)
    (h : option Sha) :
  (getConfig s).1 = Ok (Some retentionDays) →
  fetched s indexPath = Ok (Some (mkResult (DIndex i) h)) →
  isEmptyObject (DIndex i) = false →
  NoDup (posts i).*1 →
  postRefsSound s i = true →
  let listed := filter (λ entry, candidate s retentionDays entry = true) (posts i) in
  let batch := doomed s retentionDays i in
  let s' := (cleanupOldPosts s).2 in
  (cleanupOldPosts s).1 = Ok tt
  ∧ batch = take 5 listed
  ∧ (List.length batch ≤ 5)%nat
  ∧ (∀ entry, entry ∈ listed ↔
       entry ∈ posts i ∧ aged (clock s) retentionDays entry.2 = true
       ∧ emptyForest s entry.2 = true)
  ∧ (∀ postId meta, (postId, meta) ∈ batch → postPath meta ∉ deleteFault s →
       files s' !! postPath meta = None)
  ∧ (batch ≠ [] →
     ∃ index',
       stored s' indexPath = Some (DIndex index')
       ∧ (∀ postId, JsObj.get postId (posts index')
                    = if decide (postId ∈ batch.*1) then None
                      else JsObj.get postId (posts i))
       ∧ users index' = users i ∧ communities index' = communities i)
  ∧ (batch = [] → s' = s)
  ∧ (∀ path, path ≠ indexPath → path ∉ postPath <$> batch.*2 →
       files s' !! path = files s !! path)
  ∧ (∀ path d, stored s path = Some d →
       (∃ c, d = DCommunity c) ∨ (∃ u, d = DUser u) →
       stored s' path = Some d)
  ∧ (∀ postId meta post postSha,
       (postId, meta) ∈ posts i →
       fetched s (postPath meta) = Ok (Some (mkResult (DPost post) postSha)) →
       p_comments post ≠ [] →
       (postId ∉ batch.*1) ∧ files s' !! postPath meta = files s !! postPath meta)
  ∧ (∀ path s0, files s0 !! path = None → deleteFileFromGitHub path s0 = (Ok tt, s0)).
Proof.
  intros Hcfg Hi Hne Hnodup Hsound listed batch s'.
  pose proof (cleanupOldPosts_swept s retentionDays i h Hcfg Hi Hne Hnodup Hsound) as E.
  assert (s' = swept s retentionDays i) as Hs' by (subst s'; by rewrite E).
  assert (indexPath ∉ getFault s) as Hfault by (by eapply fetched_no_fault).
  assert (∀ path, path ∈ postPath <$> batch.*2 →
                  ∃ postId meta,
                    (postId, meta) ∈ batch ∧ path = postPath meta
                    ∧ ((∃ post, stored s path = Some (DPost post))
                       ∨ ∃ o, stored s path = Some (DPartial o))) as Hpaths.
  { intros path (meta & -> & Hin)%list_elem_of_fmap.
    apply list_elem_of_fmap in Hin as ([postId meta'] & -> & Hin).
    exists postId, meta'. split; [done|]. split; [done|].
    destruct (doomed_stored _ _ _ _ Hsound Hin) as [(post & ? & _)|?]; eauto. }
  assert (indexPath ∉ postPath <$> batch.*2) as Hnotidx
    by (by eapply doomed_not_index).
  split; [by rewrite E|]. split; [done|].
  split; [subst batch; unfold doomed; rewrite length_take; lia|].
  split.
  { intros entry. subst listed. rewrite list_elem_of_filter. unfold candidate.
    rewrite andb_true_iff. tauto. }
  split.
  { intros postId meta Hin Hdel. rewrite Hs'. unfold swept.
    destruct (decide (doomed s retentionDays i = [])) as [Hnil|_].
    { fold batch in Hnil. rewrite Hnil in Hin. by apply elem_of_nil in Hin. }
    simpl. pose proof (doomed_listed _ _ _ _ Hin) as (_ & _ & Hempty).
    assert (postPath meta ∈ postPath <$> batch.*2) as Hmem.
    { apply list_elem_of_fmap. exists meta. split; [done|].
      by apply (list_elem_of_fmap_2 snd _ (postId, meta)). }
    rewrite lookup_insert_ne by (intros Heq; apply Hnotidx; by rewrite Heq).
    apply removeAll_lookup_in; [done|by apply fetched_no_fault_empty|done]. }
  split.
  { intros Hcons. rewrite Hs'. unfold swept. fold batch.
    destruct (decide (batch = [])) as [|_]; [done|].
    eexists. split; [apply stored_written_eq|].
    split; [|apply (dropPosts_frame batch.*1 (ensureMaps i))].
    intros postId.
    change (posts (setLastUpdated (clock s) (dropPosts batch.*1 (ensureMaps i))))
      with (posts (dropPosts batch.*1 (ensureMaps i))).
    by rewrite dropPosts_get. }
  split.
  { intros Hnil. rewrite Hs'. unfold swept. fold batch. by rewrite decide_True. }
  assert (∀ path, path ≠ indexPath → path ∉ postPath <$> batch.*2 →
                  files s' !! path = files s !! path) as Hframe.
  { intros path Hpath Hnotin. rewrite Hs'. by apply swept_lookup. }
  split; [exact Hframe|]. split; [|split].
  - intros path d Hd Hkind. unfold stored. rewrite Hframe; [done| |].
    + intros ->. rewrite (fetched_stored _ _ _ _ Hi) in Hd.
      by destruct Hkind as [[c ->]|[u ->]].
    + intros (postId & meta & _ & -> & Hheld)%Hpaths.
      rewrite Hd in Hheld.
      destruct Hkind as [[c ->]|[u ->]]; by destruct Hheld as [(post & [=])|(o & [=])].
  - intros postId meta post postSha Hin Hpost Hcomments.
    assert (emptyForest s meta = false) as Hbusy.
    { unfold emptyForest. rewrite Hpost; simpl. by apply bool_decide_eq_false. }
    split.
    + intros ([postId' meta'] & Heq & Hin')%list_elem_of_fmap. simpl in Heq. subst postId'.
      pose proof (doomed_listed _ _ _ _ Hin') as (Hlisted & _ & Hempty). simpl in Hempty.
      pose proof (JsObj_get_NoDup _ _ _ Hnodup Hin) as Hg.
      pose proof (JsObj_get_NoDup _ _ _ Hnodup Hlisted) as Hg'.
      rewrite Hg in Hg'. injection Hg' as <-. congruence.
    + apply Hframe.
      * intros Heq. rewrite Heq, Hi in Hpost. done.
      * intros Hmem. apply list_elem_of_fmap in Hmem as (meta' & Heq & Hin').
        apply list_elem_of_fmap in Hin' as ([postId' meta''] & -> & Hin').
        apply doomed_listed in Hin' as (_ & _ & Hempty). simpl in *.
        unfold emptyForest in Hempty, Hbusy. rewrite <- Heq in Hempty. congruence.
  - intros path s0 Hnone. rewrite deleteFileFromGitHub_removed.
    by rewrite removed_absent.
Qed.

Lemma cleanupOldPosts_retention_witness :
  doomed agedStore 20 agedIndex = [("quiet", quietRef)]
  ∧ files (cleanupOldPosts agedStore).2 !! "data/posts/quiet.json" = None
  ∧ files (cleanupOldPosts agedStore).2 !! "data/posts/busy.json"
    = files agedStore !! "data/posts/busy.json"
  ∧ stored (cleanupOldPosts agedStore).2 "data/communities/gaming.json"
    = Some (DCommunity agedGaming).
Proof.
  pose proof (cleanupOldPosts_retention agedStore 20 agedIndex (Some 3%nat)
                ltac:(vm_compute; reflexivity) ltac:(vm_compute; reflexivity)
                ltac:(reflexivity)
                ltac:(apply (bool_decide_unpack _); vm_compute; exact I)
                ltac:(vm_compute; reflexivity))
    as (_ & Hbatch & _ & _ & Hgone & _ & _ & _ & Hkept & Hbusy & _).
  split; [|split; [|split]].
  - vm_compute. reflexivity.
  - apply (Hgone "quiet" quietRef).
    + vm_compute. left.
    + vm_compute. set_solver.
  - apply (Hbusy "busy" busyRef busyPost (Some 5%nat)).
    + vm_compute. right. left.
    + vm_compute. reflexivity.
    + discriminate.
  - apply Hkept.
    + vm_compute. reflexivity.
    + left. eexists. reflexivity.
Defined.

(** A run in which one fetch and one delete fail: the post whose fetch
    fails is passed over, the post whose delete fails loses its index entry
    and keeps its file, and the third old post without comments is deleted
    all the same. *)
Example cleanupOldPosts_survives_failures :
  cleanupOldPosts faultyStore
  = (Ok tt,
     written indexPath
       (DIndex (setLastUpdated (30 * day)
                  (setPosts [("hidden", hiddenRef); ("busy", busyRef);
                             ("recent", recentRef)] faultyIndex)))
       (setFiles (delete "data/posts/quiet.json" (files faultyStore)) faultyStore)).
Proof. vm_compute. reflexivity. Qed.

(** ** The ledger of a post and its counters *)

Lemma countVotes_insert (x v : Z) (username : string) (voters : gmap string Z) :
  countVotes x (<[username := v]> voters)
  = countVotes x voters - oneIf (bool_decide (voters !! username = Some x))
    + oneIf (bool_decide (v = x)).
Proof.
  unfold countVotes, oneIf. rewrite map_filter_insert; simpl.
  assert (Hl : filter (λ entry : string * Z, entry.2 = x) voters !! username
               = if bool_decide (voters !! username = Some x) then Some x else None).
  { case_bool_decide as Hx.
    - by apply map_lookup_filter_Some.
    - apply map_lookup_filter_None.
      destruct (voters !! username) as [y|] eqn:Hy; [right|by left].
      intros ? [= <-]; simpl. congruence. }
  assert (Hsize : voters !! username = Some x →
                  size (filter (λ entry : string * Z, entry.2 = x) voters) ≠ 0%nat).
  { intros Hx. apply map_size_ne_0_lookup. exists username.
    rewrite Hl. by rewrite bool_decide_eq_true_2. }
  destruct (decide (v = x)) as [->|Hv].
  - rewrite (bool_decide_eq_true_2 (x = x)) by done. rewrite map_size_insert, Hl.
    case_bool_decide; unfold id; lia.
  - rewrite (bool_decide_eq_false_2 (v = x)) by done.
    rewrite map_filter_delete, map_size_delete, Hl.
    case_bool_decide as Hx; unfold id; [specialize (Hsize Hx)|]; lia.
Qed.

Lemma countVotes_nonneg (x : Z) (voters : gmap string Z) : (0 ≤ countVotes x voters)%Z.
Proof. unfold countVotes. lia. Qed.

Lemma previousVote_is (voters : gmap string Z) (username : string) (x : Z) :
  x ≠ 0 →
  bool_decide (default 0 (voters !! username) = x)
  = bool_decide (voters !! username = Some x).
Proof.
  intros Hx. destruct (voters !! username) as [y|]; simpl.
  - apply bool_decide_ext. naive_solver.
  - rewrite !bool_decide_eq_false_2; congruence.
Qed.

(** The update of a vote that the ledger records keeps the counters of a
    post equal to the counts of its ledger. *)
Lemma applyVote_ledgerSound (username : string) (v : Z) (voters : gmap string Z)
    (post : Post) :
  username ≠ "__proto__" ∨ is_Some (voters !! username) →
  p_voters post = Some voters → ledgerSound post →
  ledgerSound (applyVote username v voters post).
Proof.
  intros Hown Hv (voters' & Hv' & Hup & Hdown & _).
  rewrite Hv in Hv'. injection Hv' as <-.
  exists (<[username := v]> voters).
  destruct (applyVote_fields username v voters post) as (Hup' & Hdown' & Hvoters' & Hscore').
  rewrite (recordVote_own _ _ _ Hown) in Hvoters'.
  split; [done|]. split; [|split]; [| |exact Hscore'].
  - rewrite Hup', Hup, countVotes_insert. by rewrite previousVote_is.
  - rewrite Hdown', Hdown, countVotes_insert. by rewrite previousVote_is.
Qed.

Lemma newPost_ledgerSound (postId title content type author community : string)
    (createdAt : Z) :
  ledgerSound (newPost postId title content type author community createdAt).
Proof.
  exists {[ author := 1 ]}. unfold countVotes; simpl.
  rewrite map_filter_singleton_True by done.
  rewrite map_filter_singleton_False by done.
  by rewrite map_size_singleton, map_size_empty.
Qed.

(** What a vote that is answered 200 found and what it wrote. *)
Lemma vote_200_inv (s s' : Store) (postId username : string) (v : option Z) (r : Response) :
  vote postId username v s = (r, s') → status r = 200%nat →
  ∃ w path post voters,
    v = Some w
    ∧ stored s path = Some (DPost post)
    ∧ p_voters post = Some voters
    ∧ s' = written path (DPost (applyVote username w voters post)) s.
Proof.
  unfold vote, route. destruct v as [v|]; [|by intros [= <- <-]].
  destruct (bool_decide (username = "")); [by intros [= <- <-]|].
  unfold mbind at 1. unfold M_bind.
  destruct (getIndex s) as [[[index h]|e] s1] eqn:Hidx; [|by intros [= <- <-]].
  destruct (JsObj.get postId (posts index)) as [ref|] eqn:Href;
    [|by intros [= <- <-]].
  apply getIndex_result in Hidx as [(-> & _)|(-> & _)]; [|done].
  unfold mbind at 1. unfold M_bind. rewrite getFileFromGitHub_fetched.
  destruct (fetched s (DATA_PATH ++ "/" ++ pr_file ref)) as [[[d hd]|]|e] eqn:Hf;
    [|by intros [= <- <-]..].
  destruct d as [| | | |post|]; try by intros [= <- <-].
  destruct (p_voters post) as [voters|] eqn:Hv; [|by intros [= <- <-]].
  unfold mbind, M_bind.
  destruct (save_cases (DATA_PATH ++ "/" ++ pr_file ref)
              (DPost (applyVote username v voters post)) hd s) as [[e He]|He];
    rewrite He; [by intros [= <- <-]|].
  intros [= <- <-] _. exists v, (DATA_PATH ++ "/" ++ pr_file ref), post, voters.
  split; [done|]. split; [by eapply fetched_stored|]. done.
Qed.

(** X1: under every name but [__proto__] the counters of a post do not
    drift from its ledger.  A post as POST /api/r/:community/posts creates
    it has [upvotes] and [downvotes] equal to the numbers of entries 1 and
    -1 of [voters]; and every vote request of a user of another name than
    [__proto__] that is answered 200, on every store and for every vote
    value, found a post document and wrote one for which this still holds
    if it held before, so that neither counter can become negative. *)
Theorem vote_keeps_ledger (s s' : Store) (postId username : string) (v : option Z)
    (r : Response) :
  username ≠ "__proto__" →
  vote postId username v s = (r, s') → status r = 200%nat →
  (∀ id title content type author community createdAt,
     ledgerSound (newPost id title content type author community createdAt))
  ∧ ∃ path post post',
      stored s path = Some (DPost post)
      ∧ s' = written path (DPost post') s
      ∧ (ledgerSound post →
         ledgerSound post' ∧ (0 ≤ p_upvotes post')%Z ∧ (0 ≤ p_downvotes post')%Z).
Proof.
  intros Hname E H200. split; [intros; apply newPost_ledgerSound|].
  destruct (vote_200_inv _ _ _ _ _ _ E H200) as (w & path & post & voters & -> & Hs & Hv & ->).
  exists path, post, (applyVote username w voters post).
  split; [done|]. split; [done|]. intros Hsound.
  pose proof (applyVote_ledgerSound username w voters post (or_introl Hname) Hv Hsound)
    as Hsound'.
  split; [done|].
  destruct Hsound' as (voters' & _ & -> & -> & _).
  split; apply countVotes_nonneg.
Qed.

Lemma vote_keeps_ledger_witness :
  ∃ path post post',
    stored helloStore path = Some (DPost post)
    ∧ (vote helloId "bob" (Some (-1)) helloStore).2 = written path (DPost post') helloStore
    ∧ (ledgerSound post →
       ledgerSound post' ∧ (0 ≤ p_upvotes post')%Z ∧ (0 ≤ p_downvotes post')%Z).
Proof.
  apply (proj2 (vote_keeps_ledger helloStore _ helloId "bob" (Some (-1))
                  (vote helloId "bob" (Some (-1)) helloStore).1
                  ltac:(discriminate)
                  ltac:(apply surjective_pairing) ltac:(vm_compute; reflexivity))).
Defined.


(** The store after the write of a post still lists the post, with the new
    document under the revision that the write drew. *)
Lemma written_post_existing (s : Store) (i : IndexDoc) (h : option Sha) (path : string)
    (post post' : Post) (postSha : option Sha) :
  fetched s indexPath = Ok (Some (mkResult (DIndex i) h)) →
  fetched s path = Ok (Some (mkResult (DPost post) postSha)) →
  fetched (written path (DPost post') s) indexPath = Ok (Some (mkResult (DIndex i) h))
  ∧ fetched (written path (DPost post') s) path
    = Ok (Some (mkResult (DPost post') (Some (nextSha s)))).
Proof.
  intros Hi Hp. split.
  - rewrite fetched_written_ne; [done|].
    apply (fetched_distinct s _ _ _ _ _ _ Hp Hi). discriminate.
  - apply fetched_written_eq. by eapply fetched_no_fault.
Qed.

(** A vote that repeats the user's entry changes no field of the post. *)
Lemma applyVote_same (username : string) (v : Z) (voters : gmap string Z) (post : Post) :
  p_voters post = Some voters → voters !! username = Some v →
  p_score post = p_upvotes post - p_downvotes post →
  applyVote username v voters post = post.
Proof.
  intros Hv Hu Hs. unfold applyVote, setVotes.
  rewrite recordVote_own by (right; by rewrite Hu). rewrite Hu; simpl.
  rewrite insert_id by done. destruct post; simpl in *. subst.
  repeat case_bool_decide; f_equal; lia.
Qed.

(** X2: the vote route is idempotent under every name but [__proto__].
    After a vote of a user of another name on an existing post was
    answered, the same request once more is answered with the same counters
    and score, and writes the post document that is stored already. *)
Theorem vote_idempotent (s : Store) (postId username : string) (v : Z)
    (i : IndexDoc) (h : option Sha) (ref : PostRef)
    (post : Post) (postSha : option Sha) (voters : gmap string Z) :
  username ≠ "" →
  username ≠ "__proto__" →
  fetched s indexPath = Ok (Some (mkResult (DIndex i) h)) →
  JsObj.get postId (posts i) = Some ref →
  fetched s (DATA_PATH ++ "/" ++ pr_file ref) = Ok (Some (mkResult (DPost post) postSha)) →
  p_voters post = Some voters →
  let s1 := (vote postId username (Some v) s).2 in
  (vote postId username (Some v) s1).1 = (vote postId username (Some v) s).1
  ∧ status (vote postId username (Some v) s1).1 = 200%nat
  ∧ stored (vote postId username (Some v) s1).2 (DATA_PATH ++ "/" ++ pr_file ref)
    = stored s1 (DATA_PATH ++ "/" ++ pr_file ref).
Proof.
  intros Hu Hname Hi Href Hp Hv s1. subst s1.
  rewrite (vote_existing s postId username v i h ref post postSha voters) by done.
  cbn [fst snd].
  set (post' := applyVote username v voters post).
  destruct (written_post_existing s i h _ post post' postSha Hi Hp) as [Hi1 Hp1].
  destruct (applyVote_fields username v voters post) as (_ & _ & Hv1 & Hs1).
  fold post' in Hv1, Hs1. rewrite (recordVote_own _ _ _ (or_introl Hname)) in Hv1.
  rewrite (vote_existing _ postId username v i h ref post' _ _ Hu Hi1 Href Hp1 Hv1).
  rewrite (applyVote_same username v _ post' Hv1 (lookup_insert_eq _ _ _) Hs1).
  cbn [fst snd]. by rewrite !stored_written_eq.
Qed.

Lemma vote_idempotent_witness :
  (vote helloId "bob" (Some 1) (vote helloId "bob" (Some 1) helloStore).2).1
  = (vote helloId "bob" (Some 1) helloStore).1
  ∧ status (vote helloId "bob" (Some 1) (vote helloId "bob" (Some 1) helloStore).2).1
    = 200%nat
  ∧ stored (vote helloId "bob" (Some 1) (vote helloId "bob" (Some 1) helloStore).2).2
      (DATA_PATH ++ "/" ++ pr_file helloRef)
    = stored (vote helloId "bob" (Some 1) helloStore).2
        (DATA_PATH ++ "/" ++ pr_file helloRef).
Proof.
  apply (vote_idempotent helloStore helloId "bob" 1 helloIndex (Some 6%nat) helloRef
           helloPost (Some 4%nat) {[ "alice" := 1 ]}
           ltac:(discriminate) ltac:(discriminate) ltac:(vm_compute; reflexivity)
           ltac:(vm_compute; reflexivity) ltac:(vm_compute; reflexivity)
           ltac:(reflexivity)).
Defined.

(** ** The vote buttons of the client *)

Lemma handleVote_existing (s : Store) (postId username : string) (v : Z) (st : PostState)
    (i : IndexDoc) (h : option Sha) (ref : PostRef)
    (post : Post) (postSha : option Sha) (voters : gmap string Z) :
  username ≠ "" →
  fetched s indexPath = Ok (Some (mkResult (DIndex i) h)) →
  JsObj.get postId (posts i) = Some ref →
  fetched s (DATA_PATH ++ "/" ++ pr_file ref) = Ok (Some (mkResult (DPost post) postSha)) →
  p_voters post = Some voters →
  let newVote := if bool_decide (st_userVote st = v) then 0 else v in
  let post' := applyVote username newVote voters post in
  handleVote (Some username) postId v st s
  = (mkPostState (Some (p_score post')) newVote,
     written (DATA_PATH ++ "/" ++ pr_file ref) (DPost post') s).
Proof.
  intros Hu Hi Href Hp Hv newVote post'. unfold handleVote, fetchVote.
  fold newVote.
  by rewrite (vote_existing s postId username newVote i h ref post postSha voters).
Qed.

(** X3: two clicks on the same vote button of a post, by a logged-in user
    whose component was just mounted ([userVote] 0), first cast the vote
    and then retract it: the second request carries the vote 0, the ledger
    ends with the entry 0 for the user, both counters are what they were
    before the two clicks less the vote that the user had in the ledger
    before, and the component shows the stored score.  The user has a name
    that the ledger records, any but [__proto__], under which the server
    registers nobody: [index.users.__proto__] is never empty. *)
Theorem handleVote_twice_retracts (s : Store) (postId username : string) (v : Z)
    (st : PostState) (i : IndexDoc) (h : option Sha) (ref : PostRef)
    (post : Post) (postSha : option Sha) (voters : gmap string Z) :
  username ≠ "" → username ≠ "__proto__" → v ≠ 0 → st_userVote st = 0 →
  fetched s indexPath = Ok (Some (mkResult (DIndex i) h)) →
  JsObj.get postId (posts i) = Some ref →
  fetched s (DATA_PATH ++ "/" ++ pr_file ref) = Ok (Some (mkResult (DPost post) postSha)) →
  p_voters post = Some voters →
  let previousVote := default 0 (voters !! username) in
  let first := handleVote (Some username) postId v st s in
  let second := handleVote (Some username) postId v first.1 first.2 in
  st_userVote first.1 = v
  ∧ st_userVote second.1 = 0
  ∧ ∃ post2,
      stored second.2 (DATA_PATH ++ "/" ++ pr_file ref) = Some (DPost post2)
      ∧ p_voters post2 = Some (<[username := 0]> voters)
      ∧ p_upvotes post2 = p_upvotes post - oneIf (bool_decide (previousVote = 1))
      ∧ p_downvotes post2 = p_downvotes post - oneIf (bool_decide (previousVote = -1))
      ∧ st_score second.1 = Some (p_score post2).
Proof.
  intros Hu Hname Hv0 Hst Hi Href Hp Hv previousVote first second. subst first second.
  rewrite (handleVote_existing s postId username v st i h ref post postSha voters)
    by done.
  rewrite Hst, (bool_decide_eq_false_2 (0 = v)) by done. cbn [fst snd].
  set (post1 := applyVote username v voters post).
  destruct (written_post_existing s i h _ post post1 postSha Hi Hp) as [Hi1 Hp1].
  destruct (applyVote_fields username v voters post) as (Hup1 & Hdown1 & Hv1 & _).
  fold post1 in Hup1, Hdown1, Hv1.
  rewrite (recordVote_own _ _ _ (or_introl Hname)) in Hv1.
  rewrite (handleVote_existing _ postId username v _ i h ref post1 _ _ Hu Hi1 Href Hp1 Hv1).
  cbn [fst snd st_userVote]. rewrite (bool_decide_eq_true_2 (v = v)) by done.
  split; [done|]. split; [done|].
  exists (applyVote username 0 (<[username := v]> voters) post1).
  split; [apply stored_written_eq|].
  destruct (applyVote_fields username 0 (<[username := v]> voters) post1)
    as (Hup2 & Hdown2 & Hv2 & _).
  assert (Hprev : default 0 (<[username := v]> voters !! username) = v)
    by (by rewrite lookup_insert_eq).
  rewrite Hprev in Hup2, Hdown2.
  rewrite Hv2, (recordVote_own _ _ _ (or_introl Hname)), insert_insert_eq. split; [done|].
  rewrite Hup2, Hdown2, Hup1, Hdown1. fold previousVote.
  split; [|split; [|done]]; unfold oneIf; repeat case_bool_decide; lia.
Qed.

Lemma handleVote_twice_retracts_witness :
  let first := handleVote (Some "bob") helloId 1 (initialState helloPost) helloStore in
  let second := handleVote (Some "bob") helloId 1 first.1 first.2 in
  st_userVote first.1 = 1
  ∧ st_userVote second.1 = 0
  ∧ ∃ post2,
      stored second.2 (DATA_PATH ++ "/" ++ pr_file helloRef) = Some (DPost post2)
      ∧ p_voters post2 = Some (<[ "bob" := 0 ]> {[ "alice" := 1 ]})
      ∧ p_upvotes post2 = 1 - 0
      ∧ p_downvotes post2 = 0 - 0
      ∧ st_score second.1 = Some (p_score post2).
Proof.
  apply (handleVote_twice_retracts helloStore helloId "bob" 1 (initialState helloPost)
           helloIndex (Some 6%nat) helloRef helloPost (Some 4%nat) {[ "alice" := 1 ]}
           ltac:(discriminate) ltac:(discriminate) ltac:(discriminate) ltac:(reflexivity)
           ltac:(vm_compute; reflexivity) ltac:(vm_compute; reflexivity)
           ltac:(vm_compute; reflexivity) ltac:(reflexivity)).
Defined.


(** ** The forest of a post in document order *)

Lemma nodes_unfold (c : Comment) : nodes c = c :: forest (c_replies c).
Proof. by destruct c. Qed.

Lemma forest_cons (c : Comment) (rest : list Comment) :
  forest (c :: rest) = (nodes c ++ forest rest)%list.
Proof. done. Qed.

Lemma forest_app (a b : list Comment) : forest (a ++ b) = (forest a ++ forest b)%list.
Proof. apply flat_map_app. Qed.

Lemma findCommentIn_unfold (id : string) (c : Comment) :
  findCommentIn id c
  = if decide (c_id c = id) then Some c else findComment id (c_replies c).
Proof.
  destruct c as [? ? ? ? ? ? ? ? replies]; simpl.
  destruct (decide _); [done|].
  induction replies as [|c' replies IH]; [done|]; simpl. by rewrite IH.
Qed.

Lemma head_app {A : Type} (a b : list A) :
  head (a ++ b) = match head a with Some x => Some x | None => head b end.
Proof. by destruct a. Qed.

Lemma findComment_of_nodes (id : string) (comments : list Comment) :
  Forall (λ c, findCommentIn id c = head (filter (λ x, c_id x = id) (nodes c))) comments →
  findComment id comments = head (filter (λ x, c_id x = id) (forest comments)).
Proof.
  induction 1 as [|c rest Hc _ IH]; [done|].
  simpl findComment. rewrite forest_cons, filter_app, head_app, Hc, IH. done.
Qed.

Lemma findCommentIn_head (id : string) (c : Comment) :
  findCommentIn id c = head (filter (λ x, c_id x = id) (nodes c)).
Proof.
  induction c as [c IH] using Comment_ind.
  rewrite findCommentIn_unfold, nodes_unfold.
  destruct (decide (c_id c = id)) as [Hid|Hid].
  - by rewrite filter_cons_True.
  - rewrite filter_cons_False by done. by apply findComment_of_nodes.
Qed.

(** [findComment] answers with the first comment of the forest, in
    document order, that has the identifier. *)
Lemma findComment_head (id : string) (comments : list Comment) :
  findComment id comments = head (filter (λ x, c_id x = id) (forest comments)).
Proof.
  apply findComment_of_nodes, Forall_forall. intros c _. apply findCommentIn_head.
Qed.

Lemma forest_setReplies (replies : list Comment) (c : Comment) (rest : list Comment) :
  forest (setReplies replies c :: rest)
  = (setReplies replies c :: forest replies ++ forest rest)%list.
Proof. by rewrite forest_cons, nodes_unfold. Qed.

(** The push of a comment without replies puts it into the document order
    of the forest and changes, of the other comments, nothing but replies. *)
Lemma Pushed_forest (parentId : string) (comment : Comment) (depth : nat)
    (comments comments' : list Comment) :
  c_replies comment = [] →
  Pushed parentId comment depth comments comments' →
  ∃ l1 l1' l2,
    forest comments = (l1 ++ l2)%list
    ∧ forest comments' = (l1' ++ comment :: l2)%list
    ∧ withoutReplies <$> l1' = withoutReplies <$> l1.
Proof.
  intros Hleaf.
  induction 1 as [depth c rest Hle Hid
                 |depth c rest replies' Hid _ (l1 & l1' & l2 & Hl & Hl' & Hsh)
                 |depth c rest rest' Hid _ _ (l1 & l1' & l2 & Hl & Hl' & Hsh)].
  - exists (c :: forest (c_replies c)),
      (setReplies (c_replies c ++ [comment]) c :: forest (c_replies c)), (forest rest).
    split; [by rewrite forest_cons, nodes_unfold|]. split; [|done].
    rewrite forest_setReplies, forest_app. simpl forest at 2.
    rewrite nodes_unfold, Hleaf. simpl. by rewrite <- app_assoc.
  - exists (c :: l1), (setReplies replies' c :: l1'), (l2 ++ forest rest)%list.
    split; [|split].
    + rewrite forest_cons, nodes_unfold, Hl. simpl. by rewrite <- app_assoc.
    + rewrite forest_setReplies, Hl'. simpl. by rewrite <- app_assoc.
    + by rewrite !fmap_cons, Hsh.
  - exists (nodes c ++ l1)%list, (nodes c ++ l1')%list, l2. split; [|split].
    + by rewrite forest_cons, Hl, app_assoc.
    + by rewrite forest_cons, Hl', app_assoc.
    + by rewrite !fmap_app, Hsh.
Qed.

Lemma insertComment_forest (post post' : Post) (comment : Comment)
    (parentId : option string) :
  c_replies comment = [] →
  insertComment post comment parentId = Some post' →
  ∃ l1 l1' l2,
    forest (p_comments post) = (l1 ++ l2)%list
    ∧ forest (p_comments post') = (l1' ++ comment :: l2)%list
    ∧ withoutReplies <$> l1' = withoutReplies <$> l1.
Proof.
  intros Hleaf. unfold insertComment. destruct (truthy parentId).
  - destruct (addReply _ _ _ _) as [comments'|] eqn:H; [|done]. intros [= <-].
    apply addReply_Some in H. by eapply Pushed_forest.
  - intros [= <-]; simpl. exists (forest (p_comments post)), (forest (p_comments post)), [].
    split; [by rewrite app_nil_r|]. split; [|done].
    rewrite forest_app. simpl. by rewrite nodes_unfold, Hleaf.
Qed.

Lemma newComment_leaf (commentId content author : string) (parentId : option string)
    (createdAt : Z) :
  c_replies (newComment commentId content author parentId createdAt) = [].
Proof. done. Qed.

(** X4: [commentCount] is the size of the forest.  Every comment request
    that is answered 201 found a post document and left one in its place;
    if the count of the document it found was the number of comments of
    its forest, replies at every depth included, so is the count of the
    document it left. *)
Theorem addComment_counts_forest (s s' : Store) (postId content author : string)
    (parentId : option string) (commentId : string) (r : Response) :
  addComment postId content author parentId commentId s = (r, s') →
  status r = 201%nat →
  ∃ path post post',
    stored s path = Some (DPost post)
    ∧ stored s' path = Some (DPost post')
    ∧ List.length (forest (p_comments post')) = S (List.length (forest (p_comments post)))
    ∧ (p_commentCount post = Z.of_nat (List.length (forest (p_comments post))) →
       p_commentCount post' = Z.of_nat (List.length (forest (p_comments post')))).
Proof.
  intros E H201.
  destruct (addComment_201 _ _ _ _ _ _ _ _ E H201)
    as (i & h & ref & post & postSha & post' & _ & _ & Hp & Hins & _ & Hp').
  exists (DATA_PATH ++ "/" ++ pr_file ref), post, post'.
  split; [by eapply fetched_stored|]. split; [by eapply fetched_stored|].
  destruct (insertComment_forest post post' _ parentId (newComment_leaf _ _ _ _ _) Hins)
    as (l1 & l1' & l2 & Hl & Hl' & Hsh).
  assert (Hlen : List.length (forest (p_comments post'))
                 = S (List.length (forest (p_comments post)))).
  { rewrite Hl, Hl', !length_app; simpl.
    apply (f_equal List.length) in Hsh. rewrite !length_fmap in Hsh. lia. }
  split; [done|]. intros Hcount.
  rewrite (insertComment_count _ _ _ _ Hins), Hcount, Hlen. lia.
Qed.

Lemma addComment_counts_forest_witness :
  ∃ path post post',
    stored deepStore path = Some (DPost post)
    ∧ stored (addComment helloId "me too" "alice" (Some "d10") "r-1" deepStore).2 path
      = Some (DPost post')
    ∧ List.length (forest (p_comments post')) = S (List.length (forest (p_comments post)))
    ∧ (p_commentCount post = Z.of_nat (List.length (forest (p_comments post))) →
       p_commentCount post' = Z.of_nat (List.length (forest (p_comments post')))).
Proof.
  apply (addComment_counts_forest deepStore _ helloId "me too" "alice" (Some "d10") "r-1"
           (addComment helloId "me too" "alice" (Some "d10") "r-1" deepStore).1
           ltac:(apply surjective_pairing) ltac:(vm_compute; reflexivity)).
Defined.


Lemma AtDepth_cons_inv (id : string) (d : nat) (c : Comment) (rest : list Comment) :
  AtDepth id d (c :: rest) →
  (d = 0%nat ∧ c_id c = id)
  ∨ (∃ d0, d = S d0 ∧ AtDepth id d0 (c_replies c))
  ∨ AtDepth id d rest.
Proof. inversion 1; subst; eauto. Qed.

Lemma AtDepth_app (id : string) (d : nat) (a b : list Comment) :
  AtDepth id d (a ++ b) → AtDepth id d a ∨ AtDepth id d b.
Proof.
  induction a as [|c a IH]; [by right|]. simpl.
  intros [[-> Hid]|[(d0 & -> & Hd0)|H]]%AtDepth_cons_inv.
  - left. by constructor.
  - left. by constructor.
  - destruct (IH H) as [Ha|Hb]; [left; by constructor | by right].
Qed.

Lemma AtDepth_leaf (id : string) (d : nat) (comment : Comment) :
  c_replies comment = [] → AtDepth id d [comment] → d = 0%nat ∧ id = c_id comment.
Proof.
  intros Hleaf [[-> Hid]|[(d0 & -> & Hd0)|H]]%AtDepth_cons_inv.
  - done.
  - rewrite Hleaf in Hd0. by apply AtDepth_nil in Hd0.
  - by apply AtDepth_nil in H.
Qed.

(** The push of a comment adds one comment to the forest, at most one level
    below the deepest parent that [addReply] accepts. *)
Lemma Pushed_depth (parentId : string) (comment : Comment) (depth : nat)
    (comments comments' : list Comment) :
  c_replies comment = [] →
  Pushed parentId comment depth comments comments' →
  ∀ id d, AtDepth id d comments' →
    AtDepth id d comments
    ∨ (id = c_id comment ∧ (depth + d ≤ S MAX_NESTING_DEPTH)%nat).
Proof.
  intros Hleaf.
  induction 1 as [depth c rest Hle Hid
                 |depth c rest replies' Hid _ IH
                 |depth c rest rest' Hid _ _ IH]; intros id d.
  - intros [[-> Hc]|[(d0 & -> & Hd0)|H]]%AtDepth_cons_inv.
    + left. by constructor.
    + simpl in Hd0. apply AtDepth_app in Hd0 as [Hd0|Hd0].
      * left. by constructor.
      * apply (AtDepth_leaf _ _ _ Hleaf) in Hd0 as [-> ->]. right. split; [done|lia].
    + left. by constructor.
  - intros [[-> Hc]|[(d0 & -> & Hd0)|H]]%AtDepth_cons_inv.
    + left. by constructor.
    + simpl in Hd0. destruct (IH _ _ Hd0) as [Hold|[-> Hle]].
      * left. by constructor.
      * right. split; [done|lia].
    + left. by constructor.
  - intros [[-> Hc]|[(d0 & -> & Hd0)|H]]%AtDepth_cons_inv.
    + left. by constructor.
    + left. by constructor.
    + destruct (IH _ _ H) as [Hold|[-> Hle]].
      * left. by constructor.
      * by right.
Qed.

Lemma insertComment_depth (post post' : Post) (comment : Comment)
    (parentId : option string) :
  c_replies comment = [] →
  insertComment post comment parentId = Some post' →
  depthWithin (S MAX_NESTING_DEPTH) (p_comments post) →
  depthWithin (S MAX_NESTING_DEPTH) (p_comments post').
Proof.
  intros Hleaf. unfold insertComment, depthWithin. destruct (truthy parentId).
  - destruct (addReply _ _ _ _) as [comments'|] eqn:H; [|done]. intros [= <-] Hold id d.
    simpl. apply addReply_Some in H.
    intros [Hd|[_ Hle]]%(Pushed_depth _ _ _ _ _ Hleaf H); [by eapply Hold | lia].
  - intros [= <-] Hold id d; simpl.
    intros [Hd|Hd]%AtDepth_app; [by eapply Hold|].
    apply (AtDepth_leaf _ _ _ Hleaf) in Hd as [-> _]. lia.
Qed.

(** X5: no comment ever lies deeper than [MAX_NESTING_DEPTH + 1].  Every
    comment request that is answered 201 found a post document and left
    one in its place; if the forest it found has no comment below depth
    11 (top-level comments being at depth 0), neither has the forest it
    left.  A post starts with the empty forest. *)
Theorem addComment_depth_bound (s s' : Store) (postId content author : string)
    (parentId : option string) (commentId : string) (r : Response) :
  addComment postId content author parentId commentId s = (r, s') →
  status r = 201%nat →
  (∀ id title text type author' community createdAt,
     depthWithin 0 (p_comments (newPost id title text type author' community createdAt)))
  ∧ ∃ path post post',
      stored s path = Some (DPost post)
      ∧ stored s' path = Some (DPost post')
      ∧ (depthWithin (S MAX_NESTING_DEPTH) (p_comments post) →
         depthWithin (S MAX_NESTING_DEPTH) (p_comments post')).
Proof.
  intros E H201. split.
  { intros id title text type author' community createdAt id' d H.
    by apply AtDepth_nil in H. }
  destruct (addComment_201 _ _ _ _ _ _ _ _ E H201)
    as (i & h & ref & post & postSha & post' & _ & _ & Hp & Hins & _ & Hp').
  exists (DATA_PATH ++ "/" ++ pr_file ref), post, post'.
  split; [by eapply fetched_stored|]. split; [by eapply fetched_stored|].
  by apply (insertComment_depth _ _ _ _ (newComment_leaf _ _ _ _ _) Hins).
Qed.

Lemma addComment_depth_bound_witness :
  ∃ path post post',
    stored deepStore path = Some (DPost post)
    ∧ stored (addComment helloId "me too" "alice" (Some "d10") "r-1" deepStore).2 path
      = Some (DPost post')
    ∧ (depthWithin (S MAX_NESTING_DEPTH) (p_comments post) →
       depthWithin (S MAX_NESTING_DEPTH) (p_comments post')).
Proof.
  apply (proj2
           (addComment_depth_bound deepStore _ helloId "me too" "alice" (Some "d10") "r-1"
              (addComment helloId "me too" "alice" (Some "d10") "r-1" deepStore).1
              ltac:(apply surjective_pairing) ltac:(vm_compute; reflexivity))).
Defined.

Lemma filter_withoutReplies (id : string) (l l' : list Comment) :
  withoutReplies <$> l' = withoutReplies <$> l →
  withoutReplies <$> filter (λ x, c_id x = id) l'
  = withoutReplies <$> filter (λ x, c_id x = id) l.
Proof.
  revert l. induction l' as [|c' l' IH]; intros [|c l]; try done.
  rewrite !fmap_cons. intros H.
  assert (Hc : withoutReplies c' = withoutReplies c) by congruence.
  assert (Hl : withoutReplies <$> l' = withoutReplies <$> l) by congruence.
  assert (Hid : c_id c' = c_id c) by apply (f_equal c_id Hc).
  destruct (decide (c_id c = id)) as [Hc0|Hc0].
  - rewrite !filter_cons_True by congruence. rewrite !fmap_cons. f_equal; [done|].
    by apply IH.
  - rewrite !filter_cons_False by congruence. by apply IH.
Qed.

Lemma head_withoutReplies (a a' b : list Comment) :
  withoutReplies <$> a' = withoutReplies <$> a →
  withoutReplies <$> head (a' ++ b) = withoutReplies <$> head (a ++ b).
Proof.
  destruct a' as [|x' a'], a as [|x a]; try done.
  rewrite !fmap_cons. intros H; simpl.
  assert (Hx : withoutReplies x' = withoutReplies x) by congruence. by rewrite Hx.
Qed.

(** X6: the lookup of a profile finds a new comment by its identifier.
    After a comment request that is answered 201, [findComment] on the
    stored forest answers with the new comment for its identifier, when no
    comment of the forest had this identifier before, and for every other
    identifier with the comment it answered with before, up to the replies
    of that comment. *)
Theorem addComment_found_by_id (s s' : Store) (postId content author : string)
    (parentId : option string) (commentId : string) (r : Response) :
  addComment postId content author parentId commentId s = (r, s') →
  status r = 201%nat →
  ∃ path post post',
    stored s path = Some (DPost post)
    ∧ stored s' path = Some (DPost post')
    ∧ (commentId ∉ c_id <$> forest (p_comments post) →
       findComment commentId (p_comments post')
       = Some (newComment commentId content author parentId (clock s)))
    ∧ ∀ id, id ≠ commentId →
        withoutReplies <$> findComment id (p_comments post')
        = withoutReplies <$> findComment id (p_comments post).
Proof.
  intros E H201.
  destruct (addComment_201 _ _ _ _ _ _ _ _ E H201)
    as (i & h & ref & post & postSha & post' & _ & _ & Hp & Hins & _ & Hp').
  exists (DATA_PATH ++ "/" ++ pr_file ref), post, post'.
  split; [by eapply fetched_stored|]. split; [by eapply fetched_stored|].
  set (comment := newComment commentId content author parentId (clock s)) in *.
  destruct (insertComment_forest post post' comment parentId eq_refl Hins)
    as (l1 & l1' & l2 & Hl & Hl' & Hsh).
  split.
  - intros Hfresh. rewrite findComment_head, Hl', filter_app.
    assert (Hnone : filter (λ x, c_id x = commentId) l1' = []).
    { apply (filter_withoutReplies commentId) in Hsh.
      assert (Hold : filter (λ x, c_id x = commentId) l1 = []).
      { destruct (filter (λ x, c_id x = commentId) l1) as [|x rest] eqn:Hx; [done|].
        assert (Hin : x ∈ filter (λ x, c_id x = commentId) l1)
          by (rewrite Hx; apply list_elem_of_here).
        apply list_elem_of_filter in Hin as [Hid Hin]. destruct Hfresh.
        rewrite Hl, fmap_app. apply elem_of_app. left.
        apply list_elem_of_fmap. eauto. }
      rewrite Hold in Hsh. by destruct (filter _ l1'). }
    rewrite Hnone. by rewrite filter_cons_True.
  - intros id Hid. rewrite !findComment_head, Hl, Hl', !filter_app.
    rewrite (filter_cons_False _ comment) by (simpl; congruence).
    by apply head_withoutReplies, filter_withoutReplies.
Qed.

Lemma addComment_found_by_id_witness :
  ∃ path post post',
    stored deepStore path = Some (DPost post)
    ∧ stored (addComment helloId "me too" "alice" (Some "d10") "r-1" deepStore).2 path
      = Some (DPost post')
    ∧ ("r-1" ∉ c_id <$> forest (p_comments post) →
       findComment "r-1" (p_comments post')
       = Some (newComment "r-1" "me too" "alice" (Some "d10") (clock deepStore)))
    ∧ ∀ id, id ≠ "r-1" →
        withoutReplies <$> findComment id (p_comments post')
        = withoutReplies <$> findComment id (p_comments post).
Proof.
  apply (addComment_found_by_id deepStore _ helloId "me too" "alice" (Some "d10") "r-1"
           (addComment helloId "me too" "alice" (Some "d10") "r-1" deepStore).1
           ltac:(apply surjective_pairing) ltac:(vm_compute; reflexivity)).
Defined.


(** ** What the read routes write *)

Lemma getIndex_writes (s s' : Store) (r : Res (IndexDoc * option Sha)) :
  getIndex s = (r, s') →
  s' = s
  ∨ (s' = repaired s ∧ (indexPath ∉ getFault s)
     ∧ r = Ok (initialIndex (clock s), None)).
Proof.
  rewrite getIndex_cases. unfold repaired.
  destruct (fetched s indexPath) as [[[d hd]|]|e] eqn:Hf; simpl.
  - destruct (isEmptyObject d).
    + intros [= <- <-]. right. split; [done|]. split; [|done]. by eapply fetched_no_fault.
    + destruct d; intros [= <- <-]; by left.
  - intros [= <- <-]. right. split; [done|]. split; [|done]. by eapply fetched_no_fault.
  - intros [= <- <-]. by left.
Qed.

Lemma getIndex_repaired (s : Store) :
  indexPath ∉ getFault s →
  getIndex (repaired s) = (Ok (initialIndex (clock s), Some (nextSha s)), repaired s).
Proof.
  intros Hfault. unfold repaired.
  by rewrite (getIndex_stored _ (initialIndex (clock s)) (Some (nextSha s))
                (fetched_written_eq _ _ _ Hfault)).
Qed.

(** X7: [getIndex] heals once.  When a call of [getIndex] returns, the
    next call returns the same index and writes nothing, whether the first
    call read the index off the store or replaced it. *)
Theorem getIndex_settles (s s1 : Store) (index : IndexDoc) (h : option Sha) :
  getIndex s = (Ok (index, h), s1) →
  ∃ h', getIndex s1 = (Ok (index, h'), s1) ∧ is_Some h'.
Proof.
  intros E. rewrite getIndex_cases in E.
  destruct (fetched s indexPath) as [[[d hd]|]|e] eqn:Hf; cbn [content sha] in E.
  - destruct (isEmptyObject d) eqn:Hempty.
    + injection E as <- <- <-. exists (Some (nextSha s)). split; [|by eexists].
      apply getIndex_repaired. by eapply fetched_no_fault.
    + destruct d as [|i| | | |]; try done. injection E as <- <- <-.
      exists hd. split.
      * rewrite getIndex_cases, Hf. cbn [content sha]. by rewrite Hempty.
      * apply fetched_Some_inv in Hf as (f & _ & -> & _). by eexists.
  - injection E as <- <- <-. exists (Some (nextSha s)). split; [|by eexists].
    apply getIndex_repaired. by eapply fetched_no_fault.
  - done.
Qed.

Lemma getIndex_settles_witness :
  ∃ h',
    getIndex (repaired blankIndexStore)
    = (Ok (initialIndex (clock blankIndexStore), h'), repaired blankIndexStore)
    ∧ is_Some h'.
Proof.
  apply (getIndex_settles blankIndexStore (repaired blankIndexStore)
           (initialIndex (clock blankIndexStore)) None
           ltac:(vm_compute; reflexivity)).
Defined.

Lemma populatePosts_reads (index : IndexDoc) (postIds : list string) (s : Store) :
  (populatePosts index postIds s).2 = s.
Proof.
  induction postIds as [|postId rest IH]; [done|]; simpl.
  destruct (JsObj.get postId (posts index)) as [ref|]; [|done].
  unfold mbind at 1. unfold M_bind. rewrite getFileFromGitHub_fetched.
  destruct (fetched s (DATA_PATH ++ "/" ++ pr_file ref)) as [[[d h]|]|e]; [|done..].
  cbn [content]. unfold mbind, M_bind.
  destruct d as [o| | | |p|]; try done; unfold mret, M_ret;
    by destruct (populatePosts index rest s) as [[views|e] s1].
Qed.

Lemma populateComments_reads (index : IndexDoc) (metas : list CommentMeta) (s : Store) :
  (populateComments index metas s).2 = s.
Proof.
  induction metas as [|meta rest IH]; [done|]; simpl.
  destruct (JsObj.get (cm_postId meta) (posts index)) as [ref|]; [|done].
  unfold mbind at 1. unfold M_bind. rewrite getFileFromGitHub_fetched.
  destruct (fetched s (DATA_PATH ++ "/" ++ pr_file ref)) as [[[d h]|]|e]; [|done..].
  cbn [content]. destruct d as [| | | |post|]; try done.
  destruct (findComment _ _); [|done].
  unfold mbind, M_bind, mret, M_ret.
  by destruct (populateComments index rest s) as [[views|e] s1].
Qed.

(** The resolver of the routes writes nothing but a fresh index. *)
Lemma resolver_writes (type id : string) (s s' : Store) (r : Res (option FileResult)) :
  getDirectWithFallback type id (Some (indexFallback type id)) s = (r, s') →
  s' = s ∨ (s' = repaired s ∧ (indexPath ∉ getFault s) ∧ r = Ok None).
Proof.
  rewrite getDirectWithFallback_direct.
  assert (Hfallback : indexFallback type id s = (r, s') →
            s' = s ∨ (s' = repaired s ∧ (indexPath ∉ getFault s) ∧ r = Ok None)).
  { rewrite indexFallback_cases.
    destruct (getIndex s) as [[[index h]|e] s1] eqn:Hidx.
    - destruct (getIndex_writes _ _ _ Hidx) as [->|(-> & Hfault & [= -> ->])].
      + destruct (indexedFile type id index); intros [= <- <-]; by left.
      + assert (indexedFile type id (initialIndex (clock s)) = None) as ->.
        { unfold indexedFile. by repeat case_decide. }
        intros [= <- <-]. by right.
    - destruct (getIndex_writes _ _ _ Hidx) as [->|(_ & _ & [=])].
      intros [= <- <-]. by left. }
  destruct (fetched s (directPath type id)) as [[x|]|e]; [|done..].
  destruct (isEmptyObject (content x)); [done|]. intros [= <- <-]. by left.
Qed.

Lemma getCommunity_writes (community : string) (s s' : Store) (r : Response) :
  getCommunity community s = (r, s') →
  s' = s ∨ (s' = repaired s ∧ (indexPath ∉ getFault s)).
Proof.
  unfold getCommunity, route.
  destruct (hasProfanity community); [intros [= <- <-]; by left|].
  unfold mbind, M_bind.
  destruct (getDirectWithFallback _ _ _ s) as [x s1] eqn:E.
  apply resolver_writes in E as [->|(-> & Hfault & ->)].
  - destruct x as [[x|]|e]; intros [= <- <-]; by left.
  - intros [= <- <-]. by right.
Qed.

Lemma getUser_writes (username : string) (s s' : Store) (r : Response) :
  getUser username s = (r, s') →
  s' = s ∨ (s' = repaired s ∧ (indexPath ∉ getFault s)).
Proof.
  unfold getUser, route.
  destruct (hasProfanity username); [intros [= <- <-]; by left|].
  unfold mbind at 1. unfold M_bind.
  destruct (getDirectWithFallback _ _ _ s) as [x s1] eqn:E.
  apply resolver_writes in E as [->|(-> & Hfault & ->)];
    [|intros [= <- <-]; by right].
  destruct x as [[[d h]|]|e]; [|intros [= <- <-]; by left..].
  unfold mbind at 1. unfold M_bind.
  destruct (getIndex s) as [[[index hi]|e] s2] eqn:Hidx.
  - assert (Hs2 : s2 = s ∨ (s2 = repaired s ∧ (indexPath ∉ getFault s))).
    { destruct (getIndex_writes _ _ _ Hidx) as [->|(-> & Hfault & _)]; eauto. }
    cbn [content].
    destruct d as [o| |u| | |]; try by intros [= <- <-].
    unfold mbind at 1. unfold M_bind.
    pose proof (populatePosts_reads index (u_posts (withoutPassword u)) s2) as Hposts.
    destruct (populatePosts index _ s2) as [[views|e] s3]; simpl in Hposts; subst s3;
      [|by intros [= <- <-]].
    unfold mbind at 1. unfold M_bind.
    pose proof (populateComments_reads index (take 20 (u_comments (withoutPassword u))) s2)
      as Hcomments.
    destruct (populateComments index _ s2) as [[comments|e] s4]; simpl in Hcomments;
      subst s4; by intros [= <- <-].
  - destruct (getIndex_writes _ _ _ Hidx) as [->|(_ & _ & [=])].
    intros [= <- <-]. by left.
Qed.

(** X8: the read routes write nothing but a fresh index.  On every store
    and for every name, GET /api/r/:community and GET /api/u/:username
    leave the store as it is, or as it is with index.json replaced by the
    initial index; the second only when the remote serves index.json. *)
Theorem reads_write_only_index (s : Store) :
  (∀ community,
     (getCommunity community s).2 = s
     ∨ ((getCommunity community s).2 = repaired s ∧ (indexPath ∉ getFault s)))
  ∧ (∀ username,
       (getUser username s).2 = s
       ∨ ((getUser username s).2 = repaired s ∧ (indexPath ∉ getFault s))).
Proof.
  split.
  - intros community. destruct (getCommunity community s) as [r s'] eqn:E.
    by eapply getCommunity_writes.
  - intros username. destruct (getUser username s) as [r s'] eqn:E.
    by eapply getUser_writes.
Qed.

(** X9: the two paths of the resolver agree.  When the index is in place
    and lists for the key the file [<type>/<id>.json], as the routes that
    create users, communities and posts list it, the resolver with the
    index fallback of the routes answers, on every store, what one fetch
    of the direct path answers, error included, and writes nothing. *)
Theorem resolver_is_direct_fetch (type id : string) (s : Store)
    (i : IndexDoc) (h : option Sha) :
  fetched s indexPath = Ok (Some (mkResult (DIndex i) h)) →
  isEmptyObject (DIndex i) = false →
  indexedFile type id (ensureMaps i) = Some (type ++ "/" ++ id ++ ".json") →
  getDirectWithFallback type id (Some (indexFallback type id)) s
  = (fetched s (directPath type id), s).
Proof.
  intros Hi Hne Hfile. rewrite getDirectWithFallback_direct.
  assert (Hfallback : indexFallback type id s = (fetched s (directPath type id), s)).
  { rewrite indexFallback_cases, (getIndex_stored s i h Hi Hne), Hfile. done. }
  rewrite Hfallback.
  destruct (fetched s (directPath type id)) as [[x|]|e]; [|done..].
  by destruct (isEmptyObject (content x)).
Qed.

Lemma resolver_is_direct_fetch_witness :
  getDirectWithFallback "users" "alice" (Some (indexFallback "users" "alice")) siteStore
  = (fetched siteStore (directPath "users" "alice"), siteStore).
Proof.
  apply (resolver_is_direct_fetch "users" "alice" siteStore siteIndex (Some 3%nat)
           ltac:(vm_compute; reflexivity) ltac:(reflexivity)
           ltac:(vm_compute; reflexivity)).
Defined.


(** ** Registration and login *)

(** What a registration that is answered 201 found and what it wrote. *)
Lemma register_201_inv (hash : string → string → string)
    (username password email salt userId : string) (s s' : Store) (r : Response) :
  register hash username password email salt userId s = (r, s') →
  status r = 201%nat →
  ∃ index s1,
    let userData :=
      {| u_id := userId; u_username := username; u_email := email;
         u_password := Some (hash password salt); u_createdAt := clock s;
         u_karma := 0; u_posts := []; u_comments := []; u_communities := [];
         u_avatarUrl := ""; u_about := None; u_savedPosts := None |} in
    let ref := mkUserRef userId ("users/" ++ username ++ ".json") (clock s) "" in
    (s1 = s ∨ s1 = repaired s)
    ∧ (indexPath ∉ getFault s)
    ∧ username ≠ "" ∧ password ≠ ""
    ∧ r = mkResponse 201 (BUser (DUser (withoutPassword userData)))
    ∧ s' = written indexPath
             (DIndex (setLastUpdated (clock s)
                        (setUsers (JsObj.set username ref (users index)) index)))
             (written (DATA_PATH ++ "/users/" ++ username ++ ".json") (DUser userData) s1).
Proof.
  intros E H201. unfold register, route in E.
  destruct (bool_decide (username = "")) eqn:Hname; [by injection E as <- <-|].
  destruct (bool_decide (password = "")) eqn:Hpw; [by injection E as <- <-|].
  apply bool_decide_eq_false in Hname, Hpw. cbn [orb] in E.
  destruct (hasProfanity username); [by injection E as <- <-|].
  unfold mbind at 1 in E. unfold M_bind in E.
  destruct (getIndex s) as [[[index h]|e] s1] eqn:Hidx; [|by injection E as <- <-].
  assert (Hs1 : (s1 = s ∨ s1 = repaired s) ∧ (indexPath ∉ getFault s)).
  { split; [destruct (getIndex_writes _ _ _ Hidx) as [->|(-> & _ & _)]; eauto|].
    pose proof Hidx as Hidx'. rewrite getIndex_cases in Hidx'. unfold fetched in Hidx'.
    by destruct (decide (indexPath ∈ getFault s)). }
  assert (Hclock : clock s1 = clock s) by (by destruct Hs1 as [[->| ->] _]).
  destruct (JsObj.get username (users index)); [by injection E as <- <-|].
  unfold mbind at 1 in E. unfold M_bind, now in E.
  unfold mbind at 1 in E. unfold M_bind in E.
  match type of E with
  | context [saveFileToGitHub ?p ?d ?h ?s1] =>
      destruct (save_cases p d h s1) as [[e He]|He]; rewrite He in E;
      [by injection E as <- <-|]
  end.
  unfold updateIndex in E. unfold mbind, M_bind, now in E.
  match type of E with
  | context [saveFileToGitHub ?p ?d ?h ?s1] =>
      destruct (save_cases p d h s1) as [[e He']|He']; rewrite He' in E;
      [by injection E as <- <-|]
  end.
  injection E as <- <-. exists index, s1. cbn zeta.
  destruct Hs1 as [Hs1 Hfault]. rewrite <- Hclock.
  split; [done|]. split; [done|]. split; done.
Qed.

Lemma userPath_not_index (username : string) :
  DATA_PATH ++ "/users/" ++ username ++ ".json" ≠ indexPath.
Proof. unfold indexPath, DATA_PATH; simpl. by intros [=]. Qed.

(** A registration under a name that the index lists is refused. *)
Lemma register_listed (hash : string → string → string)
    (username password email salt userId : string) (s : Store)
    (i : IndexDoc) (h : option Sha) (ref : UserRef) :
  fetched s indexPath = Ok (Some (mkResult (DIndex i) h)) →
  JsObj.get username (users i) = Some ref →
  ∃ message,
    register hash username password email salt userId s
    = (mkResponse 400 (BError message), s).
Proof.
  intros Hi Hget. unfold register, route.
  destruct (bool_decide (username = "") || bool_decide (password = "")); [by eexists|].
  destruct (hasProfanity username); [by eexists|].
  unfold mbind at 1. unfold M_bind.
  rewrite (getIndex_stored _ i h Hi (users_not_empty _ _ _ Hget)).
  rewrite users_ensureMaps, Hget. by eexists.
Qed.

(** X10: a user name is registered once.  After a registration that was
    answered 201, every registration under the same name, whatever its
    password, e-mail, salt and identifier, is answered 400 and writes
    nothing. *)
Theorem register_once (hash : string → string → string)
    (username password email salt userId : string) (s s' : Store) (r : Response) :
  register hash username password email salt userId s = (r, s') →
  status r = 201%nat →
  ∀ password' email' salt' userId',
    status (register hash username password' email' salt' userId' s').1 = 400%nat
    ∧ (register hash username password' email' salt' userId' s').2 = s'.
Proof.
  intros E H201 password' email' salt' userId'.
  destruct (register_201_inv _ _ _ _ _ _ _ _ _ E H201)
    as (index & s1 & Hs1 & Hfault & _ & _ & _ & ->).
  set (index' := setLastUpdated _ _).
  set (s2 := written (DATA_PATH ++ "/users/" ++ username ++ ".json") _ s1).
  assert (Hfault2 : indexPath ∉ getFault s2) by (by destruct Hs1 as [-> | ->]).
  assert (Hget : JsObj.get username (users index')
                 = Some (mkUserRef userId ("users/" ++ username ++ ".json") (clock s) ""))
    by apply JsObj_get_set_eq.
  destruct (register_listed hash username password' email' salt' userId' _ index'
              (Some (nextSha s2)) _ (fetched_written_eq _ _ _ Hfault2) Hget)
    as [message ->].
  done.
Qed.

Lemma register_once_witness :
  status (register sampleHash "bob" "other" "" "$2a$10$pepper" "u-3"
            (register sampleHash "bob" "secret" "" "$2a$10$salt" "u-2" siteStore).2).1
  = 400%nat
  ∧ (register sampleHash "bob" "other" "" "$2a$10$pepper" "u-3"
       (register sampleHash "bob" "secret" "" "$2a$10$salt" "u-2" siteStore).2).2
    = (register sampleHash "bob" "secret" "" "$2a$10$salt" "u-2" siteStore).2.
Proof.
  apply (register_once sampleHash "bob" "secret" "" "$2a$10$salt" "u-2" siteStore _
           (register sampleHash "bob" "secret" "" "$2a$10$salt" "u-2" siteStore).1
           ltac:(apply surjective_pairing) ltac:(vm_compute; reflexivity)).
Defined.

(** X11: a registered user can log in.  After a registration that was
    answered 201, a login with the same name and password, for which
    [bcrypt.compare] accepts the hash that [bcrypt.hash] made, is answered
    200 with the body of the registration, the user document without its
    password, and writes nothing; provided the remote serves the file of
    the user. *)
Theorem register_then_login (hash : string → string → string)
    (compare : string → string → bool)
    (username password email salt userId : string) (s s' : Store) (r : Response) :
  register hash username password email salt userId s = (r, s') →
  status r = 201%nat →
  compare password (hash password salt) = true →
  DATA_PATH ++ "/users/" ++ username ++ ".json" ∉ getFault s →
  login compare username password s' = (mkResponse 200 (body r), s').
Proof.
  intros E H201 Hcompare Hserved.
  destruct (register_201_inv _ _ _ _ _ _ _ _ _ E H201)
    as (index & s1 & Hs1 & Hfault & Hname & Hpw & -> & ->).
  set (index' := setLastUpdated _ _).
  set (userData := {| u_id := userId |}).
  set (s2 := written (DATA_PATH ++ "/users/" ++ username ++ ".json") _ s1).
  assert (Hfault2 : indexPath ∉ getFault s2) by (by destruct Hs1 as [-> | ->]).
  assert (Hserved1 : DATA_PATH ++ "/users/" ++ username ++ ".json" ∉ getFault s1)
    by (by destruct Hs1 as [-> | ->]).
  assert (Hget : JsObj.get username (users index')
                 = Some (mkUserRef userId ("users/" ++ username ++ ".json") (clock s) ""))
    by apply JsObj_get_set_eq.
  unfold login, route.
  rewrite !bool_decide_eq_false_2 by done. cbn [orb].
  unfold mbind at 1. unfold M_bind.
  rewrite (getIndex_stored _ index' (Some (nextSha s2))
             (fetched_written_eq _ _ _ Hfault2) (users_not_empty _ _ _ Hget)).
  rewrite users_ensureMaps, Hget. cbn [ur_file].
  unfold mbind at 1. unfold M_bind. rewrite getFileFromGitHub_fetched.
  change (DATA_PATH ++ "/" ++ "users/" ++ username ++ ".json")
    with (DATA_PATH ++ "/users/" ++ username ++ ".json").
  rewrite fetched_written_ne by (apply not_eq_sym, userPath_not_index).
  unfold s2. rewrite (fetched_written_eq _ _ _ Hserved1). cbn [content u_password userData].
  by rewrite Hcompare.
Qed.

Lemma register_then_login_witness :
  login sampleCompare "bob" "secret"
    (register sampleHash "bob" "secret" "" "$2a$10$hash-of-" "u-2" siteStore).2
  = (mkResponse 200
       (body (register sampleHash "bob" "secret" "" "$2a$10$hash-of-" "u-2" siteStore).1),
     (register sampleHash "bob" "secret" "" "$2a$10$hash-of-" "u-2" siteStore).2).
Proof.
  apply (register_then_login sampleHash sampleCompare "bob" "secret" ""
           "$2a$10$hash-of-" "u-2" siteStore _
           (register sampleHash "bob" "secret" "" "$2a$10$hash-of-" "u-2" siteStore).1
           ltac:(apply surjective_pairing) ltac:(vm_compute; reflexivity)
           ltac:(vm_compute; reflexivity) ltac:(vm_compute; set_solver)).
Defined.


(** ** The avatar of a user and its copy in the index *)

Lemma updateUserProfile_existing (username : string) (avatarUrl about : option string)
    (s : Store) (i : IndexDoc) (h : option Sha) (ref : UserRef) (u : User)
    (userSha : option Sha) :
  fetched s indexPath = Ok (Some (mkResult (DIndex i) h)) →
  JsObj.get username (users i) = Some ref →
  fetched s (DATA_PATH ++ "/" ++ ur_file ref) = Ok (Some (mkResult (DUser u) userSha)) →
  let u' := setUserProfile avatarUrl about u in
  let s1 := written (DATA_PATH ++ "/" ++ ur_file ref) (DUser u') s in
  updateUserProfile username avatarUrl about s
  = (mkResponse 200 (BDoc (DUser (withoutPassword u'))),
     match avatarUrl with
     | Some a =>
         written indexPath
           (DIndex (setLastUpdated (clock s)
                      (setUsers (JsObj.set username (setRefAvatar a ref) (users i))
                         (ensureMaps i))))
           s1
     | None => s1
     end).
Proof.
  intros Hi Href Hu u' s1. unfold updateUserProfile, route.
  unfold mbind at 1. unfold M_bind.
  rewrite (getIndex_stored s i h Hi (users_not_empty _ _ _ Href)).
  rewrite users_ensureMaps, Href.
  unfold mbind at 1. unfold M_bind. rewrite getFileFromGitHub_fetched, Hu.
  cbn [content sha]. fold u'.
  unfold mbind at 1. unfold M_bind.
  rewrite (save_fetched s _ _ _ _ Hu). fold s1.
  destruct avatarUrl as [a|]; [|done].
  unfold mbind at 1. unfold M_bind. unfold updateIndex, now.
  unfold mbind at 1. unfold M_bind.
  assert (Hi1 : fetched s1 indexPath = Ok (Some (mkResult (DIndex i) h))).
  { unfold s1. rewrite fetched_written_ne; [done|].
    apply (fetched_distinct s _ _ _ _ _ _ Hu Hi). discriminate. }
  by rewrite (save_fetched s1 _ _ _ _ Hi1).
Qed.

(** X12: the avatar that the index keeps for a user follows the user
    document.  An update of the profile of a listed user whose document is
    in place is answered 200, keeps the password hash, the posts and the
    comments of the document, and, when it sets an avatar, leaves the
    index with this avatar for the user, the entries of the other users
    being as before; when it sets none, it leaves the index as it is. *)
Theorem avatar_cache_coherent (username : string) (avatarUrl about : option string)
    (s : Store) (i : IndexDoc) (h : option Sha) (ref : UserRef) (u : User)
    (userSha : option Sha) :
  fetched s indexPath = Ok (Some (mkResult (DIndex i) h)) →
  JsObj.get username (users i) = Some ref →
  fetched s (DATA_PATH ++ "/" ++ ur_file ref) = Ok (Some (mkResult (DUser u) userSha)) →
  let s' := (updateUserProfile username avatarUrl about s).2 in
  status (updateUserProfile username avatarUrl about s).1 = 200%nat
  ∧ (∃ u',
       stored s' (DATA_PATH ++ "/" ++ ur_file ref) = Some (DUser u')
       ∧ u_password u' = u_password u
       ∧ u_posts u' = u_posts u
       ∧ u_comments u' = u_comments u
       ∧ u_avatarUrl u' = default (u_avatarUrl u) avatarUrl)
  ∧ (∀ a, avatarUrl = Some a →
       ∃ i',
         stored s' indexPath = Some (DIndex i')
         ∧ avatarOf i' (Some username) = a
         ∧ ∀ other, other ≠ username →
             JsObj.get other (users i') = JsObj.get other (users i))
  ∧ (avatarUrl = None → stored s' indexPath = stored s indexPath).
Proof.
  intros Hi Href Hu s'. subst s'.
  rewrite (updateUserProfile_existing username avatarUrl about s i h ref u userSha)
    by done.
  cbn [fst snd status].
  assert (Hne : DATA_PATH ++ "/" ++ ur_file ref ≠ indexPath).
  { apply (fetched_distinct s _ _ _ _ _ _ Hu Hi). discriminate. }
  split; [done|]. split; [|split].
  - exists (setUserProfile avatarUrl about u). split; [|done].
    destruct avatarUrl as [a|].
    + rewrite stored_written_ne by done. apply stored_written_eq.
    + apply stored_written_eq.
  - intros a ->. eexists. split; [apply stored_written_eq|]. split.
    + unfold avatarOf; simpl. unfold users at 1; simpl.
      by rewrite JsObj_get_set_eq.
    + intros other Hother. unfold users at 1; simpl.
      by rewrite JsObj_get_set_ne.
  - intros ->. by rewrite stored_written_ne.
Qed.

Lemma avatar_cache_coherent_witness :
  let s' := (updateUserProfile "alice" (Some "cat.png") None siteStore).2 in
  status (updateUserProfile "alice" (Some "cat.png") None siteStore).1 = 200%nat
  ∧ (∃ u',
       stored s' (DATA_PATH ++ "/" ++ ur_file aliceRef) = Some (DUser u')
       ∧ u_password u' = u_password alice
       ∧ u_posts u' = u_posts alice
       ∧ u_comments u' = u_comments alice
       ∧ u_avatarUrl u' = default (u_avatarUrl alice) (Some "cat.png"))
  ∧ (∀ a, Some "cat.png" = Some a →
       ∃ i',
         stored s' indexPath = Some (DIndex i')
         ∧ avatarOf i' (Some "alice") = a
         ∧ ∀ other, other ≠ "alice" →
             JsObj.get other (users i') = JsObj.get other (users siteIndex))
  ∧ (Some "cat.png" = None → stored s' indexPath = stored siteStore indexPath).
Proof.
  apply (avatar_cache_coherent "alice" (Some "cat.png") None siteStore siteIndex
           (Some 3%nat) aliceRef alice (Some 1%nat)
           ltac:(vm_compute; reflexivity) ltac:(vm_compute; reflexivity)
           ltac:(vm_compute; reflexivity)).
Defined.


(** ** The creation of a community *)

Lemma sanitize_allChars (s : string) : allChars isNameChar (sanitize s) = true.
Proof.
  induction s as [|c s IH]; [done|]; simpl.
  destruct (isNameChar c) eqn:Hc; [|done]. simpl. by rewrite Hc.
Qed.

(** What a creation that is answered 201 found and what it wrote. *)
Lemma createCommunity_201_inv (name description creator communityId : string)
    (s s' : Store) (r : Response) :
  createCommunity name description creator communityId s = (r, s') →
  status r = 201%nat →
  ∃ index s1,
    let communityName := sanitize (toLowerCase name) in
    let communityData :=
      newCommunity communityId communityName name description creator (clock s) in
    let ref :=
      mkCommunityRef communityId ("communities/" ++ communityName ++ ".json")
        (clock s) 1 "" in
    (s1 = s ∨ s1 = repaired s)
    ∧ (indexPath ∉ getFault s)
    ∧ (3 ≤ String.length communityName ≤ 21)%nat
    ∧ r = mkResponse 201 (BDoc (DCommunity communityData))
    ∧ s' = written indexPath
             (DIndex (setLastUpdated (clock s)
                        (setCommunities (JsObj.set communityName ref (communities index))
                           index)))
             (written (DATA_PATH ++ "/communities/" ++ communityName ++ ".json")
                (DCommunity communityData) s1).
Proof.
  intros E H201. unfold createCommunity, route in E.
  destruct (bool_decide (name = "") || bool_decide (creator = ""));
    [by injection E as <- <-|].
  destruct (hasProfanity name || hasProfanity description); [by injection E as <- <-|].
  unfold mbind at 1 in E. unfold M_bind in E.
  destruct (getIndex s) as [[[index h]|e] s1] eqn:Hidx; [|by injection E as <- <-].
  assert (Hs1 : (s1 = s ∨ s1 = repaired s) ∧ (indexPath ∉ getFault s)).
  { split; [destruct (getIndex_writes _ _ _ Hidx) as [->|(-> & _ & _)]; eauto|].
    pose proof Hidx as Hidx'. rewrite getIndex_cases in Hidx'. unfold fetched in Hidx'.
    by destruct (decide (indexPath ∈ getFault s)). }
  assert (Hclock : clock s1 = clock s) by (by destruct Hs1 as [[->| ->] _]).
  destruct (Nat.ltb _ 3) eqn:Hmin; [by injection E as <- <-|].
  destruct (Nat.ltb 21 _) eqn:Hmax; [by injection E as <- <-|].
  apply Nat.ltb_ge in Hmin, Hmax.
  destruct (JsObj.get _ (communities index)); [by injection E as <- <-|].
  unfold mbind at 1 in E. unfold M_bind, now in E.
  unfold mbind at 1 in E. unfold M_bind in E.
  match type of E with
  | context [saveFileToGitHub ?p ?d ?h ?s1] =>
      destruct (save_cases p d h s1) as [[e He]|He]; rewrite He in E;
      [by injection E as <- <-|]
  end.
  unfold updateIndex in E. unfold mbind, M_bind, now in E.
  match type of E with
  | context [saveFileToGitHub ?p ?d ?h ?s1] =>
      destruct (save_cases p d h s1) as [[e He']|He']; rewrite He' in E;
      [by injection E as <- <-|]
  end.
  injection E as <- <-. exists index, s1. cbn zeta.
  destruct Hs1 as [Hs1 Hfault]. rewrite <- Hclock.
  split; [done|]. split; [done|]. split; [lia|]. split; done.
Qed.

Lemma communityFile_not_index (communityName : string) :
  DATA_PATH ++ "/communities/" ++ communityName ++ ".json" ≠ indexPath.
Proof. unfold indexPath, DATA_PATH; simpl. by intros [=]. Qed.

(** X13: a community as POST /api/r creates it.  Every creation that is
    answered 201 has stored, under [communities/<name>.json], the
    community document it answers with: its name is the lower-cased name of
    the request without the characters other than [a-z], [0-9] and [_],
    and has 3 to 21 characters; the creator is its only member and its only
    moderator, may edit it, and [memberCount] is 1; and the index lists
    the name with this file and the member count 1. *)
Theorem createCommunity_creates (name description creator communityId : string)
    (s s' : Store) (r : Response) :
  createCommunity name description creator communityId s = (r, s') →
  status r = 201%nat →
  ∃ c i' ref,
    body r = BDoc (DCommunity c)
    ∧ stored s' (DATA_PATH ++ "/communities/" ++ co_name c ++ ".json")
      = Some (DCommunity c)
    ∧ co_name c = sanitize (toLowerCase name)
    ∧ allChars isNameChar (co_name c) = true
    ∧ (3 ≤ String.length (co_name c) ≤ 21)%nat
    ∧ co_members c = [creator]
    ∧ co_moderators c = Some [creator]
    ∧ co_memberCount c = Z.of_nat (List.length (co_members c))
    ∧ mayEdit (DCommunity c) (Some creator) = true
    ∧ stored s' indexPath = Some (DIndex i')
    ∧ JsObj.get (co_name c) (communities i') = Some ref
    ∧ cr_file ref = "communities/" ++ co_name c ++ ".json"
    ∧ cr_memberCount ref = co_memberCount c.
Proof.
  intros E H201.
  destruct (createCommunity_201_inv _ _ _ _ _ _ _ E H201)
    as (index & s1 & _ & _ & Hlen & -> & ->).
  eexists _, _, _. split; [reflexivity|]. cbn [co_name newCommunity].
  split.
  { rewrite stored_written_ne by (apply not_eq_sym, communityFile_not_index).
    apply stored_written_eq. }
  split; [done|]. split; [apply sanitize_allChars|]. split; [done|].
  split; [done|]. split; [done|]. split; [done|].
  split.
  { unfold mayEdit; simpl. rewrite bool_decide_eq_true_2; [done|].
    apply list_elem_of_here. }
  split; [apply stored_written_eq|].
  split; [unfold communities at 1; simpl; apply JsObj_get_set_eq|].
  done.
Qed.

Lemma createCommunity_creates_witness :
  ∃ c i' ref,
    body (createCommunity "Retro-Games!" "" "alice" "c-2" siteStore).1 = BDoc (DCommunity c)
    ∧ stored (createCommunity "Retro-Games!" "" "alice" "c-2" siteStore).2
        (DATA_PATH ++ "/communities/" ++ co_name c ++ ".json")
      = Some (DCommunity c)
    ∧ co_name c = sanitize (toLowerCase "Retro-Games!")
    ∧ allChars isNameChar (co_name c) = true
    ∧ (3 ≤ String.length (co_name c) ≤ 21)%nat
    ∧ co_members c = ["alice"]
    ∧ co_moderators c = Some ["alice"]
    ∧ co_memberCount c = Z.of_nat (List.length (co_members c))
    ∧ mayEdit (DCommunity c) (Some "alice") = true
    ∧ stored (createCommunity "Retro-Games!" "" "alice" "c-2" siteStore).2 indexPath
      = Some (DIndex i')
    ∧ JsObj.get (co_name c) (communities i') = Some ref
    ∧ cr_file ref = "communities/" ++ co_name c ++ ".json"
    ∧ cr_memberCount ref = co_memberCount c.
Proof.
  apply (createCommunity_creates "Retro-Games!" "" "alice" "c-2" siteStore _
           (createCommunity "Retro-Games!" "" "alice" "c-2" siteStore).1
           ltac:(apply surjective_pairing) ltac:(vm_compute; reflexivity)).
Defined.

(** X14: a community is reachable under its stored name exactly when that
    name passes the profanity filter.  The filter of POST /api/r tests the
    name of the request, the community is stored under the sanitized name:
    after a creation that is answered 201, GET /api/r/<stored name>
    answers 200 with the created document when the stored name passes the
    filter of the route, and 404 when it does not, as for a name that
    carries a listed word only once its separators are removed; provided
    the remote serves the file of the community. *)
Theorem created_community_reachable (name description creator communityId : string)
    (s s' : Store) (r : Response) :
  createCommunity name description creator communityId s = (r, s') →
  status r = 201%nat →
  let communityName := sanitize (toLowerCase name) in
  DATA_PATH ++ "/communities/" ++ communityName ++ ".json" ∉ getFault s →
  getCommunity communityName s'
  = if hasProfanity communityName
    then (mkResponse 404 (BError "Community not found"), s')
    else (mkResponse 200 (body r), s').
Proof.
  intros E H201 communityName Hserved.
  destruct (createCommunity_201_inv _ _ _ _ _ _ _ E H201)
    as (index & s1 & Hs1 & _ & _ & -> & ->).
  fold communityName.
  destruct (hasProfanity communityName) eqn:Hbad.
  - unfold getCommunity, route. by rewrite Hbad.
  - apply getCommunity_direct with (h := Some (nextSha s1)); [done| |done].
    rewrite fetched_written_ne by (apply not_eq_sym, communityFile_not_index).
    apply fetched_written_eq. by destruct Hs1 as [-> | ->].
Qed.

Lemma created_community_reachable_witness :
  getCommunity (sanitize (toLowerCase "s-h-i-t"))
    (createCommunity "s-h-i-t" "" "alice" "c-2" siteStore).2
  = if hasProfanity (sanitize (toLowerCase "s-h-i-t"))
    then (mkResponse 404 (BError "Community not found"),
          (createCommunity "s-h-i-t" "" "alice" "c-2" siteStore).2)
    else (mkResponse 200 (body (createCommunity "s-h-i-t" "" "alice" "c-2" siteStore).1),
          (createCommunity "s-h-i-t" "" "alice" "c-2" siteStore).2).
Proof.
  apply (created_community_reachable "s-h-i-t" "" "alice" "c-2" siteStore _
           (createCommunity "s-h-i-t" "" "alice" "c-2" siteStore).1
           ltac:(apply surjective_pairing) ltac:(vm_compute; reflexivity)
           ltac:(vm_compute; set_solver)).
Defined.

(** The filter lets the name of the request pass and rejects the name
    under which the community is stored. *)
Example created_community_hidden :
  status (createCommunity "s-h-i-t" "" "alice" "c-2" siteStore).1 = 201%nat
  ∧ hasProfanity (sanitize (toLowerCase "s-h-i-t")) = true
  ∧ status (getCommunity "shit" (createCommunity "s-h-i-t" "" "alice" "c-2" siteStore).2).1
    = 404%nat.
Proof. vm_compute. done. Qed.


(** ** Joining a community *)

Lemma joinCommunity_existing (community username : string) (s : Store)
    (i : IndexDoc) (h : option Sha) (ref : CommunityRef) (c : Community)
    (communitySha : option Sha) :
  username ≠ "" →
  fetched s indexPath = Ok (Some (mkResult (DIndex i) h)) →
  JsObj.get community (communities i) = Some ref →
  fetched s (DATA_PATH ++ "/" ++ cr_file ref)
  = Ok (Some (mkResult (DCommunity c) communitySha)) →
  joinCommunity community username s
  = if bool_decide (username ∈ co_members c)
    then (mkReply 200 (PJoined (co_memberCount c)), s)
    else
      let c' := pushMember username c in
      (mkReply 200 (PJoined (co_memberCount c')),
       written indexPath
         (DIndex (setLastUpdated (clock s)
                    (setCommunities
                       (JsObj.set community (setRefMemberCount (co_memberCount c') ref)
                          (communities i))
                       (ensureMaps i))))
         (written (DATA_PATH ++ "/" ++ cr_file ref) (DCommunity c') s)).
Proof.
  intros Hu Hi Href Hc. unfold joinCommunity, serve.
  rewrite bool_decide_eq_false_2 by done.
  unfold mbind at 1. unfold M_bind.
  rewrite (getIndex_stored s i h Hi (communities_not_empty _ _ _ Href)).
  rewrite communities_ensureMaps, Href.
  unfold mbind at 1. unfold M_bind. rewrite getFileFromGitHub_fetched, Hc.
  destruct (bool_decide (username ∈ co_members c)); [done|].
  unfold mbind at 1. unfold M_bind.
  rewrite (save_fetched s _ _ _ _ Hc).
  unfold mbind at 1. unfold M_bind. unfold updateIndex, now.
  unfold mbind at 1. unfold M_bind.
  assert (Hi1 : fetched (written (DATA_PATH ++ "/" ++ cr_file ref)
                           (DCommunity (pushMember username c)) s) indexPath
                = Ok (Some (mkResult (DIndex i) h))).
  { rewrite fetched_written_ne; [done|].
    apply (fetched_distinct s _ _ _ _ _ _ Hc Hi). discriminate. }
  by rewrite (save_fetched _ _ _ _ _ Hi1).
Qed.

(** X15: joining a community.  A join request of a user on a listed
    community whose document is in place is answered 200 with the member
    count of the document it leaves; the user is a member of that
    document, and so is every member of before; its [memberCount] is the
    length of [members] whenever the request added the user or the count
    was that length before; its members are without repetition if they
    were; the index keeps the member count of the document if it kept it
    before; and the same request once more is answered the same and writes
    nothing. *)
Theorem joinCommunity_joins (community username : string) (s : Store)
    (i : IndexDoc) (h : option Sha) (ref : CommunityRef) (c : Community)
    (communitySha : option Sha) :
  username ≠ "" →
  fetched s indexPath = Ok (Some (mkResult (DIndex i) h)) →
  JsObj.get community (communities i) = Some ref →
  fetched s (DATA_PATH ++ "/" ++ cr_file ref)
  = Ok (Some (mkResult (DCommunity c) communitySha)) →
  let answer := (joinCommunity community username s).1 in
  let s' := (joinCommunity community username s).2 in
  ∃ c' i' ref',
    answer = mkReply 200 (PJoined (co_memberCount c'))
    ∧ stored s' (DATA_PATH ++ "/" ++ cr_file ref) = Some (DCommunity c')
    ∧ username ∈ co_members c'
    ∧ (∀ other, other ∈ co_members c → other ∈ co_members c')
    ∧ (username ∉ co_members c
       ∨ co_memberCount c = Z.of_nat (List.length (co_members c)) →
       co_memberCount c' = Z.of_nat (List.length (co_members c')))
    ∧ (NoDup (co_members c) → NoDup (co_members c'))
    ∧ stored s' indexPath = Some (DIndex i')
    ∧ JsObj.get community (communities i') = Some ref'
    ∧ (cr_memberCount ref = co_memberCount c → cr_memberCount ref' = co_memberCount c')
    ∧ joinCommunity community username s' = (answer, s').
Proof.
  intros Hu Hi Href Hc answer s'. subst answer s'.
  assert (Hne : DATA_PATH ++ "/" ++ cr_file ref ≠ indexPath).
  { apply (fetched_distinct s _ _ _ _ _ _ Hc Hi). discriminate. }
  rewrite (joinCommunity_existing community username s i h ref c communitySha) by done.
  destruct (bool_decide (username ∈ co_members c)) eqn:Hmember.
  - apply bool_decide_eq_true in Hmember. cbn [fst snd].
    exists c, i, ref. split; [done|]. split; [by eapply fetched_stored|].
    split; [done|]. split; [done|]. split; [by intros [?|?]|]. split; [done|].
    split; [by eapply fetched_stored|]. split; [done|]. split; [done|].
    rewrite (joinCommunity_existing community username s i h ref c communitySha) by done.
    by rewrite bool_decide_eq_true_2.
  - apply bool_decide_eq_false in Hmember. cbn zeta. cbn [fst snd].
    set (c' := pushMember username c).
    set (ref' := setRefMemberCount (co_memberCount c') ref).
    set (i' := setLastUpdated _ _).
    set (s1 := written (DATA_PATH ++ "/" ++ cr_file ref) (DCommunity c') s).
    assert (Hget : JsObj.get community (communities i') = Some ref').
    { unfold i', communities at 1; simpl. apply JsObj_get_set_eq. }
    exists c', i', ref'. split; [done|].
    split; [rewrite stored_written_ne by done; apply stored_written_eq|].
    split; [simpl; apply elem_of_app; right; apply list_elem_of_here|].
    split; [intros other Hother; simpl; apply elem_of_app; by left|].
    split; [done|].
    split.
    { intros Hnodup; simpl. apply NoDup_app. split; [done|].
      split; [|apply NoDup_singleton].
      intros x Hx ->%list_elem_of_singleton. done. }
    split; [apply stored_written_eq|]. split; [done|]. split; [done|].
    assert (Hfault : indexPath ∉ getFault s1)
      by (apply (fetched_no_fault s _ _ Hi)).
    assert (Hpath : DATA_PATH ++ "/" ++ cr_file ref ∉ getFault s)
      by (by eapply fetched_no_fault).
    rewrite (joinCommunity_existing community username _ i' (Some (nextSha s1)) ref' c'
               (Some (nextSha s)) Hu (fetched_written_eq _ _ _ Hfault) Hget).
    + rewrite bool_decide_eq_true_2; [done|].
      simpl. apply elem_of_app. right. apply list_elem_of_here.
    + rewrite fetched_written_ne by done. by apply fetched_written_eq.
Qed.

Lemma joinCommunity_joins_witness :
  let answer := (joinCommunity "gaming" "bob" siteStore).1 in
  let s' := (joinCommunity "gaming" "bob" siteStore).2 in
  ∃ c' i' ref',
    answer = mkReply 200 (PJoined (co_memberCount c'))
    ∧ stored s' (DATA_PATH ++ "/" ++ cr_file gamingRef) = Some (DCommunity c')
    ∧ "bob" ∈ co_members c'
    ∧ (∀ other, other ∈ co_members gaming → other ∈ co_members c')
    ∧ ("bob" ∉ co_members gaming
       ∨ co_memberCount gaming = Z.of_nat (List.length (co_members gaming)) →
       co_memberCount c' = Z.of_nat (List.length (co_members c')))
    ∧ (NoDup (co_members gaming) → NoDup (co_members c'))
    ∧ stored s' indexPath = Some (DIndex i')
    ∧ JsObj.get "gaming" (communities i') = Some ref'
    ∧ (cr_memberCount gamingRef = co_memberCount gaming →
       cr_memberCount ref' = co_memberCount c')
    ∧ joinCommunity "gaming" "bob" s' = (answer, s').
Proof.
  apply (joinCommunity_joins "gaming" "bob" siteStore siteIndex (Some 3%nat) gamingRef
           gaming (Some 2%nat)
           ltac:(discriminate) ltac:(vm_compute; reflexivity)
           ltac:(vm_compute; reflexivity) ltac:(vm_compute; reflexivity)).
Defined.


(** ** The deletion of a post *)

Lemma deletePost_allowed (postId : string) (username : option string) (s : Store)
    (i : IndexDoc) (h : option Sha) (ref : PostRef) (p : Post) (postSha : option Sha) :
  fetched s indexPath = Ok (Some (mkResult (DIndex i) h)) →
  JsObj.get postId (posts i) = Some ref →
  fetched s (DATA_PATH ++ "/" ++ pr_file ref) = Ok (Some (mkResult (DPost p) postSha)) →
  username = Some "timco" ∨ username = Some (p_author p) →
  deletePost postId username s
  = (mkResponse 200 BSuccess,
     written (DATA_PATH ++ "/" ++ pr_file ref) (DPost (setDeleted p)) s).
Proof.
  intros Hi Href Hp Hwho. unfold deletePost, route.
  unfold mbind at 1. unfold M_bind.
  rewrite (getIndex_stored s i h Hi (posts_not_empty _ _ _ Href)).
  rewrite posts_ensureMaps, Href.
  unfold mbind at 1. unfold M_bind. rewrite getFileFromGitHub_fetched, Hp.
  cbn [content sha].
  unfold mbind at 1. unfold M_bind.
  destruct Hwho as [-> | ->].
  - rewrite bool_decide_eq_true_2 by done. unfold mret, M_ret. cbv beta iota.
    cbn [negb]. unfold mbind, M_bind. by rewrite (save_fetched s _ _ _ _ Hp).
  - destruct (bool_decide (Some (p_author p) = Some "timco"));
      [|rewrite bool_decide_eq_true_2 by done]; unfold mret, M_ret; cbv beta iota;
      cbn [negb]; unfold mbind, M_bind; by rewrite (save_fetched s _ _ _ _ Hp).
Qed.

Lemma deletePost_refused (postId : string) (username : option string) (s : Store)
    (i : IndexDoc) (h : option Sha) (ref : PostRef) (p : Post) (postSha : option Sha)
    (communityRef : CommunityRef) (communityData : Doc) (communitySha : option Sha) :
  fetched s indexPath = Ok (Some (mkResult (DIndex i) h)) →
  JsObj.get postId (posts i) = Some ref →
  fetched s (DATA_PATH ++ "/" ++ pr_file ref) = Ok (Some (mkResult (DPost p) postSha)) →
  JsObj.get (p_community p) (communities i) = Some communityRef →
  fetched s (DATA_PATH ++ "/" ++ cr_file communityRef)
  = Ok (Some (mkResult communityData communitySha)) →
  username ≠ Some "timco" → username ≠ Some (p_author p) →
  isModerator communityData username = false →
  deletePost postId username s = (mkResponse 403 (BError "Permission denied"), s).
Proof.
  intros Hi Href Hp Hcref Hc Hadmin Hauthor Hmod. unfold deletePost, route.
  unfold mbind at 1. unfold M_bind.
  rewrite (getIndex_stored s i h Hi (posts_not_empty _ _ _ Href)).
  rewrite posts_ensureMaps, Href.
  unfold mbind at 1. unfold M_bind. rewrite getFileFromGitHub_fetched, Hp.
  cbn [content sha].
  change (default "undefined" (Some (p_community p))) with (p_community p).
  rewrite (bool_decide_eq_false_2 (username = Some "timco")) by done.
  rewrite (bool_decide_eq_false_2 (Some (p_author p) = username)) by congruence.
  rewrite communities_ensureMaps, Hcref.
  unfold mbind at 1. unfold M_bind.
  unfold mbind at 1. unfold M_bind. rewrite getFileFromGitHub_fetched, Hc.
  cbn [content]. by rewrite Hmod.
Qed.

(** X16: the deletion of a post leaves a tombstone.  A delete request of
    the author of a listed post whose document is in place, or of the
    super admin, is answered with success and writes the post document
    with its title, content and author replaced and its identifier, slug,
    community, counters, ledger, comments and comment count as they were;
    every other file of the store, the index that lists the post among
    them, is as before; and the post still takes votes. *)
Theorem deletePost_leaves_tombstone (postId : string) (username : option string)
    (s : Store) (i : IndexDoc) (h : option Sha) (ref : PostRef) (p : Post)
    (postSha : option Sha) :
  fetched s indexPath = Ok (Some (mkResult (DIndex i) h)) →
  JsObj.get postId (posts i) = Some ref →
  fetched s (DATA_PATH ++ "/" ++ pr_file ref) = Ok (Some (mkResult (DPost p) postSha)) →
  username = Some "timco" ∨ username = Some (p_author p) →
  let s' := (deletePost postId username s).2 in
  (deletePost postId username s).1 = mkResponse 200 BSuccess
  ∧ (∃ p',
       stored s' (DATA_PATH ++ "/" ++ pr_file ref) = Some (DPost p')
       ∧ p_title p' = "[Deleted by User/Mod]"
       ∧ p_content p' = "[removed]"
       ∧ p_author p' = "[deleted]"
       ∧ (p_id p', p_slug p', p_community p', p_createdAt p')
         = (p_id p, p_slug p, p_community p, p_createdAt p)
       ∧ (p_upvotes p', p_downvotes p', p_score p', p_voters p')
         = (p_upvotes p, p_downvotes p, p_score p, p_voters p)
       ∧ (p_comments p', p_commentCount p') = (p_comments p, p_commentCount p))
  ∧ (∀ path, path ≠ DATA_PATH ++ "/" ++ pr_file ref → stored s' path = stored s path)
  ∧ (∀ voter v, voter ≠ "" → is_Some (p_voters p) →
       status (vote postId voter (Some v) s').1 = 200%nat).
Proof.
  intros Hi Href Hp Hwho s'. subst s'.
  rewrite (deletePost_allowed postId username s i h ref p postSha) by done.
  cbn [fst snd]. split; [done|]. split; [|split].
  - exists (setDeleted p). split; [apply stored_written_eq|]. done.
  - intros path Hpath. by apply stored_written_ne.
  - intros voter v Hvoter [voters Hvoters].
    destruct (written_post_existing s i h _ p (setDeleted p) postSha Hi Hp) as [Hi1 Hp1].
    by rewrite (vote_existing _ postId voter v i h ref (setDeleted p) _ voters
                  Hvoter Hi1 Href Hp1 Hvoters).
Qed.

Lemma deletePost_leaves_tombstone_witness :
  let s' := (deletePost helloId (Some "alice") helloStore).2 in
  (deletePost helloId (Some "alice") helloStore).1 = mkResponse 200 BSuccess
  ∧ (∃ p',
       stored s' (DATA_PATH ++ "/" ++ pr_file helloRef) = Some (DPost p')
       ∧ p_title p' = "[Deleted by User/Mod]"
       ∧ p_content p' = "[removed]"
       ∧ p_author p' = "[deleted]"
       ∧ (p_id p', p_slug p', p_community p', p_createdAt p')
         = (p_id helloPost, p_slug helloPost, p_community helloPost, p_createdAt helloPost)
       ∧ (p_upvotes p', p_downvotes p', p_score p', p_voters p')
         = (p_upvotes helloPost, p_downvotes helloPost, p_score helloPost,
            p_voters helloPost)
       ∧ (p_comments p', p_commentCount p')
         = (p_comments helloPost, p_commentCount helloPost))
  ∧ (∀ path, path ≠ DATA_PATH ++ "/" ++ pr_file helloRef →
       stored s' path = stored helloStore path)
  ∧ (∀ voter v, voter ≠ "" → is_Some (p_voters helloPost) →
       status (vote helloId voter (Some v) s').1 = 200%nat).
Proof.
  apply (deletePost_leaves_tombstone helloId (Some "alice") helloStore helloIndex
           (Some 6%nat) helloRef helloPost (Some 4%nat)
           ltac:(vm_compute; reflexivity) ltac:(vm_compute; reflexivity)
           ltac:(vm_compute; reflexivity) ltac:(right; reflexivity)).
Defined.

Lemma deletePost_moderator (postId : string) (username : option string) (s : Store)
    (i : IndexDoc) (h : option Sha) (ref : PostRef) (p : Post) (postSha : option Sha)
    (communityRef : CommunityRef) (communityData : Doc) (communitySha : option Sha) :
  fetched s indexPath = Ok (Some (mkResult (DIndex i) h)) →
  JsObj.get postId (posts i) = Some ref →
  fetched s (DATA_PATH ++ "/" ++ pr_file ref) = Ok (Some (mkResult (DPost p) postSha)) →
  JsObj.get (p_community p) (communities i) = Some communityRef →
  fetched s (DATA_PATH ++ "/" ++ cr_file communityRef)
  = Ok (Some (mkResult communityData communitySha)) →
  username ≠ Some "timco" → username ≠ Some (p_author p) →
  isModerator communityData username = true →
  deletePost postId username s
  = (mkResponse 200 BSuccess,
     written (DATA_PATH ++ "/" ++ pr_file ref) (DPost (setDeleted p)) s).
Proof.
  intros Hi Href Hp Hcref Hc Hadmin Hauthor Hmod. unfold deletePost, route.
  unfold mbind at 1. unfold M_bind.
  rewrite (getIndex_stored s i h Hi (posts_not_empty _ _ _ Href)).
  rewrite posts_ensureMaps, Href.
  unfold mbind at 1. unfold M_bind. rewrite getFileFromGitHub_fetched, Hp.
  cbn [content sha].
  change (default "undefined" (Some (p_community p))) with (p_community p).
  rewrite (bool_decide_eq_false_2 (username = Some "timco")) by done.
  rewrite (bool_decide_eq_false_2 (Some (p_author p) = username)) by congruence.
  rewrite communities_ensureMaps, Hcref.
  unfold mbind at 1. unfold M_bind.
  unfold mbind at 1. unfold M_bind. rewrite getFileFromGitHub_fetched, Hc.
  cbn [content]. rewrite Hmod. unfold mret, M_ret. cbv beta iota. cbn [negb].
  unfold mbind, M_bind. by rewrite (save_fetched s _ _ _ _ Hp).
Qed.

(** X17: who may delete a post.  On a listed post whose document and whose
    community document are in place, a delete request is answered with
    success, and leaves the tombstone, exactly when its user is the super
    admin, the author of the post or a moderator of the community of the
    post; every other request, and the request without a user, is
    answered 403 and writes nothing. *)
Theorem deletePost_permission (postId : string) (username : option string) (s : Store)
    (i : IndexDoc) (h : option Sha) (ref : PostRef) (p : Post) (postSha : option Sha)
    (communityRef : CommunityRef) (communityData : Doc) (communitySha : option Sha) :
  fetched s indexPath = Ok (Some (mkResult (DIndex i) h)) →
  JsObj.get postId (posts i) = Some ref →
  fetched s (DATA_PATH ++ "/" ++ pr_file ref) = Ok (Some (mkResult (DPost p) postSha)) →
  JsObj.get (p_community p) (communities i) = Some communityRef →
  fetched s (DATA_PATH ++ "/" ++ cr_file communityRef)
  = Ok (Some (mkResult communityData communitySha)) →
  let allowed :=
    bool_decide (username = Some "timco") || bool_decide (username = Some (p_author p))
    || isModerator communityData username in
  deletePost postId username s
  = if allowed
    then (mkResponse 200 BSuccess,
          written (DATA_PATH ++ "/" ++ pr_file ref) (DPost (setDeleted p)) s)
    else (mkResponse 403 (BError "Permission denied"), s).
Proof.
  intros Hi Href Hp Hcref Hc allowed. subst allowed.
  destruct (bool_decide (username = Some "timco")) eqn:Hadmin.
  { apply bool_decide_eq_true in Hadmin. cbn [orb].
    eapply deletePost_allowed; eauto. }
  destruct (bool_decide (username = Some (p_author p))) eqn:Hauthor.
  { apply bool_decide_eq_true in Hauthor. cbn [orb].
    eapply deletePost_allowed; eauto. }
  apply bool_decide_eq_false in Hadmin, Hauthor. cbn [orb].
  destruct (isModerator communityData username) eqn:Hmod.
  - by eapply deletePost_moderator.
  - by eapply deletePost_refused.
Qed.

Lemma deletePost_permission_witness :
  deletePost helloId (Some "mallory") helloStore
  = (mkResponse 403 (BError "Permission denied"), helloStore)
  ∧ deletePost bobId (Some "alice") bobStore
    = (mkResponse 200 BSuccess,
       written (DATA_PATH ++ "/" ++ pr_file bobRef) (DPost (setDeleted bobPost)) bobStore).
Proof.
  split.
  - apply (deletePost_permission helloId (Some "mallory") helloStore helloIndex
             (Some 6%nat) helloRef helloPost (Some 4%nat) gamingRef
             (DCommunity (unshiftCommunityPost helloId gaming)) (Some 5%nat)
             ltac:(vm_compute; reflexivity) ltac:(vm_compute; reflexivity)
             ltac:(vm_compute; reflexivity) ltac:(vm_compute; reflexivity)
             ltac:(vm_compute; reflexivity)).
  - apply (deletePost_permission bobId (Some "alice") bobStore bobIndex
             (Some 10%nat) bobRef bobPost (Some 8%nat) gamingRef
             (DCommunity bobGaming) (Some 9%nat)
             ltac:(vm_compute; reflexivity) ltac:(vm_compute; reflexivity)
             ltac:(vm_compute; reflexivity) ltac:(vm_compute; reflexivity)
             ltac:(vm_compute; reflexivity)).
Defined.

(** X18: a post is deleted once by its author.  The tombstone has the
    author ["[deleted]"]: after the delete request of the author of a
    post, who is neither the super admin nor a moderator of the community
    of the post and is not called ["[deleted]"], the same request once
    more is answered 403 and writes nothing. *)
Theorem deletePost_once (postId : string) (username : option string) (s : Store)
    (i : IndexDoc) (h : option Sha) (ref : PostRef) (p : Post) (postSha : option Sha)
    (communityRef : CommunityRef) (communityData : Doc) (communitySha : option Sha) :
  fetched s indexPath = Ok (Some (mkResult (DIndex i) h)) →
  JsObj.get postId (posts i) = Some ref →
  fetched s (DATA_PATH ++ "/" ++ pr_file ref) = Ok (Some (mkResult (DPost p) postSha)) →
  JsObj.get (p_community p) (communities i) = Some communityRef →
  fetched s (DATA_PATH ++ "/" ++ cr_file communityRef)
  = Ok (Some (mkResult communityData communitySha)) →
  communityData ≠ DPost p →
  username = Some (p_author p) →
  username ≠ Some "timco" →
  p_author p ≠ "[deleted]" →
  isModerator communityData username = false →
  let s' := (deletePost postId username s).2 in
  status (deletePost postId username s).1 = 200%nat
  ∧ deletePost postId username s' = (mkResponse 403 (BError "Permission denied"), s').
Proof.
  intros Hi Href Hp Hcref Hc Hkind Hauthor Hadmin Hname Hmod s'. subst s'.
  rewrite (deletePost_allowed postId username s i h ref p postSha) by eauto.
  cbn [fst snd]. split; [done|].
  destruct (written_post_existing s i h _ p (setDeleted p) postSha Hi Hp) as [Hi1 Hp1].
  eapply (deletePost_refused postId username _ i h ref (setDeleted p) _
            communityRef communityData communitySha); try done.
  - rewrite fetched_written_ne; [done|].
    apply (fetched_distinct s _ _ _ _ _ _ Hp Hc). congruence.
  - rewrite Hauthor. simpl. congruence.
Qed.

Lemma deletePost_once_witness :
  let s' := (deletePost bobId (Some "bob") bobStore).2 in
  status (deletePost bobId (Some "bob") bobStore).1 = 200%nat
  ∧ deletePost bobId (Some "bob") s' = (mkResponse 403 (BError "Permission denied"), s').
Proof.
  apply (deletePost_once bobId (Some "bob") bobStore bobIndex (Some 10%nat) bobRef
           bobPost (Some 8%nat) gamingRef (DCommunity bobGaming) (Some 9%nat)
           ltac:(vm_compute; reflexivity) ltac:(vm_compute; reflexivity)
           ltac:(vm_compute; reflexivity) ltac:(vm_compute; reflexivity)
           ltac:(vm_compute; reflexivity) ltac:(discriminate) ltac:(reflexivity)
           ltac:(discriminate) ltac:(discriminate) ltac:(vm_compute; reflexivity)).
Defined.


(** ** The posts of a community *)

Lemma insertSorted_Permutation {A : Type} (compare : A → A → Z) (x : A) (l : list A) :
  insertSorted compare x l ≡ₚ x :: l.
Proof.
  induction l as [|y l IH]; [done|]; simpl.
  destruct (Z.leb _ _); [done|]. rewrite IH. apply Permutation_swap.
Qed.

Lemma sort_Permutation {A : Type} (compare : A → A → Z) (l : list A) :
  sort compare l ≡ₚ l.
Proof.
  induction l as [|x l IH]; [done|]. unfold sort in *; simpl.
  by rewrite insertSorted_Permutation, IH.
Qed.

Lemma insertSorted_ext {A : Type} (compare compare' : A → A → Z) (x : A) (l : list A) :
  (∀ y, y ∈ l → compare x y = compare' x y) →
  insertSorted compare x l = insertSorted compare' x l.
Proof.
  induction l as [|y l IH]; [done|]; intros Hsame; simpl.
  rewrite (Hsame y) by apply list_elem_of_here.
  destruct (Z.leb _ _); [done|]. f_equal. apply IH.
  intros z Hz. apply Hsame. by apply list_elem_of_further.
Qed.

Lemma sort_ext {A : Type} (compare compare' : A → A → Z) (l : list A) :
  (∀ x y, x ∈ l → y ∈ l → compare x y = compare' x y) →
  sort compare l = sort compare' l.
Proof.
  induction l as [|x l IH]; [done|]; intros Hsame. unfold sort in *; simpl.
  rewrite IH.
  - apply insertSorted_ext. intros y Hy. apply Hsame; [apply list_elem_of_here|].
    apply list_elem_of_further. by rewrite <- (sort_Permutation compare' l).
  - intros y z Hy Hz. apply Hsame; by apply list_elem_of_further.
Qed.

Lemma insertSorted_scoreOrder (x : PostView) (l : list PostView) :
  is_Some (viewScore x) → Forall (λ v, is_Some (viewScore v)) l →
  ordered scoreOrder l →
  ordered scoreOrder (insertSorted (descending viewScore) x l).
Proof.
  intros [kx Hx] Hl.
  induction l as [|y l IH]; intros Hsorted; simpl.
  - by repeat constructor.
  - apply Forall_cons in Hl as [[ky Hky] Hl]. destruct Hsorted as [Hy Hsorted].
    unfold descending at 1. rewrite Hx, Hky.
    destruct (Z.leb (ky - kx) 0) eqn:Hle.
    + apply Z.leb_le in Hle. split; [|by split].
      constructor.
      * intros a b. rewrite Hx, Hky. intros [= <-] [= <-]. lia.
      * eapply Forall_impl; [exact Hy|]. intros z Hz a b Ha Hb.
        rewrite Hx in Ha. injection Ha as <-.
        specialize (Hz ky b Hky Hb). lia.
    + apply Z.leb_gt in Hle. split; [|by apply IH].
      rewrite insertSorted_Permutation. constructor; [|done].
      intros a b. rewrite Hx, Hky. intros [= <-] [= <-]. lia.
Qed.

Lemma sort_scoreOrder (l : list PostView) :
  Forall (λ v, is_Some (viewScore v)) l →
  ordered scoreOrder (sort (descending viewScore) l).
Proof.
  induction 1 as [|x l Hx Hl IH]; [done|].
  change (sort (descending viewScore) (x :: l))
    with (insertSorted (descending viewScore) x (sort (descending viewScore) l)).
  apply insertSorted_scoreOrder; [done| |done].
  by rewrite sort_Permutation.
Qed.

Lemma slice0To_length {A : Type} (n : Z) (l : list A) :
  (0 ≤ n)%Z → (List.length (slice0To (Some n) l) ≤ Z.to_nat n)%nat.
Proof.
  intros Hn. unfold slice0To. rewrite bool_decide_eq_false_2 by lia.
  rewrite length_take. lia.
Qed.

(** The loop of a listing yields at most one view for each identifier, and
    its views of posts are the stored post documents without their ledger. *)
Lemma populatePosts_views (index : IndexDoc) (postIds : list string) (s s' : Store)
    (views : list PostView) :
  populatePosts index postIds s = (Ok views, s') →
  (List.length views ≤ List.length postIds)%nat
  ∧ Forall (λ view, ∀ p', pv_post view = DPost p' →
              ∃ path p, stored s path = Some (DPost p) ∧ p' = withoutVoters p) views.
Proof.
  revert views s'. induction postIds as [|postId rest IH]; intros views s'; simpl.
  - intros [= <- _]. split; [done|constructor].
  - destruct (JsObj.get postId (posts index)) as [ref|].
    2: { intros H. destruct (IH _ _ H) as [Hlen Hviews]. split; [lia|done]. }
    unfold mbind at 1. unfold M_bind. rewrite getFileFromGitHub_fetched.
    destruct (fetched s (DATA_PATH ++ "/" ++ pr_file ref)) as [[[d h]|]|e] eqn:Hf.
    2: { intros H. destruct (IH _ _ H) as [Hlen Hviews]. split; [lia|done]. }
    2: done.
    cbn [content]. unfold mbind, M_bind.
    destruct d as [o| | | |p|]; try done; unfold mret, M_ret;
      destruct (populatePosts index rest s) as [[views'|e] s1] eqn:Hrest; try done;
      intros [= <- _]; destruct (IH _ _ eq_refl) as [Hlen Hviews];
      (split; [simpl; lia|]); constructor; try done.
    intros p' [= <-]. exists (DATA_PATH ++ "/" ++ pr_file ref), p.
    split; [by eapply fetched_stored|done].
Qed.

(** The route up to its sort: an answer that does not depend on the order
    asked for, or the posts to sort. *)
Lemma getCommunityPosts_sorts (community : string) (limit : option Z) (s : Store) :
  ∃ (x : Reply + list PostView) (s' : Store),
    (∀ order,
       getCommunityPosts community order limit s
       = (match x with
          | inl answer => answer
          | inr views => mkReply 200 (PPosts (sortPosts order views))
          end, s'))
    ∧ (s' = s ∨ s' = repaired s)
    ∧ (∀ answer, x = inl answer → r_status answer ≠ 200%nat)
    ∧ (∀ views, x = inr views →
         (∀ n, limit = Some n → (0 ≤ n)%Z → (List.length views ≤ Z.to_nat n)%nat)
         ∧ (limit = None → views = [])
         ∧ Forall (λ view, ∀ p', pv_post view = DPost p' →
                     ∃ path p, stored s' path = Some (DPost p) ∧ p' = withoutVoters p)
             views).
Proof.
  unfold getCommunityPosts, serve. unfold mbind at 1. unfold M_bind.
  destruct (getIndex s) as [[[index h]|e] s1] eqn:Hidx.
  all: assert (Hs1 : s1 = s ∨ s1 = repaired s)
    by (destruct (getIndex_writes _ _ _ Hidx) as [->|(-> & _ & _)]; eauto).
  2: { exists (inl (mkReply 500 (PException e))), s1. split; [done|]. split; [done|].
       split; [by intros ? [= <-]|done]. }
  destruct (JsObj.get community (communities index)) as [ref|].
  2: { exists (inl (mkReply 404 (PError "Community not found"))), s1. split; [done|].
       split; [done|]. split; [by intros ? [= <-]|done]. }
  unfold mbind at 1. unfold M_bind. rewrite getFileFromGitHub_fetched.
  destruct (fetched s1 (DATA_PATH ++ "/" ++ cr_file ref)) as [[[d hd]|]|e].
  2: { exists (inl (mkReply 500 (PException TypeError))), s1. split; [done|].
       split; [done|]. split; [by intros ? [= <-]|done]. }
  2: { exists (inl (mkReply 500 (PException e))), s1. split; [done|]. split; [done|].
       split; [by intros ? [= <-]|done]. }
  destruct d as [| | |c| |];
    try (exists (inl (mkReply 500 (PException TypeError))), s1; split; [done|];
         split; [done|]; split; [by intros ? [= <-]|done]).
  unfold mbind, M_bind.
  pose proof (populatePosts_reads index (slice0To limit (co_posts c)) s1) as Hreads.
  destruct (populatePosts index _ s1) as [[views|e] s2] eqn:Hviews;
    simpl in Hreads; subst s2.
  2: { exists (inl (mkReply 500 (PException e))), s1. split; [done|]. split; [done|].
       split; [by intros ? [= <-]|done]. }
  exists (inr views), s1. split; [done|]. split; [done|]. split; [done|].
  intros ? [= <-]. destruct (populatePosts_views _ _ _ _ _ Hviews) as [Hlen Hstored].
  split; [|split; [|done]].
  - intros n -> Hn. pose proof (slice0To_length n (co_posts c) Hn). lia.
  - intros ->. simpl in Hlen. by destruct views.
Qed.

(** X19: the listing of a community.  A listing that is answered 200
    answers with the posts that the same request with the order ["new"]
    answers with, in some order, and leaves the same store; with at most
    [limit] posts for a limit that is not negative, and with none for a
    limit that is not a number; and for the order ["hot"], when all its
    posts have a score, with every post in front of the posts whose score
    is not above its own. *)
Theorem getCommunityPosts_lists (community order : string) (limit : option Z)
    (s s' : Store) (answer : Reply) :
  getCommunityPosts community order limit s = (answer, s') →
  r_status answer = 200%nat →
  ∃ views views',
    r_body answer = PPosts views
    ∧ getCommunityPosts community "new" limit s = (mkReply 200 (PPosts views'), s')
    ∧ views ≡ₚ views'
    ∧ (∀ n, limit = Some n → (0 ≤ n)%Z → (List.length views ≤ Z.to_nat n)%nat)
    ∧ (limit = None → views = [])
    ∧ (order = "hot" → Forall (λ view, is_Some (viewScore view)) views →
       ordered scoreOrder views).
Proof.
  intros E H200.
  destruct (getCommunityPosts_sorts community limit s)
    as (x & s1 & Hx & _ & Hno & Hviews).
  rewrite Hx in E. injection E as <- <-.
  destruct x as [other|views']; [by destruct (Hno other eq_refl)|].
  destruct (Hviews views' eq_refl) as (Hlen & Hnan & _).
  exists (sortPosts order views'), views'. split; [done|].
  split; [by rewrite Hx|].
  assert (Hperm : sortPosts order views' ≡ₚ views').
  { unfold sortPosts. repeat case_bool_decide; try done; apply sort_Permutation. }
  split; [done|]. split; [|split].
  - intros n Hn Hpos. rewrite Hperm. by apply Hlen.
  - intros Hn. rewrite (Hnan Hn). unfold sortPosts. by repeat case_bool_decide.
  - intros -> Hall. unfold sortPosts in *. rewrite bool_decide_eq_true_2 in * by done.
    apply sort_scoreOrder. by rewrite <- (sort_Permutation (descending viewScore)).
Qed.

Lemma getCommunityPosts_lists_witness :
  ∃ views views',
    r_body (getCommunityPosts "gaming" "hot" (Some 25) agedStore).1 = PPosts views
    ∧ getCommunityPosts "gaming" "new" (Some 25) agedStore
      = (mkReply 200 (PPosts views'),
         (getCommunityPosts "gaming" "hot" (Some 25) agedStore).2)
    ∧ views ≡ₚ views'
    ∧ (∀ n, Some 25 = Some n → (0 ≤ n)%Z → (List.length views ≤ Z.to_nat n)%nat)
    ∧ (Some 25 = None → views = [])
    ∧ ("hot" = "hot" → Forall (λ view, is_Some (viewScore view)) views →
       ordered scoreOrder views).
Proof.
  apply (getCommunityPosts_lists "gaming" "hot" (Some 25) agedStore _
           (getCommunityPosts "gaming" "hot" (Some 25) agedStore).1
           ltac:(apply surjective_pairing) ltac:(vm_compute; reflexivity)).
Defined.

Lemma scoresSound_stored (s : Store) (path : string) (p : Post) :
  scoresSound s → stored s path = Some (DPost p) →
  p_score p = p_upvotes p - p_downvotes p.
Proof.
  unfold scoresSound, stored. intros Hsound Hp.
  destruct (files s !! path) as [f|] eqn:Hf; [|done].
  specialize (Hsound path f Hf). cbn [fmap option_fmap option_map] in Hp.
  cbv beta in Hsound, Hp. injection Hp as Hp. rewrite Hp in Hsound.
  by apply bool_decide_eq_true in Hsound.
Qed.

Lemma scoresSound_written (s : Store) (path : string) (d : Doc) :
  scoreSound d = true → scoresSound s → scoresSound (written path d s).
Proof. intros Hd Hs. unfold scoresSound, written; simpl. by apply map_Forall_insert_2. Qed.

(** X20: ["hot"] and ["top"] are one order.  On a store whose post
    documents have the score of their counters, the listing of a community
    in the order ["hot"] is its listing in the order ["top"], for every
    community and limit: same answer, same store. *)
Theorem hot_is_top (community : string) (limit : option Z) (s : Store) :
  scoresSound s →
  getCommunityPosts community "hot" limit s = getCommunityPosts community "top" limit s.
Proof.
  intros Hsound.
  destruct (getCommunityPosts_sorts community limit s)
    as (x & s1 & Hx & Hs1 & _ & Hviews).
  rewrite !Hx. destruct x as [other|views]; [done|].
  destruct (Hviews views eq_refl) as (_ & _ & Hstored).
  assert (Hsound1 : scoresSound s1).
  { destruct Hs1 as [-> | ->]; [done|]. by apply scoresSound_written. }
  do 3 f_equal. unfold sortPosts; simpl.
  apply sort_ext. intros a b Ha Hb.
  assert (Hkey : ∀ view, view ∈ views → viewScore view = viewBalance view).
  { intros view Hview. rewrite Forall_forall in Hstored.
    specialize (Hstored view Hview). unfold viewScore, viewBalance.
    destruct (pv_post view) as [| | | |p'|]; try done.
    destruct (Hstored p' eq_refl) as (path & p & Hp & ->). simpl.
    by rewrite (scoresSound_stored _ _ _ Hsound1 Hp). }
  unfold descending. by rewrite (Hkey a Ha), (Hkey b Hb).
Qed.

Lemma hot_is_top_witness :
  getCommunityPosts "gaming" "hot" (Some 25) agedStore
  = getCommunityPosts "gaming" "top" (Some 25) agedStore.
Proof.
  apply (hot_is_top "gaming" (Some 25) agedStore).
  apply (bool_decide_unpack _). vm_compute. exact I.
Defined.


(** ** The configuration of the retention *)

Lemma configPath_not_index : configPath ≠ indexPath.
Proof. unfold configPath, indexPath, DATA_PATH; simpl. by intros [=]. Qed.

Lemma getConfig_stored (s : Store) (days : Z) (h : option Sha) :
  fetched s configPath = Ok (Some (mkResult (DConfig days) h)) →
  getConfig s = (Ok (Some days), s).
Proof.
  intros Hf. unfold getConfig. unfold mbind, M_bind.
  by rewrite getFileFromGitHub_fetched, Hf.
Qed.

(** X21: a new retention takes effect at once.  The route stores
    [parseInt] of the number that the body gives as retention.  On a store
    without config.json, whose index is in place, the request of the super
    admin with a number other than 0 is answered with success and with the
    stored retention, and runs the retention job under it within the
    request: the store it leaves is the one that a run of the job under
    the stored retention leaves, and [getConfig] reads that retention from
    it.  The stored retention is the number of the body when [parseInt]
    returns it, as it does up to 10^21, and another one otherwise: for
    10^21 the retention is one day.  A request of anyone else is answered
    403, and a request of the super admin without a retention, or with the
    retention 0, is answered 400; neither writes. *)
Theorem adminConfig_takes_effect (parseInt : Z → Z) (username : option string)
    (retentionDays : option Z) (days : Z) (s : Store) (i : IndexDoc) (h : option Sha) :
  files s !! configPath = None →
  configPath ∉ getFault s →
  fetched s indexPath = Ok (Some (mkResult (DIndex i) h)) →
  isEmptyObject (DIndex i) = false →
  NoDup (posts i).*1 →
  days ≠ 0 →
  postRefsSound (written configPath (DConfig (parseInt days)) s) i = true →
  let configured := written configPath (DConfig (parseInt days)) s in
  adminConfig parseInt (Some "timco") (Some days) s
  = (mkReply 200 (PConfig (parseInt days)), swept configured (parseInt days) i)
  ∧ stored configured configPath = Some (DConfig (parseInt days))
  ∧ (getConfig (swept configured (parseInt days) i)).1 = Ok (Some (parseInt days))
  ∧ (username ≠ Some "timco" →
     adminConfig parseInt username retentionDays s
     = (mkReply 403 (PError "Permission denied. Only super admin can change config."), s))
  ∧ (retentionDays = None ∨ retentionDays = Some 0 →
     adminConfig parseInt (Some "timco") retentionDays s
     = (mkReply 400 (PError "Valid retentionDays required"), s)).
Proof.
  intros Hfree Hserved Hi Hne Hnodup Hdays Hsound configured. subst configured.
  set (stored_days := parseInt days) in *.
  set (configured := written configPath (DConfig stored_days) s) in *.
  assert (Hcfg : fetched configured configPath
                 = Ok (Some (mkResult (DConfig stored_days) (Some (nextSha s)))))
    by (by apply fetched_written_eq).
  assert (Hi1 : fetched configured indexPath = Ok (Some (mkResult (DIndex i) h))).
  { unfold configured. rewrite fetched_written_ne; [done|]. apply configPath_not_index. }
  split; [|split; [|split; [|split]]].
  - unfold adminConfig, serve. rewrite bool_decide_eq_true_2 by done. cbn [negb].
    rewrite bool_decide_eq_false_2 by done. cbv zeta. fold stored_days.
    unfold mbind at 1. unfold M_bind. unfold saveConfig.
    rewrite (save_create _ _ _ Hfree). fold configured.
    unfold mbind, M_bind.
    rewrite (cleanupOldPosts_swept configured stored_days i h); try done.
    by rewrite (getConfig_stored _ _ _ Hcfg).
  - by apply (fetched_stored _ _ _ _ Hcfg).
  - assert (Hkeep : fetched (swept configured stored_days i) configPath
                    = fetched configured configPath).
    { unfold fetched.
      assert (getFault (swept configured stored_days i) = getFault configured) as ->.
      { unfold swept. destruct (decide _); [done|]. simpl.
        by destruct (removeAll_frame (postPath <$> (doomed configured stored_days i).*2)
                       configured) as (_ & _ & -> & _). }
      rewrite swept_lookup; [done|apply configPath_not_index|].
      intros (meta & Hpath & Hmeta)%list_elem_of_fmap.
      apply list_elem_of_fmap in Hmeta as (entry & -> & Hentry).
      destruct (doomed_stored _ _ _ _ Hsound Hentry) as [(post & Hpost & _)|(o & Ho)].
      - rewrite <- Hpath, (fetched_stored _ _ _ _ Hcfg) in Hpost. done.
      - rewrite <- Hpath, (fetched_stored _ _ _ _ Hcfg) in Ho. done. }
    rewrite Hcfg in Hkeep. by rewrite (getConfig_stored _ _ _ Hkeep).
  - intros Hwho. unfold adminConfig, serve. by rewrite bool_decide_eq_false_2.
  - intros [-> | ->]; unfold adminConfig, serve; by rewrite bool_decide_eq_true_2.
Qed.

Lemma adminConfig_takes_effect_witness :
  (let configured := written configPath (DConfig 10) agedStore in
   adminConfig parseIntOf (Some "timco") (Some 10) agedStore
   = (mkReply 200 (PConfig 10), swept configured 10 agedIndex)
   ∧ stored configured configPath = Some (DConfig 10)
   ∧ (getConfig (swept configured 10 agedIndex)).1 = Ok (Some 10)
   ∧ (Some "alice" ≠ Some "timco" →
      adminConfig parseIntOf (Some "alice") (Some 0) agedStore
      = (mkReply 403 (PError "Permission denied. Only super admin can change config."),
         agedStore))
   ∧ (Some 0 = None ∨ Some 0 = Some 0 →
      adminConfig parseIntOf (Some "timco") (Some 0) agedStore
      = (mkReply 400 (PError "Valid retentionDays required"), agedStore)))
  ∧ (let configured := written configPath (DConfig 1) agedStore in
     adminConfig parseIntOf (Some "timco") (Some (10 ^ 21)) agedStore
     = (mkReply 200 (PConfig 1), swept configured 1 agedIndex)
     ∧ stored configured configPath = Some (DConfig 1)).
Proof.
  split.
  - apply (adminConfig_takes_effect parseIntOf (Some "alice") (Some 0) 10 agedStore
             agedIndex (Some 3%nat)).
    + vm_compute. reflexivity.
    + vm_compute. set_solver.
    + vm_compute. reflexivity.
    + reflexivity.
    + apply (bool_decide_unpack _). vm_compute. exact I.
    + discriminate.
    + vm_compute. reflexivity.
  - pose proof (adminConfig_takes_effect parseIntOf (Some "alice") (Some 0) (10 ^ 21)
                  agedStore agedIndex (Some 3%nat)
                  ltac:(vm_compute; reflexivity) ltac:(vm_compute; set_solver)
                  ltac:(vm_compute; reflexivity) ltac:(reflexivity)
                  ltac:(apply (bool_decide_unpack _); vm_compute; exact I)
                  ltac:(discriminate) ltac:(vm_compute; reflexivity))
      as (E & Hstored & _).
    split; [exact E | exact Hstored].
Defined.


(** ** Who may edit a community *)

Lemma updateCommunity_existing (community : string) (u : CommunityUpdate) (s : Store)
    (i : IndexDoc) (h : option Sha) (ref : CommunityRef) (c : Community)
    (communitySha : option Sha) :
  fetched s indexPath = Ok (Some (mkResult (DIndex i) h)) →
  JsObj.get community (communities i) = Some ref →
  fetched s (DATA_PATH ++ "/" ++ cr_file ref)
  = Ok (Some (mkResult (DCommunity c) communitySha)) →
  updateCommunity community u s
  = if mayEdit (DCommunity c) (cu_user u) then
      let c' := applyCommunityUpdate u c in
      let s1 := written (DATA_PATH ++ "/" ++ cr_file ref) (DCommunity c') s in
      (mkResponse 200 (BDoc (DCommunity c')),
       match cu_iconUrl u with
       | Some icon =>
           written indexPath
             (DIndex (setLastUpdated (clock s)
                        (setCommunities
                           (JsObj.set community (setRefIcon icon ref) (communities i))
                           (ensureMaps i))))
             s1
       | None => s1
       end)
    else (mkResponse 403 (BError "Only moderators can edit community"), s).
Proof.
  intros Hi Href Hc. unfold updateCommunity, route.
  unfold mbind at 1. unfold M_bind. unfold updateCommunityRead.
  unfold mbind at 1. unfold M_bind.
  rewrite (getIndex_stored s i h Hi (communities_not_empty _ _ _ Href)).
  rewrite communities_ensureMaps, Href.
  unfold mbind at 1. unfold M_bind. rewrite getFileFromGitHub_fetched, Hc.
  cbn [content sha].
  destruct (mayEdit (DCommunity c) (cu_user u)); [|done]. cbn [negb].
  unfold mret, M_ret. cbv beta iota. unfold updateCommunityResume, updateCommunityWrite.
  cbn [h_path h_communityData h_sha h_index h_indexSha h_iconChanged].
  unfold mbind at 1. unfold M_bind.
  rewrite (save_fetched s _ _ _ _ Hc).
  destruct (cu_iconUrl u) as [icon|]; [|done].
  rewrite bool_decide_eq_true_2 by done.
  unfold mbind at 1. unfold M_bind. unfold updateIndex, now.
  unfold mbind at 1. unfold M_bind.
  assert (Hi1 : fetched (written (DATA_PATH ++ "/" ++ cr_file ref)
                           (DCommunity (applyCommunityUpdate u c)) s) indexPath
                = Ok (Some (mkResult (DIndex i) h))).
  { rewrite fetched_written_ne; [done|].
    apply (fetched_distinct s _ _ _ _ _ _ Hc Hi). discriminate. }
  by rewrite (save_fetched _ _ _ _ _ Hi1).
Qed.

(** X22: who may edit a community, and what an edit changes.  On a listed
    community whose document is in place, an update request by a user who
    is neither a moderator nor the creator of the community nor the super
    admin, or without a user, is answered 403 and writes nothing.  The
    request of a user who is one of these is answered 200 with the stored
    document, in which the members, the moderators, the member count, the
    posts, the name and the creator are as before; when it sets an icon,
    the index has this icon for the community, and otherwise the index is
    as before. *)
Theorem updateCommunity_edits (community : string) (u : CommunityUpdate) (s : Store)
    (i : IndexDoc) (h : option Sha) (ref : CommunityRef) (c : Community)
    (communitySha : option Sha) :
  fetched s indexPath = Ok (Some (mkResult (DIndex i) h)) →
  JsObj.get community (communities i) = Some ref →
  fetched s (DATA_PATH ++ "/" ++ cr_file ref)
  = Ok (Some (mkResult (DCommunity c) communitySha)) →
  let s' := (updateCommunity community u s).2 in
  let allowed :=
    match cu_user u with
    | Some user =>
        bool_decide (user ∈ default [] (co_moderators c))
        || bool_decide (user = co_creator c) || bool_decide (user = "timco")
    | None => false
    end in
  (allowed = false →
   updateCommunity community u s
   = (mkResponse 403 (BError "Only moderators can edit community"), s))
  ∧ (allowed = true →
     ∃ c',
       (updateCommunity community u s).1 = mkResponse 200 (BDoc (DCommunity c'))
       ∧ stored s' (DATA_PATH ++ "/" ++ cr_file ref) = Some (DCommunity c')
       ∧ (co_members c', co_moderators c', co_memberCount c', co_posts c')
         = (co_members c, co_moderators c, co_memberCount c, co_posts c)
       ∧ (co_id c', co_name c', co_creator c', co_createdAt c')
         = (co_id c, co_name c, co_creator c, co_createdAt c)
       ∧ co_description c' = default (co_description c) (cu_description u)
       ∧ (∀ icon, cu_iconUrl u = Some icon →
            co_iconUrl c' = icon
            ∧ ∃ i', stored s' indexPath = Some (DIndex i')
                    ∧ iconOf i' (Some community) = icon)
       ∧ (cu_iconUrl u = None → stored s' indexPath = stored s indexPath)).
Proof.
  intros Hi Href Hc s' allowed. subst s'.
  assert (Hne : DATA_PATH ++ "/" ++ cr_file ref ≠ indexPath).
  { apply (fetched_distinct s _ _ _ _ _ _ Hc Hi). discriminate. }
  rewrite (updateCommunity_existing community u s i h ref c communitySha) by done.
  assert (Hallowed : mayEdit (DCommunity c) (cu_user u) = allowed).
  { unfold mayEdit, allowed. destruct (cu_user u) as [user|];
      [|by destruct (co_moderators c)].
    assert (Hcreator : bool_decide (Some (co_creator c) = Some user)
                       = bool_decide (user = co_creator c))
      by (apply bool_decide_ext; split; [by intros [= ->]|by intros ->]).
    assert (Hadmin : bool_decide (Some user = Some "timco")
                     = bool_decide (user = "timco"))
      by (apply bool_decide_ext; split; [by intros [= ->]|by intros ->]).
    rewrite Hcreator, Hadmin.
    destruct (co_moderators c) as [moderators|]; [done|].
    change (default [] None) with (@nil string).
    by rewrite (bool_decide_eq_false_2 (user ∈ [])) by apply not_elem_of_nil. }
  rewrite Hallowed. split; [by intros ->|]. intros ->. cbn zeta. cbn [fst snd].
  exists (applyCommunityUpdate u c). split; [done|]. split.
  { destruct (cu_iconUrl u); [rewrite stored_written_ne by done|];
      apply stored_written_eq. }
  split; [done|]. split; [done|]. split; [done|]. split.
  - intros icon Hicon. rewrite Hicon. split; [simpl; by rewrite Hicon|].
    eexists. split; [apply stored_written_eq|].
    unfold iconOf; simpl. unfold communities at 1; simpl.
    by rewrite JsObj_get_set_eq.
  - intros ->. by rewrite stored_written_ne.
Qed.

Lemma updateCommunity_edits_witness :
  let u := mkCommunityUpdate None (Some "icon.png") (Some "Games") (Some "alice") in
  let s' := (updateCommunity "gaming" u siteStore).2 in
  let allowed :=
    match cu_user u with
    | Some user =>
        bool_decide (user ∈ default [] (co_moderators gaming))
        || bool_decide (user = co_creator gaming) || bool_decide (user = "timco")
    | None => false
    end in
  (allowed = false →
   updateCommunity "gaming" u siteStore
   = (mkResponse 403 (BError "Only moderators can edit community"), siteStore))
  ∧ (allowed = true →
     ∃ c',
       (updateCommunity "gaming" u siteStore).1 = mkResponse 200 (BDoc (DCommunity c'))
       ∧ stored s' (DATA_PATH ++ "/" ++ cr_file gamingRef) = Some (DCommunity c')
       ∧ (co_members c', co_moderators c', co_memberCount c', co_posts c')
         = (co_members gaming, co_moderators gaming, co_memberCount gaming,
            co_posts gaming)
       ∧ (co_id c', co_name c', co_creator c', co_createdAt c')
         = (co_id gaming, co_name gaming, co_creator gaming, co_createdAt gaming)
       ∧ co_description c' = default (co_description gaming) (cu_description u)
       ∧ (∀ icon, cu_iconUrl u = Some icon →
            co_iconUrl c' = icon
            ∧ ∃ i', stored s' indexPath = Some (DIndex i')
                    ∧ iconOf i' (Some "gaming") = icon)
       ∧ (cu_iconUrl u = None → stored s' indexPath = stored siteStore indexPath)).
Proof.
  apply (updateCommunity_edits "gaming"
           (mkCommunityUpdate None (Some "icon.png") (Some "Games") (Some "alice"))
           siteStore siteIndex (Some 3%nat) gamingRef gaming (Some 2%nat)
           ltac:(vm_compute; reflexivity) ltac:(vm_compute; reflexivity)
           ltac:(vm_compute; reflexivity)).
Defined.


(** ** The saved posts of a user *)

Lemma removeFirst_elem_of (postId other : string) (l : list string) :
  NoDup l → other ∈ removeFirst postId l ↔ other ∈ l ∧ other ≠ postId.
Proof.
  induction l as [|x l IH]; simpl.
  - intros _. split; [by intros ?%elem_of_nil | by intros [?%elem_of_nil _]].
  - intros [Hx Hl]%NoDup_cons. destruct (decide (x = postId)) as [->|Hne].
    + split.
      * intros Hin. split; [by apply list_elem_of_further|]. by intros ->.
      * intros [[->|Hin]%elem_of_cons Hother]; done.
    + rewrite !elem_of_cons, (IH Hl). split.
      * intros [->|[Hin Hother]]; [by split; [left|]|by split; [right|]].
      * intros [[->|Hin] Hother]; [by left|by right].
Qed.

Lemma removeFirst_NoDup (postId : string) (l : list string) :
  NoDup l → NoDup (removeFirst postId l).
Proof.
  induction l as [|x l IH]; [done|]; simpl.
  intros [Hx Hl]%NoDup_cons. destruct (decide (x = postId)); [done|].
  apply NoDup_cons. split; [|by apply IH].
  rewrite (removeFirst_elem_of _ _ _ Hl). by intros [? _].
Qed.

Lemma removeFirst_pushed (postId : string) (l : list string) :
  postId ∉ l → removeFirst postId (l ++ [postId]) = l.
Proof.
  induction l as [|x l IH]; simpl.
  - intros _. by rewrite decide_True.
  - intros [Hne Hl]%not_elem_of_cons. rewrite decide_False by done. by rewrite IH.
Qed.

(** X23: saving and unsaving a post.  On a list of saved posts without
    repetition, the toggle answers [saved] exactly when the post was not
    on the list, leaves a list without repetition that has the post
    exactly when it answers [saved] and has every other post exactly when
    the list had it, and a second toggle answers the opposite; a post that
    was saved by the toggle and is toggled again leaves the list as it
    was at first. *)
Theorem toggleSaved_toggles (postId : string) (savedPosts : option (list string)) :
  NoDup (default [] savedPosts) →
  let before := default [] savedPosts in
  let saved := (toggleSaved postId savedPosts).1 in
  let after := (toggleSaved postId savedPosts).2 in
  (saved = true ↔ postId ∉ before)
  ∧ NoDup after
  ∧ (postId ∈ after ↔ saved = true)
  ∧ (∀ other, other ≠ postId → other ∈ after ↔ other ∈ before)
  ∧ (toggleSaved postId (Some after)).1 = negb saved
  ∧ (saved = true → (toggleSaved postId (Some after)).2 = before).
Proof.
  intros Hnodup before saved after. subst before saved after. unfold toggleSaved.
  change (default [] (Some ?l)) with l.
  set (before := default [] savedPosts) in *.
  destruct (bool_decide (postId ∈ before)) eqn:Hin; cbn [fst snd].
  - apply bool_decide_eq_true in Hin.
    assert (Hout : postId ∉ removeFirst postId before).
    { rewrite (removeFirst_elem_of _ _ _ Hnodup). by intros [_ ?]. }
    split; [split; [done|by intros ?]|].
    split; [by apply removeFirst_NoDup|].
    split; [split; [by intros ?|done]|].
    split.
    { intros other Hother. rewrite (removeFirst_elem_of _ _ _ Hnodup).
      split; [by intros [? _] | by intros ?; split]. }
    split; [|done]. by rewrite bool_decide_eq_false_2.
  - apply bool_decide_eq_false in Hin.
    assert (Hnew : postId ∈ (before ++ [postId])%list)
      by (apply elem_of_app; right; apply list_elem_of_here).
    split; [done|].
    split.
    { apply NoDup_app. split; [done|]. split; [|apply NoDup_singleton].
      by intros x Hx ->%list_elem_of_singleton. }
    split; [done|].
    split.
    { intros other Hother. rewrite elem_of_app, list_elem_of_singleton.
      split; [by intros [?|?] | by left]. }
    rewrite bool_decide_eq_true_2 by done. cbn [fst snd].
    split; [done|]. intros _. by apply removeFirst_pushed.
Qed.

Lemma toggleSaved_toggles_witness :
  let before := default [] (Some ["p-1"; "p-2"]) in
  let saved := (toggleSaved "p-3" (Some ["p-1"; "p-2"])).1 in
  let after := (toggleSaved "p-3" (Some ["p-1"; "p-2"])).2 in
  (saved = true ↔ "p-3" ∉ before)
  ∧ NoDup after
  ∧ ("p-3" ∈ after ↔ saved = true)
  ∧ (∀ other, other ≠ "p-3" → other ∈ after ↔ other ∈ before)
  ∧ (toggleSaved "p-3" (Some after)).1 = negb saved
  ∧ (saved = true → (toggleSaved "p-3" (Some after)).2 = before).
Proof.
  apply (toggleSaved_toggles "p-3" (Some ["p-1"; "p-2"])).
  apply (bool_decide_unpack _). vm_compute. exact I.
Defined.

(** ** The profanity filter *)

Lemma prefix_app (w s b : string) :
  String.prefix w s = true → String.prefix w (s ++ b) = true.
Proof.
  revert s. induction w as [|c w IH]; intros s.
  - intros _. by destruct (s ++ b).
  - destruct s as [|c' s]; simpl; [done|].
    destruct (ascii_dec c c'); [apply IH|done].
Qed.

Lemma includes_unfold (s w : string) :
  includes s w
  = String.prefix w s
    || match s with
       | EmptyString => false
       | String _ s' => includes s' w
       end.
Proof. by destruct s. Qed.

Lemma includes_app_r (s b w : string) :
  includes s w = true → includes (s ++ b) w = true.
Proof.
  induction s as [|c s IH]; rewrite includes_unfold.
  - rewrite orb_false_r. intros Hp. rewrite includes_unfold.
    apply orb_true_iff. left. by apply (prefix_app w "" b).
  - intros [Hp|Hs]%orb_true_iff; simpl String.append; rewrite includes_unfold;
      apply orb_true_iff; [left; by apply (prefix_app w (String c s) b)|right; by apply IH].
Qed.

Lemma includes_app_l (a s w : string) :
  includes s w = true → includes (a ++ s) w = true.
Proof.
  intros Hs. induction a as [|c a IH]; [done|].
  simpl String.append. rewrite includes_unfold. apply orb_true_iff. by right.
Qed.

Lemma toLowerCase_app (a b : string) :
  toLowerCase (a ++ b) = toLowerCase a ++ toLowerCase b.
Proof. induction a as [|c a IH]; [done|]; simpl. by rewrite IH. Qed.

Lemma lowerAscii_idemp (c : ascii) : lowerAscii (lowerAscii c) = lowerAscii c.
Proof. destruct c as [[] [] [] [] [] [] [] []]; vm_compute; reflexivity. Qed.

Lemma toLowerCase_idemp (s : string) : toLowerCase (toLowerCase s) = toLowerCase s.
Proof. induction s as [|c s IH]; [done|]; simpl. by rewrite lowerAscii_idemp, IH. Qed.

Lemma hasProfanity_includes (text : string) :
  hasProfanity text = existsb (includes (toLowerCase text)) BAD_WORDS.
Proof. unfold hasProfanity. destruct (decide (text = "")) as [->|]; [|done]. done. Qed.

(** X24: what the profanity filter flags.  A text that has a flagged text
    inside it is flagged, whatever stands before and after, and whether a
    text is flagged does not depend on the case of its letters: the filter
    flags a text exactly when it flags the text in lower case.  So it
    flags every word that has a listed word inside it. *)
Theorem hasProfanity_embedded (text : string) :
  (∀ before after,
     hasProfanity text = true → hasProfanity (before ++ text ++ after) = true)
  ∧ hasProfanity (toLowerCase text) = hasProfanity text
  ∧ (∀ word, word ∈ BAD_WORDS → includes (toLowerCase text) word = true →
       hasProfanity text = true).
Proof.
  split; [|split].
  - intros before after. rewrite !hasProfanity_includes, !toLowerCase_app.
    intros (word & Hword & Hin)%existsb_exists. apply existsb_exists.
    exists word. split; [done|]. by apply includes_app_l, includes_app_r.
  - by rewrite !hasProfanity_includes, toLowerCase_idemp.
  - intros word Hword Hin. rewrite hasProfanity_includes. apply existsb_exists.
    exists word. split; [|done]. by apply list_elem_of_In.
Qed.

Lemma hasProfanity_embedded_witness : hasProfanity ("Mic" ++ "hell" ++ "e") = true.
Proof.
  apply (proj1 (hasProfanity_embedded "hell") "Mic" "e"). vm_compute. reflexivity.
Defined.

(** ** The slug of a post *)

Lemma length_append (a b : string) :
  String.length (a ++ b) = (String.length a + String.length b)%nat.
Proof. induction a as [|c a IH]; [done|]; simpl. by rewrite IH. Qed.

Lemma length_substring0 (n : nat) (s : string) : (String.length (slice0 n s) ≤ n)%nat.
Proof.
  unfold slice0. revert s. induction n as [|n IH]; intros [|c s]; simpl; try lia.
  specialize (IH s). lia.
Qed.

Lemma allChars_substring0 (test : ascii → bool) (n : nat) (s : string) :
  allChars test s = true → allChars test (slice0 n s) = true.
Proof.
  unfold slice0. revert s. induction n as [|n IH]; intros [|c s]; simpl; try done.
  intros [Hc Hs]%andb_true_iff. rewrite Hc. by apply IH.
Qed.

Lemma replaceRuns_allChars (inRun : bool) (s : string) :
  allChars isNameChar (replaceRuns inRun s) = true.
Proof.
  revert inRun. induction s as [|c s IH]; intros inRun; [done|]; simpl.
  destruct (isSlugChar c) eqn:Hc; simpl.
  - unfold isNameChar. by rewrite Hc, IH.
  - destruct inRun; [apply IH|]. simpl. by rewrite IH.
Qed.

Lemma append_inj_r (a b c : string) : a ++ b = a ++ c → b = c.
Proof. induction a as [|x a IH]; [done|]; simpl. intros [= H]. by apply IH. Qed.

(** X25: the slug of a post.  The slug is a base of at most 40 characters,
    all of them among [a-z], [0-9] and [_], then [_] and the first 8
    characters of the identifier of the post: at most 49 characters in
    all; and two posts with one title have different slugs whenever their
    identifiers differ within their first 8 characters. *)
Theorem makeSlug_shape (title postId : string) :
  (∃ base,
     makeSlug title postId = base ++ "_" ++ slice0 8 postId
     ∧ (String.length base ≤ 40)%nat
     ∧ allChars isNameChar base = true)
  ∧ (String.length (makeSlug title postId) ≤ 49)%nat
  ∧ (∀ postId', slice0 8 postId ≠ slice0 8 postId' →
       makeSlug title postId ≠ makeSlug title postId').
Proof.
  split; [|split].
  - eexists. split; [reflexivity|]. split; [apply length_substring0|].
    apply allChars_substring0, replaceRuns_allChars.
  - unfold makeSlug. rewrite !length_append.
    pose proof (length_substring0 40 (replaceRuns false (toLowerCase title))).
    pose proof (length_substring0 8 postId). simpl. lia.
  - intros postId' Hne Heq. unfold makeSlug in Heq.
    apply append_inj_r in Heq. by injection Heq.
Qed.

Lemma makeSlug_shape_witness :
  makeSlug "Hello World" "11111111-0000-4000-8000-000000000001"
  ≠ makeSlug "Hello World" "22222222-0000-4000-8000-000000000001".
Proof.
  apply (proj2 (proj2 (makeSlug_shape "Hello World"
                         "11111111-0000-4000-8000-000000000001"))
           "22222222-0000-4000-8000-000000000001").
  vm_compute. discriminate.
Defined.


(** ** A new post and the listing of its community *)

Lemma stored_distinct (s : Store) (path path' : string) (d d' : Doc) :
  stored s path = Some d → stored s path' = Some d' → d ≠ d' → path ≠ path'.
Proof. intros H H' Hne ->. congruence. Qed.

Lemma postFile_not_index (postId : string) :
  DATA_PATH ++ "/posts/" ++ postId ++ ".json" ≠ indexPath.
Proof. unfold indexPath, DATA_PATH; simpl. by intros [=]. Qed.

(** What a creation of a post that is answered 201 found and what it
    wrote: the post, the community with the post in front, the index with
    the entry of the post and, when the author has a user document, that
    document with the post in front. *)
Lemma createPost_201_inv (community title content author type postId : string)
    (s s' : Store) (r : Response) :
  createPost community title content author type postId s = (r, s') →
  status r = 201%nat →
  ∃ i h communityRef c communitySha,
    let post := newPost postId title content type author community (clock s) in
    let postFilePath := DATA_PATH ++ "/posts/" ++ postId ++ ".json" in
    let communityFilePath := DATA_PATH ++ "/" ++ cr_file communityRef in
    let index' :=
      setLastUpdated (clock s)
        (setPosts (JsObj.set postId
                     (mkPostRef ("posts/" ++ postId ++ ".json") community author (clock s)
                        (p_slug post))
                     (posts i)) (ensureMaps i)) in
    let s2 := written postFilePath (DPost post) s in
    let s3 := written communityFilePath (DCommunity (unshiftCommunityPost postId c)) s2 in
    let s4 := written indexPath (DIndex index') s3 in
    fetched s indexPath = Ok (Some (mkResult (DIndex i) h))
    ∧ JsObj.get community (communities i) = Some communityRef
    ∧ fetched s2 communityFilePath = Ok (Some (mkResult (DCommunity c) communitySha))
    ∧ r = mkResponse 201 (BDoc (DPost post))
    ∧ (s' = s4
       ∨ ∃ userFilePath u userSha,
           fetched s4 userFilePath = Ok (Some (mkResult (DUser u) userSha))
           ∧ s' = written userFilePath
                    (DUser (setUserLists (postId :: u_posts u) (u_comments u) u)) s4).
Proof.
  intros E H201. unfold createPost, route in E.
  destruct (bool_decide (title = "") || bool_decide (author = ""));
    [by injection E as <- <-|].
  unfold mbind at 1 in E. unfold M_bind in E.
  destruct (getIndex s) as [[[index h]|e] s1] eqn:Hidx; [|by injection E as <- <-].
  destruct (JsObj.get community (communities index)) as [communityRef|] eqn:Href;
    [|by injection E as <- <-].
  apply getIndex_result in Hidx as [(-> & i & Hi & ->)|(-> & _)]; [|done].
  unfold mbind at 1 in E. unfold M_bind, now in E.
  unfold mbind at 1 in E. unfold M_bind in E.
  match type of E with
  | context [saveFileToGitHub ?p ?d ?h ?s1] =>
      destruct (save_cases p d h s1) as [[e He]|He]; rewrite He in E;
      [by injection E as <- <-|]
  end.
  unfold mbind at 1 in E. unfold M_bind in E.
  rewrite getFileFromGitHub_fetched in E.
  match type of E with
  | context [fetched ?s2 ?p] =>
      destruct (fetched s2 p) as [[[d communitySha]|]|e] eqn:Hc;
      [|by injection E as <- <-..]
  end.
  destruct d as [| | |c| |]; try by injection E as <- <-.
  unfold mbind at 1 in E. unfold M_bind in E.
  match type of E with
  | context [saveFileToGitHub ?p ?d ?h ?s1] =>
      destruct (save_cases p d h s1) as [[e He']|He']; rewrite He' in E;
      [by injection E as <- <-|]
  end.
  unfold mbind at 1 in E. unfold M_bind in E. unfold updateIndex in E.
  unfold mbind at 1 in E. unfold M_bind, now in E.
  match type of E with
  | context [saveFileToGitHub ?p ?d ?h ?s1] =>
      destruct (save_cases p d h s1) as [[e He'']|He'']; rewrite He'' in E;
      [by injection E as <- <-|]
  end.
  unfold mbind in E. unfold M_bind in E.
  match type of E with
  | context [updateAuthor ?index ?a ?f ?s4] =>
      destruct (updateAuthor_cases index a f s4)
        as [Hu|[(upath & u & hu & Hfu & Hu)|[e Hu]]]; rewrite Hu in E
  end.
  - injection E as <- <-. exists i, h, communityRef, c, communitySha. cbn zeta.
    split; [done|]. split; [by rewrite communities_ensureMaps in Href|].
    split; [done|]. split; [done|]. by left.
  - injection E as <- <-. exists i, h, communityRef, c, communitySha. cbn zeta.
    split; [done|]. split; [by rewrite communities_ensureMaps in Href|].
    split; [done|]. split; [done|]. right. by exists upath, u, hu.
  - by injection E as <- <-.
Qed.

(** X26: a new post is listed first.  Every creation of a post that is
    answered 201 has stored the post it answers with under
    [posts/<id>.json]; the index lists the identifier with this file, the
    community, the author and the slug of the post; the document of the
    community has the identifier in front of its posts; and every listing
    of the community in the order ["new"] with a limit of at least one
    that is answered 200 right after has the post as its first post, field
    by field and without [voters]. *)
Theorem createPost_listed_first (community title text author type postId : string)
    (s s' : Store) (r : Response) :
  createPost community title text author type postId s = (r, s') →
  status r = 201%nat →
  ∃ post i' ref communityRef c',
    body r = BDoc (DPost post)
    ∧ post = newPost postId title text type author community (clock s)
    ∧ stored s' (DATA_PATH ++ "/posts/" ++ postId ++ ".json") = Some (DPost post)
    ∧ stored s' indexPath = Some (DIndex i')
    ∧ JsObj.get postId (posts i') = Some ref
    ∧ ref = mkPostRef ("posts/" ++ postId ++ ".json") community author (clock s)
              (p_slug post)
    ∧ JsObj.get community (communities i') = Some communityRef
    ∧ stored s' (DATA_PATH ++ "/" ++ cr_file communityRef) = Some (DCommunity c')
    ∧ head (co_posts c') = Some postId
    ∧ ∀ (limit : Z) (answer : Reply) (s'' : Store),
        (1 ≤ limit)%Z →
        getCommunityPosts community "new" (Some limit) s' = (answer, s'') →
        r_status answer = 200%nat →
        ∃ views,
          r_body answer
          = PPosts
              (mkPostView
                 (DPost {| p_id := postId; p_slug := p_slug post; p_title := title;
                           p_content := text; p_type := type; p_author := author;
                           p_community := community; p_createdAt := clock s;
                           p_upvotes := 1; p_downvotes := 0; p_score := 1;
                           p_comments := []; p_commentCount := 0;
                           p_voters := None |})
                 (avatarOf i' (Some author)) (iconOf i' (Some community)) :: views).
Proof.
  intros E H201.
  destruct (createPost_201_inv _ _ _ _ _ _ _ _ _ E H201)
    as (i & h & communityRef & c & communitySha & Hi & Href & Hc & -> & Hs').
  cbn zeta in *.
  set (post := newPost postId title text type author community (clock s)) in *.
  set (postFilePath := DATA_PATH ++ "/posts/" ++ postId ++ ".json") in *.
  set (communityFilePath := DATA_PATH ++ "/" ++ cr_file communityRef) in *.
  set (ref := mkPostRef ("posts/" ++ postId ++ ".json") community author (clock s)
                (p_slug post)) in *.
  set (index' := setLastUpdated (clock s) _) in *.
  set (c' := unshiftCommunityPost postId c) in *.
  set (s2 := written postFilePath (DPost post) s) in *.
  set (s3 := written communityFilePath (DCommunity c') s2) in *.
  set (s4 := written indexPath (DIndex index') s3) in *.
  assert (Hpi : postFilePath ≠ indexPath) by apply postFile_not_index.
  assert (Hpc : postFilePath ≠ communityFilePath).
  { apply (stored_distinct s2 _ _ (DPost post) (DCommunity c));
      [apply stored_written_eq|by eapply fetched_stored|done]. }
  assert (Hci : communityFilePath ≠ indexPath).
  { apply (fetched_distinct s2 _ _ _ (DIndex i) _ h Hc); [|done].
    unfold s2. rewrite fetched_written_ne by done. exact Hi. }
  assert (Hpost4 : stored s4 postFilePath = Some (DPost post)).
  { unfold s4, s3. rewrite !stored_written_ne by done. apply stored_written_eq. }
  assert (Hcomm4 : stored s4 communityFilePath = Some (DCommunity c')).
  { unfold s4. rewrite stored_written_ne by done. apply stored_written_eq. }
  assert (Hidx4 : stored s4 indexPath = Some (DIndex index')) by apply stored_written_eq.
  assert (Hstored : stored s' postFilePath = Some (DPost post)
                    ∧ stored s' communityFilePath = Some (DCommunity c')
                    ∧ stored s' indexPath = Some (DIndex index')).
  { destruct Hs' as [->|(upath & u & hu & Hfu & ->)]; [done|].
    apply fetched_stored in Hfu.
    rewrite !stored_written_ne; [done|..].
    - apply (stored_distinct s4 _ _ _ _ Hfu Hidx4). discriminate.
    - apply (stored_distinct s4 _ _ _ _ Hfu Hcomm4). discriminate.
    - apply (stored_distinct s4 _ _ _ _ Hfu Hpost4). discriminate. }
  destruct Hstored as (Hpost' & Hcomm' & Hidx').
  assert (Hget : JsObj.get postId (posts index') = Some ref).
  { unfold index', posts at 1; simpl. apply JsObj_get_set_eq. }
  assert (Hcref : JsObj.get community (communities index') = Some communityRef).
  { unfold index', communities at 1; simpl. exact Href. }
  exists post, index', ref, communityRef, c'.
  split; [done|]. split; [done|]. split; [done|]. split; [done|]. split; [done|].
  split; [done|]. split; [done|]. split; [done|]. split; [done|].
  intros limit answer s'' Hlimit Elist H200.
  assert (Hfault : getFault s' = getFault s)
    by (by destruct Hs' as [->|(upath & u & hu & Hfu & ->)]).
  assert (Hfetch : ∀ path d, stored s' path = Some d → path ∉ getFault s →
                    ∃ hd, fetched s' path = Ok (Some (mkResult d hd))).
  { intros path d Hd Hok. unfold fetched, stored in *. rewrite Hfault.
    rewrite decide_False by done. destruct (files s' !! path) as [f|]; [|done].
    injection Hd as <-. by eexists. }
  destruct (Hfetch _ _ Hidx' (fetched_no_fault _ _ _ Hi)) as [hi' Hi'].
  destruct (Hfetch _ _ Hcomm' (fetched_no_fault s2 _ _ Hc)) as [hc' Hc'].
  unfold getCommunityPosts, serve in Elist.
  unfold mbind at 1 in Elist. unfold M_bind in Elist.
  rewrite (getIndex_stored s' index' hi' Hi' (posts_not_empty _ _ _ Hget)) in Elist.
  rewrite communities_ensureMaps, Hcref in Elist.
  unfold mbind at 1 in Elist. unfold M_bind in Elist.
  rewrite getFileFromGitHub_fetched in Elist. fold communityFilePath in Elist.
  rewrite Hc' in Elist.
  assert (Hslice : slice0To (Some limit) (co_posts c')
                   = postId :: take (Z.to_nat limit - 1) (co_posts c)).
  { unfold slice0To. rewrite bool_decide_eq_false_2 by lia.
    destruct (Z.to_nat limit) as [|n] eqn:Hn; [lia|]. simpl. by rewrite Nat.sub_0_r. }
  rewrite Hslice in Elist. simpl populatePosts in Elist.
  rewrite posts_ensureMaps, Hget in Elist.
  unfold mbind at 1 in Elist. unfold M_bind in Elist.
  unfold mbind at 1 in Elist. unfold M_bind in Elist.
  rewrite getFileFromGitHub_fetched in Elist.
  change (DATA_PATH ++ "/" ++ pr_file ref) with postFilePath in Elist.
  destruct (decide (postFilePath ∈ getFault s)) as [Hbad|Hgood].
  { unfold fetched in Elist at 1. rewrite Hfault, decide_True in Elist by done.
    injection Elist as <- _. done. }
  destruct (Hfetch _ _ Hpost' Hgood) as [hp' Hp']. rewrite Hp' in Elist.
  cbn [content] in Elist.
  unfold mret, M_ret, mbind, M_bind, answerWith in Elist. cbv beta iota in Elist.
  match type of Elist with
  | context [populatePosts ?index ?postIds ?store] =>
      destruct (populatePosts index postIds store) as [[views|e] s1];
      [|injection Elist as <- _; done]
  end.
  injection Elist as <- _. exists views. done.
Qed.

Lemma createPost_listed_first_witness :
  ∃ post i' ref communityRef c',
    body (createPost "gaming" "Second" "" "bob" "text" bobId helloStore).1
    = BDoc (DPost post)
    ∧ post = newPost bobId "Second" "" "text" "bob" "gaming" (clock helloStore)
    ∧ stored bobStore (DATA_PATH ++ "/posts/" ++ bobId ++ ".json") = Some (DPost post)
    ∧ stored bobStore indexPath = Some (DIndex i')
    ∧ JsObj.get bobId (posts i') = Some ref
    ∧ ref = mkPostRef ("posts/" ++ bobId ++ ".json") "gaming" "bob" (clock helloStore)
              (p_slug post)
    ∧ JsObj.get "gaming" (communities i') = Some communityRef
    ∧ stored bobStore (DATA_PATH ++ "/" ++ cr_file communityRef) = Some (DCommunity c')
    ∧ head (co_posts c') = Some bobId
    ∧ ∀ (limit : Z) (answer : Reply) (s'' : Store),
        (1 ≤ limit)%Z →
        getCommunityPosts "gaming" "new" (Some limit) bobStore = (answer, s'') →
        r_status answer = 200%nat →
        ∃ views,
          r_body answer
          = PPosts
              (mkPostView
                 (DPost {| p_id := bobId; p_slug := p_slug post; p_title := "Second";
                           p_content := ""; p_type := "text"; p_author := "bob";
                           p_community := "gaming"; p_createdAt := clock helloStore;
                           p_upvotes := 1; p_downvotes := 0; p_score := 1;
                           p_comments := []; p_commentCount := 0;
                           p_voters := None |})
                 (avatarOf i' (Some "bob")) (iconOf i' (Some "gaming")) :: views).
Proof.
  apply (createPost_listed_first "gaming" "Second" "" "bob" "text" bobId helloStore
           bobStore (createPost "gaming" "Second" "" "bob" "text" bobId helloStore).1
           ltac:(apply surjective_pairing) ltac:(vm_compute; reflexivity)).
Defined.


(** ** The retention that the job reads *)

Lemma identify_without_retention (today : Z) (entries : list (string * PostRef))
    (s : Store) :
  identify today None entries s = (Ok [], s).
Proof.
  induction entries as [|[postId meta] rest IH]; [done|].
  cbn [identify expired]. unfold mbind, M_bind, mret, M_ret. cbv beta iota.
  by rewrite IH.
Qed.

Lemma cleanupOldPosts_without_retention (s : Store) :
  getConfig s = (Ok None, s) →
  ∃ s', cleanupOldPosts s = (Ok tt, s') ∧ (s' = s ∨ s' = repaired s).
Proof.
  intros Hcfg. unfold cleanupOldPosts, try_catch. unfold mbind at 1. unfold M_bind.
  rewrite Hcfg. unfold mbind at 1. unfold M_bind.
  destruct (getIndex s) as [[[index h]|e] s1] eqn:Hidx.
  - unfold mbind at 1. unfold M_bind, now.
    unfold mbind at 1. unfold M_bind. cbn [fmap option_fmap option_map].
    rewrite identify_without_retention.
    unfold mbind, M_bind. cbn [take execute]. unfold mret, M_ret. cbv beta iota.
    exists s1. split; [done|].
    destruct (getIndex_writes _ _ _ Hidx) as [->|(-> & _ & _)]; [by left|by right].
  - exists s1. split; [done|].
    destruct (getIndex_writes _ _ _ Hidx) as [->|(_ & _ & [=])]. by left.
Qed.

(** X27: the retention that the job reads.  [getConfig] reads 20 days
    when config.json is missing, blank or unparseable, and the stored
    number when the file holds a configuration.  When the file holds an
    object without [retentionDays], the retention is not a number, no post
    is older than it, and a run of the retention job deletes nothing: it
    leaves the store as it is, or as it is with a missing or empty index
    replaced. *)
Theorem retention_read (s : Store) :
  configPath ∉ getFault s →
  (files s !! configPath = None → (getConfig s).1 = Ok (Some 20))
  ∧ (∀ f, files s !! configPath = Some f → f_raw f = RBlank ∨ f_raw f = RCorrupt →
       (getConfig s).1 = Ok (Some 20))
  ∧ (∀ f days, files s !! configPath = Some f → f_raw f = RJson (DConfig days) →
       (getConfig s).1 = Ok (Some days))
  ∧ (∀ f o, files s !! configPath = Some f → f_raw f = RJson (DPartial o) →
       isEmptyObject (DPartial o) = false →
       (getConfig s).1 = Ok None
       ∧ (cleanupOldPosts s = (Ok tt, s) ∨ cleanupOldPosts s = (Ok tt, repaired s))).
Proof.
  intros Hserved.
  assert (Hfetch : ∀ f, files s !! configPath = Some f →
            fetched s configPath = Ok (Some (mkResult (parse (f_raw f)) (Some (f_sha f))))).
  { intros f Hf. unfold fetched. by rewrite decide_False, Hf. }
  assert (Hget : getConfig s
                 = match fetched s configPath with
                   | Ok None => (Ok (Some 20), s)
                   | Ok (Some r) =>
                       if isEmptyObject (content r) then (Ok (Some 20), s)
                       else match content r with
                            | DConfig days => (Ok (Some days), s)
                            | DPartial _ => (Ok None, s)
                            | _ => (Throw TypeError, s)
                            end
                   | Throw e => (Throw e, s)
                   end).
  { unfold getConfig. unfold mbind, M_bind. rewrite getFileFromGitHub_fetched.
    destruct (fetched s configPath) as [[[d h]|]|e]; try done; simpl.
    destruct (isEmptyObject d); [done|]. by destruct d. }
  split; [|split; [|split]].
  - intros Hnone. rewrite Hget. unfold fetched. by rewrite decide_False, Hnone.
  - intros f Hf Hraw. rewrite Hget, (Hfetch f Hf). by destruct Hraw as [-> | ->].
  - intros f days Hf Hraw. by rewrite Hget, (Hfetch f Hf), Hraw.
  - intros f o Hf Hraw Hne.
    assert (Hcfg : getConfig s = (Ok None, s)).
    { rewrite Hget, (Hfetch f Hf), Hraw. cbn [parse content]. by rewrite Hne. }
    split; [by rewrite Hcfg|].
    destruct (cleanupOldPosts_without_retention s Hcfg) as (s' & -> & [-> | ->]);
      [by left|by right].
Qed.

Lemma retention_read_witness : (getConfig agedStore).1 = Ok (Some 20).
Proof.
  apply (proj1 (retention_read agedStore ltac:(vm_compute; set_solver))).
  vm_compute. reflexivity.
Defined.


(** ** What a vote does to a post *)

(** X28: a vote on an existing post (the index lists it and its document is
    in place), under a name that the ledger records, any but [__proto__]
    or that one too where the ledger has it as an own key, is answered 200
    and writes the document in which the counter of the user's previous
    vote is one lower, the counter of the new vote one higher (neither for
    a vote 0), [voters[username]] is the new vote and [score] is
    [upvotes - downvotes]; and along every sequence of vote requests from
    every store and under every name, each request that is answered 200
    has written a post document with [score = upvotes - downvotes]. *)
Theorem vote_keeps_score (s : Store) (postId username : string) (v : Z)
    (i : IndexDoc) (h : option Sha) (ref : PostRef)
    (post : Post) (postSha : option Sha) (voters : gmap string Z) :
  username ≠ "" →
  username ≠ "__proto__" ∨ is_Some (voters !! username) →
  fetched s indexPath = Ok (Some (mkResult (DIndex i) h)) →
  JsObj.get postId (posts i) = Some ref →
  fetched s (DATA_PATH ++ "/" ++ pr_file ref) = Ok (Some (mkResult (DPost post) postSha)) →
  p_voters post = Some voters →
  let previousVote := default 0 (voters !! username) in
  (∃ post',
     vote postId username (Some v) s
     = (mkResponse 200 (BVotes (p_upvotes post') (p_downvotes post') (p_score post')),
        written (DATA_PATH ++ "/" ++ pr_file ref) (DPost post') s)
     ∧ p_upvotes post'
       = p_upvotes post - oneIf (bool_decide (previousVote = 1))
         + oneIf (bool_decide (v = 1))
     ∧ p_downvotes post'
       = p_downvotes post - oneIf (bool_decide (previousVote = -1))
         + oneIf (bool_decide (v = -1))
     ∧ p_voters post' = Some (<[username := v]> voters)
     ∧ p_score post' = p_upvotes post' - p_downvotes post')
  ∧ ∀ (calls : list VoteCall) (s0 : Store),
      Forall (λ '(before, call, response, after),
                status response = 200%nat →
                ∃ path post',
                  after = written path (DPost post') before
                  ∧ p_score post' = p_upvotes post' - p_downvotes post')
        (trace runVote calls s0).
Proof.
  intros Hu Hown Hi Href Hp Hv previousVote. split.
  - exists (applyVote username v voters post). split.
    + by eapply vote_existing.
    + rewrite <- (recordVote_own _ _ _ Hown). apply applyVote_fields.
  - apply trace_Forall. intros s1 [pid u w]. unfold runVote; simpl. intros H200.
    destruct (vote pid u w s1) as [r s1'] eqn:E.
    destruct (vote_200 _ _ _ _ _ _ E H200) as (path & post' & ? & ? & _). eauto.
Qed.

Lemma vote_keeps_score_witness :
  ∃ post',
    vote helloId "alice" (Some (-1)) helloStore
    = (mkResponse 200 (BVotes (p_upvotes post') (p_downvotes post') (p_score post')),
       written (DATA_PATH ++ "/" ++ pr_file helloRef) (DPost post') helloStore)
    ∧ p_upvotes post' = 0 ∧ p_downvotes post' = 1
    ∧ p_voters post' = Some (<[ "alice" := -1 ]> {[ "alice" := 1 ]})
    ∧ p_score post' = p_upvotes post' - p_downvotes post'.
Proof.
  destruct (proj1 (vote_keeps_score helloStore helloId "alice" (-1)
                     helloIndex (Some 6%nat) helloRef helloPost (Some 4%nat)
                     {[ "alice" := 1 ]}
                     ltac:(discriminate) ltac:(left; discriminate)
                     ltac:(vm_compute; reflexivity)
                     ltac:(vm_compute; reflexivity) ltac:(vm_compute; reflexivity)
                     ltac:(reflexivity)))
    as (post' & E & Hup & Hdown & Hvoters & Hscore).
  exists post'. repeat split; assumption.
Defined.


(** ** The password of a user in a profile *)

Lemma populatePosts_no_password (index : IndexDoc) (postIds : list string) :
  ∀ (s s' : Store) (views : list PostView),
    (∀ postId ref, JsObj.get postId (posts index) = Some ref → holdsPost s ref = true) →
    populatePosts index postIds s = (Ok views, s') →
    flat_map (λ view, option_list (docPassword (pv_post view))) views = [].
Proof.
  induction postIds as [|postId rest IH]; intros s s' views Hsound; simpl.
  - by intros [= <- _].
  - destruct (JsObj.get postId (posts index)) as [ref|] eqn:Href; [|by apply IH].
    unfold mbind at 1. unfold M_bind. rewrite getFileFromGitHub_fetched.
    destruct (fetched s (DATA_PATH ++ "/" ++ pr_file ref)) as [[[d h]|]|e] eqn:Hf;
      [|by apply IH|done]; simpl.
    pose proof (Hsound _ _ Href) as Hholds. unfold holdsPost, postPath in Hholds.
    rewrite (fetched_stored _ _ _ _ Hf) in Hholds.
    unfold mbind, M_bind.
    destruct d as [o| | | |p|]; simpl; try done.
    + destruct (populatePosts index rest s) as [[views'|e] s1] eqn:Hrest; [|done].
      intros [= <- _]; simpl. by eapply IH.
    + destruct (populatePosts index rest s) as [[views'|e] s1] eqn:Hrest; [|done].
      intros [= <- _]; simpl. by eapply IH.
Qed.

Lemma postFilesSound_listed (s : Store) (i : IndexDoc) (h : option Sha)
    (postId : string) (ref : PostRef) :
  postFilesSound s = true →
  fetched s indexPath = Ok (Some (mkResult (DIndex i) h)) →
  JsObj.get postId (posts i) = Some ref →
  holdsPost s ref = true.
Proof.
  intros Hsound Hi Href. unfold postFilesSound in Hsound.
  rewrite (fetched_stored _ _ _ _ Hi) in Hsound.
  unfold postRefsSound in Hsound. rewrite forallb_forall in Hsound.
  apply (Hsound (postId, ref)). apply list_elem_of_In.
  by apply JsObj_get_Some_elem.
Qed.

Lemma getUser_body (username : string) (s : Store) :
  postFilesSound s = true →
  passwordsIn (body (getUser username s).1) = [].
Proof.
  intros Hsound. unfold getUser. apply route_body; [done|]. intros r s'.
  destruct (hasProfanity username); [by intros [= <- _]|].
  unfold mbind at 1. unfold M_bind.
  destruct (getDirectWithFallback _ _ _ s) as [x s1] eqn:E.
  apply resolver_writes in E as [->|(-> & Hfault & ->)]; [|by intros [= <- _]].
  destruct x as [[[d h]|]|e]; [|by intros [= <- _]|done].
  unfold mbind at 1. unfold M_bind.
  destruct (getIndex s) as [[[index hi]|e] s2] eqn:Hidx; [|done]. simpl.
  destruct d as [o| |u| | |]; try done; [by intros [= <- _]|].
  unfold mbind at 1. unfold M_bind.
  destruct (populatePosts index _ s2) as [[views|e] s3] eqn:Hposts; [|done].
  unfold mbind at 1. unfold M_bind.
  destruct (populateComments index _ s3) as [[comments|e] s4]; [|done].
  intros [= <- _]; simpl.
  apply (populatePosts_no_password _ _ _ _ _) with (2 := Hposts).
  intros postId ref Href.
  apply getIndex_result in Hidx as [(-> & i & Hi & ->)|(-> & _)]; [|done].
  by eapply postFilesSound_listed.
Qed.

(** The user document of a profile carries no password, on every store. *)
Lemma getUser_safeUser (username : string) (s : Store) (d : Doc)
    (posts : list PostView) (comments : list CommentView) :
  body (getUser username s).1 = BProfile d posts comments → docPassword d = None.
Proof.
  destruct (getUser username s) as [r s'] eqn:E. cbn [fst].
  revert E. unfold getUser, route.
  destruct (hasProfanity username); [by intros [= <- _]|].
  unfold mbind at 1. unfold M_bind.
  destruct (getDirectWithFallback _ _ _ s) as [[[[d0 h]|]|e] s1];
    [|by intros [= <- _]..].
  unfold mbind at 1. unfold M_bind.
  destruct (getIndex s1) as [[[index hi]|e] s2]; [|by intros [= <- _]]. cbn [content].
  destruct d0 as [o| |u| | |]; try by intros [= <- _].
  - intros [= <- _] [= <- _ _]. done.
  - unfold mbind at 1. unfold M_bind.
    destruct (populatePosts index _ s2) as [[views|e] s3]; [|by intros [= <- _]].
    unfold mbind at 1. unfold M_bind.
    destruct (populateComments index _ s3) as [[cs|e] s4]; [|by intros [= <- _]].
    intros [= <- _] [= <- _ _]. done.
Qed.

(** A profile that is answered 200 is the stored user document without its
    password, with the listings. *)
Lemma getUser_profile (username : string) (s : Store) (u : User) (h : option Sha) :
  hasProfanity username = false →
  fetched s (directPath "users" username) = Ok (Some (mkResult (DUser u) h)) →
  status (getUser username s).1 = 200%nat →
  ∃ posts comments,
    body (getUser username s).1 = BProfile (DUser (withoutPassword u)) posts comments.
Proof.
  intros Hclean Hu. destruct (getUser username s) as [r s'] eqn:E. cbn [fst].
  revert E. unfold getUser, route. rewrite Hclean.
  unfold mbind at 1. unfold M_bind.
  rewrite getDirectWithFallback_direct, Hu. cbn [content isEmptyObject].
  unfold mbind at 1. unfold M_bind.
  destruct (getIndex s) as [[[index hi]|e] s2]; [|by intros [= <- _]]. cbn [content].
  unfold mbind at 1. unfold M_bind.
  destruct (populatePosts index _ s2) as [[views|e] s3]; [|by intros [= <- _]].
  unfold mbind at 1. unfold M_bind.
  destruct (populateComments index _ s3) as [[comments|e] s4]; [|by intros [= <- _]].
  intros [= <- _] _. by eexists _, _.
Qed.

(** The profile of a user without posts and comments. *)
Lemma getUser_plain (username : string) (s : Store) (u : User) (h : option Sha)
    (i : IndexDoc) (hi : option Sha) :
  hasProfanity username = false →
  fetched s (directPath "users" username) = Ok (Some (mkResult (DUser u) h)) →
  fetched s indexPath = Ok (Some (mkResult (DIndex i) hi)) →
  isEmptyObject (DIndex i) = false →
  u_posts u = [] → u_comments u = [] →
  getUser username s
  = (mkResponse 200 (BProfile (DUser (withoutPassword u)) [] []), s).
Proof.
  intros Hclean Hu Hi Hne Hposts Hcomments. unfold getUser, route. rewrite Hclean.
  unfold mbind at 1. unfold M_bind.
  rewrite getDirectWithFallback_direct, Hu. cbn [content isEmptyObject].
  unfold mbind at 1. unfold M_bind.
  rewrite (getIndex_stored s i hi Hi Hne). cbn [content].
  cbn [withoutPassword u_posts u_comments]. rewrite Hposts, Hcomments. done.
Qed.

(** C10, the claim as stated fails: where the index lists the file of a
    user as a post and the user document names that post, the profile of
    the user is answered 200 with the user document, hash and all, among
    its posts.  The listing copies the document that the index lists and
    drops its [voters] only. *)
Lemma getUser_lists_stray_user :
  stored strayStore "data/users/alice.json" = Some (DUser strayAlice)
  ∧ u_password strayAlice = Some "$2a$10$hash-of-alice"
  ∧ getUser "alice" strayStore
    = (mkResponse 200
         (BProfile (DUser (withoutPassword strayAlice))
            [mkPostView (DUser strayAlice) "" ""] []),
       strayStore)
  ∧ passwordsIn (body (getUser "alice" strayStore).1) = ["$2a$10$hash-of-alice"]
  ∧ passwordsIn (body (getUser "alice" strayStore).1) ≠ []
  ∧ postFilesSound strayStore = false.
Proof.
  assert (getUser "alice" strayStore
          = (mkResponse 200
               (BProfile (DUser (withoutPassword strayAlice))
                  [mkPostView (DUser strayAlice) "" ""] []),
             strayStore)) as E by (by vm_compute).
  split; [by vm_compute|]. split; [done|]. split; [exact E|].
  rewrite E. split; [done|]. split; [done|]. by vm_compute.
Qed.

(** C10, amended: the body of every answer of register, login and
    updateUserProfile, on every store and for every request, carries no
    [password] field, and neither does the user document of a profile that
    getUser answers with.  The posts listed with a profile are copies of
    the documents that the index lists as posts: the whole body of every
    answer of getUser carries no [password] field on every store in which
    these files hold posts.  A registration that is answered 201 has stored the hash with
    the user document and answers with that document without the field; a
    login that is answered 200 answers with the stored user document,
    whose hash matched, without the field; a profile that is answered 200
    is the stored user document without the field, with its listings, and
    the profile of a stored user without posts and comments is answered
    200; and an update of the profile of a listed user whose document is
    in place is answered 200 with the updated document without the field.
    The document without the field has every other field of the stored
    one. *)
Theorem user_routes_strip_password
    (hash : string → string → string) (compare : string → string → bool) (s : Store) :
  (∀ username password email salt userId,
     passwordsIn (body (register hash username password email salt userId s).1) = [])
  ∧ (∀ username password,
       passwordsIn (body (login compare username password s).1) = [])
  ∧ (∀ username d posts comments,
       body (getUser username s).1 = BProfile d posts comments →
       docPassword d = None)
  ∧ (postFilesSound s = true →
     ∀ username, passwordsIn (body (getUser username s).1) = [])
  ∧ (∀ username avatarUrl about,
       passwordsIn (body (updateUserProfile username avatarUrl about s).1) = [])
  ∧ (∀ username password email salt userId,
       status (register hash username password email salt userId s).1 = 201%nat →
       ∃ u,
         stored (register hash username password email salt userId s).2
           (DATA_PATH ++ "/users/" ++ username ++ ".json") = Some (DUser u)
         ∧ u_password u = Some (hash password salt)
         ∧ body (register hash username password email salt userId s).1
           = BUser (DUser (withoutPassword u)))
  ∧ (∀ username password,
       status (login compare username password s).1 = 200%nat →
       ∃ path u stored_hash,
         stored s path = Some (DUser u)
         ∧ u_password u = Some stored_hash
         ∧ compare password stored_hash = true
         ∧ body (login compare username password s).1
           = BUser (DUser (withoutPassword u)))
  ∧ (∀ username u h,
       hasProfanity username = false →
       fetched s ("data/users/" ++ username ++ ".json")
       = Ok (Some (mkResult (DUser u) h)) →
       (status (getUser username s).1 = 200%nat →
        ∃ posts comments,
          body (getUser username s).1
          = BProfile (DUser (withoutPassword u)) posts comments)
       ∧ (∀ i hi,
            fetched s indexPath = Ok (Some (mkResult (DIndex i) hi)) →
            isEmptyObject (DIndex i) = false →
            u_posts u = [] → u_comments u = [] →
            getUser username s
            = (mkResponse 200 (BProfile (DUser (withoutPassword u)) [] []), s)))
  ∧ (∀ username avatarUrl about i h ref u userSha,
       fetched s indexPath = Ok (Some (mkResult (DIndex i) h)) →
       JsObj.get username (default [] (i_users i)) = Some ref →
       fetched s ("data/" ++ ur_file ref) = Ok (Some (mkResult (DUser u) userSha)) →
       (updateUserProfile username avatarUrl about s).1
       = mkResponse 200
           (BDoc (DUser (withoutPassword (setUserProfile avatarUrl about u)))))
  ∧ (∀ u,
       withoutPassword u
       = {| u_id := u_id u; u_username := u_username u; u_email := u_email u;
            u_password := None; u_createdAt := u_createdAt u; u_karma := u_karma u;
            u_posts := u_posts u; u_comments := u_comments u;
            u_communities := u_communities u; u_avatarUrl := u_avatarUrl u;
            u_about := u_about u; u_savedPosts := u_savedPosts u |}).
Proof.
  split; [intros; apply register_body|].
  split; [intros; apply login_body|].
  split; [intros; by eapply getUser_safeUser|].
  split; [intros; by apply getUser_body|].
  split; [intros; apply updateUserProfile_body|].
  split; [intros; by apply register_201|].
  split; [intros; by apply login_200|].
  split; [|split; [|done]].
  - intros username u h Hclean Hu. split.
    + intros H200. by apply (getUser_profile username s u h).
    + intros i hi Hi Hne Hposts Hcomments. by apply (getUser_plain username s u h i hi).
  - intros username avatarUrl about i h ref u userSha Hi Href Hu.
    by rewrite (updateUserProfile_existing username avatarUrl about s i h ref u userSha).
Qed.

Lemma user_routes_strip_password_witness :
  (∃ u,
     stored (register sampleHash "bob" "secret" "" "$2a$10$salt" "u-2" siteStore).2
       (DATA_PATH ++ "/users/" ++ "bob" ++ ".json") = Some (DUser u)
     ∧ u_password u = Some "$2a$10$saltsecret"
     ∧ body (register sampleHash "bob" "secret" "" "$2a$10$salt" "u-2" siteStore).1
       = BUser (DUser (withoutPassword u)))
  ∧ passwordsIn (body (login sampleCompare "alice" "alice" siteStore).1) = []
  ∧ (login sampleCompare "alice" "alice" siteStore).1
    = mkResponse 200 (BUser (DUser (withoutPassword alice)))
  ∧ getUser "alice" siteStore
    = (mkResponse 200 (BProfile (DUser (withoutPassword alice)) [] []), siteStore)
  ∧ passwordsIn (body (getUser "alice" helloStore).1) = []
  ∧ (∃ posts comments,
       body (getUser "alice" helloStore).1
       = BProfile
           (DUser (withoutPassword
                     (setUserLists [helloId] [] alice))) posts comments)
  ∧ (updateUserProfile "alice" (Some "a.png") (Some "hi") siteStore).1
    = mkResponse 200
        (BDoc (DUser (withoutPassword (setUserProfile (Some "a.png") (Some "hi") alice))))
  ∧ passwordsIn
      (body (updateUserProfile "alice" (Some "a.png") (Some "hi") siteStore).1) = [].
Proof.
  pose proof (user_routes_strip_password sampleHash sampleCompare siteStore)
    as (_ & Hlogin & _ & _ & Hupdate & Hregister & _ & Hprofile & Hupdated & _).
  pose proof (user_routes_strip_password sampleHash sampleCompare helloStore)
    as (_ & _ & _ & Hget & _ & _ & _ & Hprofile' & _).
  split; [|split; [|split; [|split; [|split; [|split; [|split]]]]]].
  - apply Hregister. vm_compute. reflexivity.
  - apply Hlogin.
  - vm_compute. reflexivity.
  - apply (proj2 (Hprofile "alice" alice (Some 1%nat) ltac:(vm_compute; reflexivity)
                    ltac:(vm_compute; reflexivity))
             siteIndex (Some 3%nat));
      vm_compute; reflexivity.
  - apply Hget. vm_compute. reflexivity.
  - apply (proj1 (Hprofile' "alice" (setUserLists [helloId] [] alice) (Some 7%nat)
                    ltac:(vm_compute; reflexivity) ltac:(vm_compute; reflexivity))).
    vm_compute. reflexivity.
  - apply (Hupdated "alice" (Some "a.png") (Some "hi") siteIndex (Some 3%nat) aliceRef
             alice (Some 1%nat));
      vm_compute; reflexivity.
  - apply Hupdate.
Defined.
